(** * The ROM provisioning and orchestration core of the ROM emulator

    A shallow embedding of [rp/src/emul.c]: the flash provisioner
    [storeFileToFlash], the catalog producers [readRomsSdcard] and
    [readRomsCsv], pagination, the command handlers, and the download step
    of the main loop of [emul_start]; then the properties that the
    specification states of them.

    Conventions.
    - C [char] and [uint8_t] are [ascii]; C strings are [string], the
      terminating NUL implicit; the contents of a file are a [list ascii].
    - C [int] is [Z]; [uint32_t] is [Z] with the wrap-around written out
      ([wrap32]); sizes and positions in buffers and files are [nat], and
      [size_t] arithmetic that can wrap is done in [Z].
    - The fields of a [ROM] are the texts read at the start of its arrays;
      where a text outgrows its array, the fields are what is read at the
      arrays that it runs on into.
    - The statics of [emul.c] and the collaborators it drives are the fields
      of one record, [Emul], which every handler takes and returns.
    - FatFs, the flash and clock primitives of the SDK and the C library
      are outside the repository and are modelled by their documented
      behaviour; [DPRINTF] is a log of format strings and arguments.
    - Platform constants and the behaviour of collaborators that the sources
      do not fix are Section variables. *)

From Stdlib Require Import ZArith List Ascii String Lia Bool DecimalString.
From Stdlib Require Import Sorting.Sorted Sorting.Permutation.
From stdpp Require Import base gmap strings list.

Local Open Scope Z_scope.

(** ** Machine integers *)

Definition wrap32 (z : Z) : Z := z mod 2 ^ 32.

(** ** FatFs, as far as [emul.c] uses it *)

Abbreviation FRESULT := Z (only parsing).
Definition FR_OK : FRESULT := 0.
Definition FR_NO_FILE : FRESULT := 4.
Definition FR_NO_PATH : FRESULT := 5.

Definition AM_DIR : Z := 16.

Record FILINFO := { fname : string; fattrib : Z }.

(** A volume: its files, its directories, and a schedule of the results
    of the coming fallible calls (disk errors); an exhausted schedule
    means the medium answers [FR_OK] from then on. *)
Record FatFs := {
  files : gmap string (list ascii);
  dirs : gmap string (list FILINFO);
  faults : list FRESULT
}.

(** An open file object: the contents and the read pointer. *)
Record FIL := { f_data : list ascii; f_ptr : nat }.

Definition next_fault (fs : FatFs) : FRESULT * FatFs :=
  match faults fs with
  | [] => (FR_OK, fs)
  | r :: rest => (r, {| files := files fs; dirs := dirs fs; faults := rest |})
  end.

Definition f_open (fs : FatFs) (path : string) : FRESULT * FIL * FatFs :=
  let '(r, fs') := next_fault fs in
  if negb (r =? FR_OK) then (r, {| f_data := []; f_ptr := 0 |}, fs')
  else match files fs !! path with
       | Some d => (FR_OK, {| f_data := d; f_ptr := 0 |}, fs')
       | None => (FR_NO_FILE, {| f_data := []; f_ptr := 0 |}, fs')
       end.

Definition f_size (fp : FIL) : nat := length (f_data fp).
Definition f_tell (fp : FIL) : nat := f_ptr fp.

(** [f_read fs fp btr] gives the result code, the bytes read (at most
    [btr], fewer only at the end of the file) and the advanced file. *)
Definition f_read (fs : FatFs) (fp : FIL) (btr : nat)
  : FRESULT * list ascii * FIL * FatFs :=
  let '(r, fs') := next_fault fs in
  if negb (r =? FR_OK) then (r, [], fp, fs')
  else
    let got := take btr (drop (f_ptr fp) (f_data fp)) in
    (FR_OK, got,
     {| f_data := f_data fp; f_ptr := (f_ptr fp + length got)%nat |}, fs').

Definition f_lseek (fs : FatFs) (fp : FIL) (ofs : nat)
  : FRESULT * FIL * FatFs :=
  let '(r, fs') := next_fault fs in
  if negb (r =? FR_OK) then (r, fp, fs')
  else
    (FR_OK,
     {| f_data := f_data fp; f_ptr := Nat.min ofs (length (f_data fp)) |}, fs').

(** ** Flash primitives, as a trace of the calls made *)

Inductive FlashOp :=
| save_and_disable_interrupts
| flash_range_erase (offset : Z) (count : nat)
| flash_range_program (offset : Z) (data : list ascii) (count : nat)
| restore_interrupts.

(** Writing [src] at the start of a buffer: what [f_read] does to its
    destination. *)
Definition buf_store (buffer src : list ascii) : list ascii :=
  src ++ drop (length src) buffer.

(** [memset (buffer + from, c, n)]. *)
Definition memset (buffer : list ascii) (from : nat) (c : ascii) (n : nat)
  : list ascii :=
  take from buffer ++ replicate n c ++ drop (from + n) buffer.

(** Modelled from the spec: the macro CHANGE_ENDIANESS_BLOCK16 of
    memfunc.h is not part of the sources; the spec calls it "a 16-bit-word
    endianness swap over the entire chunk", that is, the two bytes of every
    16-bit word trade places. *)
Fixpoint swap16 (l : list ascii) : list ascii :=
  match l with
  | a :: b :: rest => b :: a :: swap16 rest
  | _ => l
  end.

Definition CHANGE_ENDIANESS_BLOCK16 (buffer : list ascii) (size : nat)
  : list ascii :=
  swap16 (take size buffer) ++ drop size buffer.

(** ** The C library, as far as [emul.c] uses it *)

Definition code (c : ascii) : Z := Z.of_N (N_of_ascii c).
Definition chr (z : Z) : ascii := ascii_of_N (Z.to_N (z mod 256)).

Definition NUL : ascii := "000"%char.
Definition LF : ascii := "010"%char.
Definition ESC : ascii := "027"%char.
Definition DQUOTE : ascii := "034"%char.

Definition isspace (c : ascii) : bool :=
  (code c =? 32) || ((9 <=? code c) && (code c <=? 13)).

Definition isdigit (c : ascii) : bool := (48 <=? code c) && (code c <=? 57).

Definition isxdigit (c : ascii) : bool :=
  isdigit c || ((65 <=? code c) && (code c <=? 70))
  || ((97 <=? code c) && (code c <=? 102)).

Definition isupper (c : ascii) : bool := (65 <=? code c) && (code c <=? 90).

Definition tolower (c : ascii) : ascii :=
  if isupper c then chr (code c + 32) else c.

(** The value of a hexadecimal digit, as [strtol (_, NULL, 16)] reads it. *)
Definition hex_value (c : ascii) : Z :=
  if isdigit c then code c - 48
  else if code c <=? 70 then code c - 55
  else code c - 87.

(** A C string ends at its first NUL. *)
Fixpoint c_str (s : string) : string :=
  match s with
  | EmptyString => EmptyString
  | String c s' => if Ascii.eqb c NUL then EmptyString else String c (c_str s')
  end.

(** The first [n] characters: what [strncpy (dest, src, n)] followed by
    [dest[n] = 0] leaves in [dest]. *)
Fixpoint str_take (n : nat) (s : string) : string :=
  match n, s with
  | S n', String c s' => String c (str_take n' s')
  | _, _ => EmptyString
  end.

(** What is read from offset [n] of [s] on. *)
Fixpoint str_drop (n : nat) (s : string) : string :=
  match n, s with
  | S n', String _ s' => str_drop n' s'
  | _, _ => s
  end.

(** [strncat (dest, src, n)] appends at most [n] characters of [src]:
    [n] bounds what is appended, not the array that holds [dest]. *)
Definition strncat (dest src : string) (n : nat) : string :=
  dest +:+ str_take n src.

(** [strcasecmp]: the difference of the first pair of characters that
    differ after [tolower], the end of a string counting as NUL. *)
Fixpoint strcasecmp (a b : string) : Z :=
  match a, b with
  | EmptyString, EmptyString => 0
  | EmptyString, String cb _ => 0 - code (tolower cb)
  | String ca _, EmptyString => code (tolower ca)
  | String ca a', String cb b' =>
      let d := code (tolower ca) - code (tolower cb) in
      if negb (d =? 0) then d
      else if code ca =? 0 then 0
      else strcasecmp a' b'
  end.

(** [strrchr (s, c)]: the suffix that starts at the last [c] in [s], and
    its position. *)
Fixpoint strrchr (s : string) (c : ascii) : option (nat * string) :=
  match s with
  | EmptyString => None
  | String x s' =>
      match strrchr s' c with
      | Some (i, t) => Some (S i, t)
      | None => if Ascii.eqb x c then Some (O, s) else None
      end
  end.

Fixpoint skip_while (p : ascii -> bool) (s : string) : string :=
  match s with
  | String c s' => if p c then skip_while p s' else s
  | EmptyString => EmptyString
  end.

Fixpoint digits_value (s : string) (acc : Z) : Z :=
  match s with
  | String c s' =>
      if isdigit c then digits_value s' (acc * 10 + (code c - 48)) else acc
  | EmptyString => acc
  end.

Definition INT_MAX : Z := 2 ^ 31 - 1.
Definition INT_MIN : Z := - 2 ^ 31.

(** [atoi]: leading white space, an optional sign, decimal digits; out of
    range values saturate as those of [strtol] do. *)
Definition atoi (s : string) : Z :=
  let s := skip_while isspace s in
  let v :=
    match s with
    | String "-" s' => - digits_value s' 0
    | String "+" s' => digits_value s' 0
    | _ => digits_value s 0
    end in
  Z.max INT_MIN (Z.min INT_MAX v).

(** The rendering of [%d]. *)
Definition string_of_Z (z : Z) : string := NilZero.string_of_int (Z.to_int z).

(** [qsort (base, n, size, compar)] is the C library's; the standard fixes
    that it leaves the elements ordered by [compar], and nothing about the
    order of elements that compare equal. It is modelled by insertion
    sort. *)
Fixpoint qsort_insert {A : Type} (compar : A -> A -> Z) (x : A) (l : list A)
  : list A :=
  match l with
  | [] => [x]
  | y :: l' =>
      if compar x y <=? 0 then x :: l else y :: qsort_insert compar x l'
  end.

Definition qsort {A : Type} (compar : A -> A -> Z) (l : list A) : list A :=
  foldr (qsort_insert compar) [] l.

(** ** Directories and text lines of FatFs *)

Definition f_opendir (fs : FatFs) (path : string)
  : FRESULT * list FILINFO * FatFs :=
  let '(r, fs') := next_fault fs in
  if negb (r =? FR_OK) then (r, [], fs')
  else match dirs fs !! path with
       | Some entries => (FR_OK, entries, fs')
       | None => (FR_NO_PATH, [], fs')
       end.

(** [f_gets (buff, len, fp)] stores characters up to and including a line
    feed, at most [len - 1] of them. [gets_lines len data cur room] is the
    sequence of strings that successive calls return on the contents
    [data], [cur] being the reversed part of the current line already read
    and [room] what is left of its [len - 1] characters. *)
Fixpoint gets_lines (len : nat) (data : list ascii) (cur : list ascii)
    (room : nat) : list string :=
  match data with
  | [] => match cur with
          | [] => []
          | _ => [string_of_list_ascii (rev cur)]
          end
  | c :: data' =>
      match room with
      | O =>
          (* the buffer is full: [c] is left for the next call *)
          string_of_list_ascii (rev cur)
          :: (if Ascii.eqb c LF
              then string_of_list_ascii [c] :: gets_lines len data' [] (len - 1)
              else gets_lines len data' [c] (len - 2))
      | S room' =>
          if Ascii.eqb c LF
          then string_of_list_ascii (rev (c :: cur))
               :: gets_lines len data' [] (len - 1)
          else gets_lines len data' (c :: cur) room'
      end
  end.

(** ** The data of [emul.h] *)

Definition MAX_ROMS : Z := 100.
Definition MAX_ROMS_PER_PAGE : Z := 20.
Definition MAX_FILENAME_LENGTH : nat := 36.
Definition MAX_PATH_SIZE : nat := 128.
Definition DOWNLOAD_START_MS : Z := 3 * 1000.
Definition DOWNLOAD_DAY_MS : Z := 86400 * 1000.
Definition SLEEP_LOOP_MS : Z := 100.

Record ROM := {
  filename : string;
  path : string;
  name : string;
  description : string;
  tags : string;
  size : Z
}.

Definition ROM_MODE_DIRECT : Z := 0.
Definition ROM_MODE_DELAY : Z := 1.
Definition ROM_MODE_SETUP : Z := 255.

Definition TERM_ROMS_MENU_MAIN : Z := 0.
Definition TERM_ROMS_MENU_BROWSE_SD : Z := 1.
Definition TERM_ROMS_MENU_BROWSE_NETWORK : Z := 2.
Definition TERM_ROMS_MENU_LAUNCH : Z := 3.
Definition TERM_ROMS_MENU_SETTINGS : Z := 4.
Definition TERM_ROMS_MENU_EXIT : Z := 5.
Definition TERM_ROMS_MENU_BOOSTER : Z := 6.
Definition TERM_ROMS_MENU_SUBMENU : Z := 256.

(** ** Collaborators *)

(** Modelled from the spec: the configuration store (settings.h is not
    part of the sources) is "get(key) -> optional string, put-string(key,
    value), put-integer(key, value), save(commit)". [entries] are the
    values in memory, [saved] what the last save committed. *)
Record Settings := {
  entries : gmap string string;
  saved : gmap string string
}.

Definition settings_find_entry (ctx : Settings) (key : string)
  : option string :=
  entries ctx !! key.

Definition settings_put_string (ctx : Settings) (key value : string)
  : Settings :=
  {| entries := <[key := value]> (entries ctx); saved := saved ctx |}.

Definition settings_put_integer (ctx : Settings) (key : string) (value : Z)
  : Settings :=
  settings_put_string ctx key (string_of_Z value).

Definition settings_save (ctx : Settings) : Settings :=
  {| entries := entries ctx; saved := entries ctx |}.

(** Modelled from the spec: the download engine (download.h is not part of
    the sources) is "setTargetPath(string), start() -> Result, poll(),
    status() -> enum, setStatus(enum), finish(), confirm()", its status one
    of "Idle, Requested, NotStarted, InProgress, Completed". *)
Inductive download_status_t :=
| DOWNLOAD_STATUS_IDLE
| DOWNLOAD_STATUS_REQUESTED
| DOWNLOAD_STATUS_NOT_STARTED
| DOWNLOAD_STATUS_IN_PROGRESS
| DOWNLOAD_STATUS_COMPLETED.

Inductive download_call :=
| call_start
| call_poll
| call_finish
| call_confirm.

Definition DOWNLOAD_OK : Z := 0.

(** The engine: its status, the target it was given, the URL components
    it was configured with, and the operations invoked on it so far. *)
Record Engine := {
  dl_status : download_status_t;
  dl_filepath : string;
  dl_protocol : string;
  dl_host : string;
  dl_calls : list download_call
}.

Definition download_getStatus (e : Engine) : download_status_t := dl_status e.

Definition download_setStatus (e : Engine) (st : download_status_t) : Engine :=
  {| dl_status := st; dl_filepath := dl_filepath e;
     dl_protocol := dl_protocol e; dl_host := dl_host e;
     dl_calls := dl_calls e |}.

Definition download_setFilepath (e : Engine) (url : string) : Engine :=
  {| dl_status := dl_status e; dl_filepath := url;
     dl_protocol := dl_protocol e; dl_host := dl_host e;
     dl_calls := dl_calls e |}.

(** An operation of the engine: it is recorded, and leaves the engine in
    the status [st]. *)
Definition download_invoke (e : Engine) (c : download_call)
    (st : download_status_t) : Engine :=
  {| dl_status := st; dl_filepath := dl_filepath e;
     dl_protocol := dl_protocol e; dl_host := dl_host e;
     dl_calls := dl_calls e ++ [c] |}.

Inductive display_command :=
| DISPLAY_COMMAND_CONTINUE
| DISPLAY_COMMAND_RESET.

(** An argument of a [DPRINTF]. *)
Inductive dprintf_arg :=
| arg_s (s : string)
| arg_d (z : Z).

(** Calls into the SDK and the board support code that leave no trace in
    the statics of [emul.c], in the order made. *)
Inductive platform_call :=
| select_configure
| select_setLongResetCallback
| select_waitPush
| sleep_ms (ms : Z)
| COPY_FIRMWARE_TO_RAM (flashAddress : Z) (len : Z)
| init_romemul
| call_blink_on
| reset_device
| reset_jump_to_booster.

(** Modelled from the spec: the configuration store is persistent
    ("save(commit)"); after a reset the values in memory are the ones that
    the last save committed. *)
Definition settings_reload (ctx : Settings) : Settings :=
  {| entries := saved ctx; saved := saved ctx |}.

(** ** The state of [emul.c] and of what it drives *)

Record Emul := {
  (* statics of emul.c *)
  roms : list ROM;
  romsCount : Z;
  romsFolder : string;
  currentRomPage : Z;
  maxRomPages : Z;
  downloadRomSelected : Z;
  menuLevel : Z;
  keepActive : bool;
  resetDeviceAtBoot : bool;
  hasNetwork : bool;
  delayMode : bool;
  (* collaborators *)
  fatfs : FatFs;
  flash : list FlashOp;
  aconfig : Settings;
  term : list string;
  debug : list (string * list dprintf_arg);
  engine : Engine;
  display : list display_command;
  current_ip : Z
}.

(** Field updates. *)
Definition set_roms (v : list ROM) (s : Emul) : Emul :=
  {| roms := v; romsCount := romsCount s; romsFolder := romsFolder s;
     currentRomPage := currentRomPage s; maxRomPages := maxRomPages s;
     downloadRomSelected := downloadRomSelected s; menuLevel := menuLevel
     s; keepActive := keepActive s; resetDeviceAtBoot := resetDeviceAtBoot
     s; hasNetwork := hasNetwork s; delayMode := delayMode s; fatfs :=
     fatfs s; flash := flash s; aconfig := aconfig s; term := term s;
     debug := debug s; engine := engine s; display := display s;
     current_ip := current_ip s |}.

Definition set_romsCount (v : Z) (s : Emul) : Emul :=
  {| roms := roms s; romsCount := v; romsFolder := romsFolder s;
     currentRomPage := currentRomPage s; maxRomPages := maxRomPages s;
     downloadRomSelected := downloadRomSelected s; menuLevel := menuLevel
     s; keepActive := keepActive s; resetDeviceAtBoot := resetDeviceAtBoot
     s; hasNetwork := hasNetwork s; delayMode := delayMode s; fatfs :=
     fatfs s; flash := flash s; aconfig := aconfig s; term := term s;
     debug := debug s; engine := engine s; display := display s;
     current_ip := current_ip s |}.

Definition set_romsFolder (v : string) (s : Emul) : Emul :=
  {| roms := roms s; romsCount := romsCount s; romsFolder := v;
     currentRomPage := currentRomPage s; maxRomPages := maxRomPages s;
     downloadRomSelected := downloadRomSelected s; menuLevel := menuLevel
     s; keepActive := keepActive s; resetDeviceAtBoot := resetDeviceAtBoot
     s; hasNetwork := hasNetwork s; delayMode := delayMode s; fatfs :=
     fatfs s; flash := flash s; aconfig := aconfig s; term := term s;
     debug := debug s; engine := engine s; display := display s;
     current_ip := current_ip s |}.

Definition set_currentRomPage (v : Z) (s : Emul) : Emul :=
  {| roms := roms s; romsCount := romsCount s; romsFolder := romsFolder s;
     currentRomPage := v; maxRomPages := maxRomPages s;
     downloadRomSelected := downloadRomSelected s; menuLevel := menuLevel
     s; keepActive := keepActive s; resetDeviceAtBoot := resetDeviceAtBoot
     s; hasNetwork := hasNetwork s; delayMode := delayMode s; fatfs :=
     fatfs s; flash := flash s; aconfig := aconfig s; term := term s;
     debug := debug s; engine := engine s; display := display s;
     current_ip := current_ip s |}.

Definition set_maxRomPages (v : Z) (s : Emul) : Emul :=
  {| roms := roms s; romsCount := romsCount s; romsFolder := romsFolder s;
     currentRomPage := currentRomPage s; maxRomPages := v;
     downloadRomSelected := downloadRomSelected s; menuLevel := menuLevel
     s; keepActive := keepActive s; resetDeviceAtBoot := resetDeviceAtBoot
     s; hasNetwork := hasNetwork s; delayMode := delayMode s; fatfs :=
     fatfs s; flash := flash s; aconfig := aconfig s; term := term s;
     debug := debug s; engine := engine s; display := display s;
     current_ip := current_ip s |}.

Definition set_downloadRomSelected (v : Z) (s : Emul) : Emul :=
  {| roms := roms s; romsCount := romsCount s; romsFolder := romsFolder s;
     currentRomPage := currentRomPage s; maxRomPages := maxRomPages s;
     downloadRomSelected := v; menuLevel := menuLevel s; keepActive :=
     keepActive s; resetDeviceAtBoot := resetDeviceAtBoot s; hasNetwork :=
     hasNetwork s; delayMode := delayMode s; fatfs := fatfs s; flash :=
     flash s; aconfig := aconfig s; term := term s; debug := debug s;
     engine := engine s; display := display s; current_ip := current_ip s
     |}.

Definition set_menuLevel (v : Z) (s : Emul) : Emul :=
  {| roms := roms s; romsCount := romsCount s; romsFolder := romsFolder s;
     currentRomPage := currentRomPage s; maxRomPages := maxRomPages s;
     downloadRomSelected := downloadRomSelected s; menuLevel := v;
     keepActive := keepActive s; resetDeviceAtBoot := resetDeviceAtBoot s;
     hasNetwork := hasNetwork s; delayMode := delayMode s; fatfs := fatfs
     s; flash := flash s; aconfig := aconfig s; term := term s; debug :=
     debug s; engine := engine s; display := display s; current_ip :=
     current_ip s |}.

Definition set_keepActive (v : bool) (s : Emul) : Emul :=
  {| roms := roms s; romsCount := romsCount s; romsFolder := romsFolder s;
     currentRomPage := currentRomPage s; maxRomPages := maxRomPages s;
     downloadRomSelected := downloadRomSelected s; menuLevel := menuLevel
     s; keepActive := v; resetDeviceAtBoot := resetDeviceAtBoot s;
     hasNetwork := hasNetwork s; delayMode := delayMode s; fatfs := fatfs
     s; flash := flash s; aconfig := aconfig s; term := term s; debug :=
     debug s; engine := engine s; display := display s; current_ip :=
     current_ip s |}.

Definition set_resetDeviceAtBoot (v : bool) (s : Emul) : Emul :=
  {| roms := roms s; romsCount := romsCount s; romsFolder := romsFolder s;
     currentRomPage := currentRomPage s; maxRomPages := maxRomPages s;
     downloadRomSelected := downloadRomSelected s; menuLevel := menuLevel
     s; keepActive := keepActive s; resetDeviceAtBoot := v; hasNetwork :=
     hasNetwork s; delayMode := delayMode s; fatfs := fatfs s; flash :=
     flash s; aconfig := aconfig s; term := term s; debug := debug s;
     engine := engine s; display := display s; current_ip := current_ip s
     |}.

Definition set_hasNetwork (v : bool) (s : Emul) : Emul :=
  {| roms := roms s; romsCount := romsCount s; romsFolder := romsFolder s;
     currentRomPage := currentRomPage s; maxRomPages := maxRomPages s;
     downloadRomSelected := downloadRomSelected s; menuLevel := menuLevel
     s; keepActive := keepActive s; resetDeviceAtBoot := resetDeviceAtBoot
     s; hasNetwork := v; delayMode := delayMode s; fatfs := fatfs s; flash
     := flash s; aconfig := aconfig s; term := term s; debug := debug s;
     engine := engine s; display := display s; current_ip := current_ip s
     |}.

Definition set_delayMode (v : bool) (s : Emul) : Emul :=
  {| roms := roms s; romsCount := romsCount s; romsFolder := romsFolder s;
     currentRomPage := currentRomPage s; maxRomPages := maxRomPages s;
     downloadRomSelected := downloadRomSelected s; menuLevel := menuLevel
     s; keepActive := keepActive s; resetDeviceAtBoot := resetDeviceAtBoot
     s; hasNetwork := hasNetwork s; delayMode := v; fatfs := fatfs s;
     flash := flash s; aconfig := aconfig s; term := term s; debug :=
     debug s; engine := engine s; display := display s; current_ip :=
     current_ip s |}.

Definition set_fatfs (v : FatFs) (s : Emul) : Emul :=
  {| roms := roms s; romsCount := romsCount s; romsFolder := romsFolder s;
     currentRomPage := currentRomPage s; maxRomPages := maxRomPages s;
     downloadRomSelected := downloadRomSelected s; menuLevel := menuLevel
     s; keepActive := keepActive s; resetDeviceAtBoot := resetDeviceAtBoot
     s; hasNetwork := hasNetwork s; delayMode := delayMode s; fatfs := v;
     flash := flash s; aconfig := aconfig s; term := term s; debug :=
     debug s; engine := engine s; display := display s; current_ip :=
     current_ip s |}.

Definition set_flash (v : list FlashOp) (s : Emul) : Emul :=
  {| roms := roms s; romsCount := romsCount s; romsFolder := romsFolder s;
     currentRomPage := currentRomPage s; maxRomPages := maxRomPages s;
     downloadRomSelected := downloadRomSelected s; menuLevel := menuLevel
     s; keepActive := keepActive s; resetDeviceAtBoot := resetDeviceAtBoot
     s; hasNetwork := hasNetwork s; delayMode := delayMode s; fatfs :=
     fatfs s; flash := v; aconfig := aconfig s; term := term s; debug :=
     debug s; engine := engine s; display := display s; current_ip :=
     current_ip s |}.

Definition set_aconfig (v : Settings) (s : Emul) : Emul :=
  {| roms := roms s; romsCount := romsCount s; romsFolder := romsFolder s;
     currentRomPage := currentRomPage s; maxRomPages := maxRomPages s;
     downloadRomSelected := downloadRomSelected s; menuLevel := menuLevel
     s; keepActive := keepActive s; resetDeviceAtBoot := resetDeviceAtBoot
     s; hasNetwork := hasNetwork s; delayMode := delayMode s; fatfs :=
     fatfs s; flash := flash s; aconfig := v; term := term s; debug :=
     debug s; engine := engine s; display := display s; current_ip :=
     current_ip s |}.

Definition set_term (v : list string) (s : Emul) : Emul :=
  {| roms := roms s; romsCount := romsCount s; romsFolder := romsFolder s;
     currentRomPage := currentRomPage s; maxRomPages := maxRomPages s;
     downloadRomSelected := downloadRomSelected s; menuLevel := menuLevel
     s; keepActive := keepActive s; resetDeviceAtBoot := resetDeviceAtBoot
     s; hasNetwork := hasNetwork s; delayMode := delayMode s; fatfs :=
     fatfs s; flash := flash s; aconfig := aconfig s; term := v; debug :=
     debug s; engine := engine s; display := display s; current_ip :=
     current_ip s |}.

Definition set_debug (v : list (string * list dprintf_arg)) (s : Emul) : Emul :=
  {| roms := roms s; romsCount := romsCount s; romsFolder := romsFolder s;
     currentRomPage := currentRomPage s; maxRomPages := maxRomPages s;
     downloadRomSelected := downloadRomSelected s; menuLevel := menuLevel
     s; keepActive := keepActive s; resetDeviceAtBoot := resetDeviceAtBoot
     s; hasNetwork := hasNetwork s; delayMode := delayMode s; fatfs :=
     fatfs s; flash := flash s; aconfig := aconfig s; term := term s;
     debug := v; engine := engine s; display := display s; current_ip :=
     current_ip s |}.

Definition set_engine (v : Engine) (s : Emul) : Emul :=
  {| roms := roms s; romsCount := romsCount s; romsFolder := romsFolder s;
     currentRomPage := currentRomPage s; maxRomPages := maxRomPages s;
     downloadRomSelected := downloadRomSelected s; menuLevel := menuLevel
     s; keepActive := keepActive s; resetDeviceAtBoot := resetDeviceAtBoot
     s; hasNetwork := hasNetwork s; delayMode := delayMode s; fatfs :=
     fatfs s; flash := flash s; aconfig := aconfig s; term := term s;
     debug := debug s; engine := v; display := display s; current_ip :=
     current_ip s |}.

Definition set_display (v : list display_command) (s : Emul) : Emul :=
  {| roms := roms s; romsCount := romsCount s; romsFolder := romsFolder s;
     currentRomPage := currentRomPage s; maxRomPages := maxRomPages s;
     downloadRomSelected := downloadRomSelected s; menuLevel := menuLevel
     s; keepActive := keepActive s; resetDeviceAtBoot := resetDeviceAtBoot
     s; hasNetwork := hasNetwork s; delayMode := delayMode s; fatfs :=
     fatfs s; flash := flash s; aconfig := aconfig s; term := term s;
     debug := debug s; engine := engine s; display := v; current_ip :=
     current_ip s |}.

(** ** An RP2040 board, a card and a catalog to run the model on *)

Definition RP_XIP_BASE : Z := 268435456.
Definition RP_ROM_TEMP_START : Z := 269484032.

Definition empty_rom : ROM :=
  {| filename := ""; path := ""; name := ""; description := ""; tags := "";
     size := 0 |}.

Definition rp_stray_rom (i : Z) : ROM :=
  {| filename := "?"; path := "?"; name := "?"; description := "?";
     tags := "?"; size := i |}.

Definition rp_null_entry_value : string := "?".

Definition rp_start_outcome (e : Engine) : Z * download_status_t :=
  (DOWNLOAD_OK, DOWNLOAD_STATUS_IN_PROGRESS).

Definition rp_keep_status (e : Engine) : download_status_t := dl_status e.

Definition rp_term_cmd (symbol arg : string) (x : Settings * list string)
  : Settings * list string := x.

Definition quoted (str : string) : string :=
  String DQUOTE str +:+ String DQUOTE "".

Definition csv_header : string :=
  quoted "URL" +:+ "," +:+ quoted "Name" +:+ "," +:+ quoted "Description"
  +:+ "," +:+ quoted "Tags" +:+ "," +:+ quoted "Size (KB)" +:+ String LF "".

Definition csv_row (url title about labels kb : string) : string :=
  quoted url +:+ "," +:+ quoted title +:+ "," +:+ quoted about +:+ ","
  +:+ quoted labels +:+ "," +:+ quoted kb +:+ String LF "".

(** A catalog document of two rows, the second with percent-encoded
    text. *)
Definition csv_two_rows : string :=
  csv_header
  +:+ csv_row "zeta.rom" "Zeta" "A tool" "tools" "64"
  +:+ csv_row "%41%42.rom" "%41%42" "A%20game" "games" "128".

Definition rom_payload : list ascii := replicate 4096 "a"%char.

Definition card_files : gmap string (list ascii) :=
  <["/roms/short.rom" := list_ascii_of_string "abcdef"]>
    (<["/roms/bare.rom" := rom_payload]>
       (<["/roms/headed.rom" := [zero; zero; zero; zero] ++ rom_payload]>
          (<["/roms/roms.csv" := list_ascii_of_string csv_two_rows]> ∅))).

Definition roms_dir : list FILINFO :=
  [ {| fname := "."; fattrib := 16 |};
    {| fname := "short.rom"; fattrib := 32 |};
    {| fname := "notes.txt"; fattrib := 32 |};
    {| fname := "Bare.ROM"; fattrib := 32 |};
    {| fname := "headed.rom"; fattrib := 32 |} ].

Definition card_dirs : gmap string (list FILINFO) :=
  <["/roms" := roms_dir]> ∅.

Definition card : FatFs :=
  {| files := card_files; dirs := card_dirs; faults := [] |}.

(** The same card with a catalog document that has a header line only. *)
Definition card_empty_catalog : FatFs :=
  {| files :=
       <["/roms/roms.csv" := list_ascii_of_string csv_header]> card_files;
     dirs := card_dirs; faults := [] |}.

(** The same card when the next access to the medium fails. *)
Definition card_failing : FatFs :=
  {| files := card_files; dirs := card_dirs; faults := [1] |}.

(** A card whose folder holds no file that the scan accepts. *)
Definition card_without_roms : FatFs :=
  {| files := card_files;
     dirs := <["/roms" := [ {| fname := "."; fattrib := 16 |};
                            {| fname := "notes.txt"; fattrib := 32 |};
                            {| fname := ".hidden.rom"; fattrib := 32 |} ]]> ∅;
     faults := [] |}.

(** A catalog document of 21 rows, and a card that holds it in a folder
    in which the scan accepts no file. *)
Definition csv_21_rows : string :=
  csv_header
  +:+ String.concat ""
        (map (fun i => csv_row ("rom" +:+ string_of_Z i +:+ ".rom")
                         ("Rom " +:+ string_of_Z i) "A game" "games" "64")
           (seqZ 1 21)).

Definition card_remote_only : FatFs :=
  {| files :=
       <["/roms/roms.csv" := list_ascii_of_string csv_21_rows]> card_files;
     dirs := dirs card_without_roms; faults := [] |}.

(** The same card when the third access to the medium fails. *)
Definition card_failing_later : FatFs :=
  {| files := card_files; dirs := card_dirs; faults := [0; 0; 1] |}.

(** The statics of [emul.c] as initialised, over a volume and settings. *)
Definition boot (fs : FatFs) (selected : string) : Emul :=
  let config : gmap string string :=
    <["ROM_SELECTED" := selected]>
      (<["ROMS_FOLDER" := "/roms"]> (<["ROM_MODE" := "255"]> ∅)) in
  {| roms := replicate 100 empty_rom;
     romsCount := 0;
     romsFolder := "/roms";
     currentRomPage := 0;
     maxRomPages := 0;
     downloadRomSelected := -1;
     menuLevel := 0;
     keepActive := true;
     resetDeviceAtBoot := true;
     hasNetwork := false;
     delayMode := false;
     fatfs := fs;
     flash := [];
     aconfig := {| entries := config; saved := config |};
     term := [];
     debug := [];
     engine := {| dl_status := DOWNLOAD_STATUS_IDLE; dl_filepath := "";
                  dl_protocol := "http"; dl_host := "roms.example.org";
                  dl_calls := [] |};
     display := [];
     current_ip := 0 |}.

Section Emulator.

(** Platform constants of the SDK (hardware/flash.h, addressmap.h). *)
Variable FLASH_SECTOR_SIZE : nat.

Variable FLASH_PAGE_SIZE : nat.

Variable XIP_BASE : Z.

(** The fill byte of the padding: [memset] converts its [int] argument
    [FLASH_PAGE_SIZE] to [unsigned char]. *)
Definition fill_byte : ascii := ascii_of_nat (FLASH_PAGE_SIZE mod 256).

(** Lines 146-153: the program size of a chunk of [bytesRead] bytes. *)
Definition paddedSize (programSize : nat) : nat :=
  ((programSize + FLASH_PAGE_SIZE - 1) / FLASH_PAGE_SIZE * FLASH_PAGE_SIZE)%nat.

Definition programSize_of (bytesRead : nat) : nat :=
  if negb (bytesRead mod FLASH_PAGE_SIZE =? 0)%nat then paddedSize bytesRead
  else bytesRead.

Definition pad_buffer (buffer : list ascii) (bytesRead : nat) : list ascii :=
  if negb (bytesRead mod FLASH_PAGE_SIZE =? 0)%nat
  then memset buffer bytesRead fill_byte (paddedSize bytesRead - bytesRead)
  else buffer.

(** Lines 145-163: what one iteration does with the chunk it has read
    into [buffer]. *)
Definition program_chunk (buffer : list ascii) (bytesRead : nat) (offset : Z)
  : list ascii * list FlashOp :=
  let programSize := programSize_of bytesRead in
  let buffer := pad_buffer buffer bytesRead in
  let buffer := CHANGE_ENDIANESS_BLOCK16 buffer programSize in
  (buffer,
   [ save_and_disable_interrupts;
     flash_range_erase offset programSize;
     flash_range_program offset (take programSize buffer) programSize;
     restore_interrupts ]).

(** Lines 133-167: the [while (1)] loop. [fuel] bounds the number of
    iterations; [None] is "fuel exhausted". The result carries the
    locals [buffer] and [offset] as the loop leaves them. *)
Fixpoint storeLoop (fuel : nat) (fs : FatFs) (file : FIL)
    (buffer : list ascii) (offset : Z)
  : option (FRESULT * FatFs * list ascii * Z * list FlashOp) :=
  match fuel with
  | O => None
  | S fuel' =>
      let '(res, got, file, fs) := f_read fs file FLASH_SECTOR_SIZE in
      let buffer := if res =? FR_OK then buf_store buffer got else buffer in
      let bytesRead := length got in
      if negb (res =? FR_OK) then Some (res, fs, buffer, offset, [])
      else if (bytesRead =? 0)%nat then Some (FR_OK, fs, buffer, offset, [])
      else
        let '(buffer, ops) := program_chunk buffer bytesRead offset in
        let offset := wrap32 (offset + Z.of_nat bytesRead) in
        match storeLoop fuel' fs file buffer offset with
        | Some (res, fs, buffer, offset, ops') =>
            Some (res, fs, buffer, offset, ops ++ ops')
        | None => None
        end
  end.

Definition is_zero_header (buffer : list ascii) : bool :=
  match buffer with
  | b0 :: b1 :: b2 :: b3 :: _ =>
      Ascii.eqb b0 zero && Ascii.eqb b1 zero && Ascii.eqb b2 zero
      && Ascii.eqb b3 zero
  | _ => false
  end.

(** Lines 102-127: the optional 4-byte header. [inl res] is an early
    return. *)
Definition skip_header (fs : FatFs) (file : FIL) (buffer : list ascii)
  : (FRESULT * FatFs) + (FatFs * FIL * list ascii) :=
  let size := f_size file in
  if ((4 <? size) && ((size - 4) mod FLASH_SECTOR_SIZE =? 0))%nat then
    let '(res, got, file, fs) := f_read fs file 4 in
    let buffer := if res =? FR_OK then buf_store buffer got else buffer in
    if negb (res =? FR_OK) || negb (length got =? 4)%nat then inl (res, fs)
    else if is_zero_header buffer then inr (fs, file, buffer)
    else
      let '(res, file, fs) := f_lseek fs file (f_tell file - 4) in
      if negb (res =? FR_OK) then inl (res, fs)
      else inr (fs, file, buffer)
  else inr (fs, file, buffer).

(** [storeFileToFlash filename flashAddress], run on the volume [fs] with
    the stack buffer holding [buffer] on entry. The result is the return
    code and the flash calls made, in order. The loop gets one unit of
    fuel more than the file has bytes. *)
Definition storeFileToFlash (fs : FatFs) (filename : string)
    (flashAddress : Z) (buffer : list ascii)
  : option (FRESULT * FatFs * list FlashOp) :=
  let '(res, file, fs) := f_open fs filename in
  if negb (res =? FR_OK) then Some (res, fs, [])
  else
    match skip_header fs file buffer with
    | inl (res, fs) => Some (res, fs, [])
    | inr (fs, file, buffer) =>
        let offset := wrap32 (flashAddress - XIP_BASE) in
        match storeLoop (S (f_size file)) fs file buffer offset with
        | Some (res, fs, _, _, ops) => Some (res, fs, ops)
        | None => None
        end
    end.

(** *** Further parameters: macros and collaborators outside [emul.c] *)

Variable ACONFIG_PARAM_ROM_SELECTED : string.

Variable ACONFIG_PARAM_ROMS_FOLDER : string.

Variable ACONFIG_PARAM_ROM_MODE : string.

Variable RELEASE_VERSION : string.

Variable TERM_SCREEN_SIZE_X : nat.
(** The address of the linker symbol [_rom_temp_start]. *)

Variable _rom_temp_start : Z.
(** What the stack holds where [storeFileToFlash] has its buffer. *)

Variable stack_garbage : list ascii.
(** What an access to [roms[i]] outside the array reads. *)

Variable stray_rom : Z -> ROM.
(** What [settings_find_entry (...)->value] reads where the entry is
    missing and the pointer is NULL. *)

Variable null_entry_value : string.
(** The download engine: the error code of [download_start], and the
    status in which each operation leaves the engine. *)

Variable download_start_outcome : Engine -> Z * download_status_t.

Variable download_poll_outcome : Engine -> download_status_t.

Variable download_finish_outcome : Engine -> download_status_t.

Variable download_confirm_outcome : Engine -> download_status_t.
(** The handlers of term.c ([term_cmdSettings], [term_cmdPrint], ...),
    by name: they act on the settings and the terminal. *)

Variable term_cmd :
  string -> string -> Settings * list string -> Settings * list string.

Definition nl : string := String LF EmptyString.

Definition term_printString (str : string) (s : Emul) : Emul :=
  set_term (term s ++ [str]) s.

(** [term_printString] on each of [strs] in turn. *)
Definition term_printStrings (strs : list string) (s : Emul) : Emul :=
  set_term (term s ++ strs) s.

Definition DPRINTF (fmt : string) (args : list dprintf_arg) (s : Emul) : Emul :=
  set_debug (debug s ++ [(fmt, args)]) s.

(** [roms[i]]. *)
Definition rom_at (s : Emul) (i : Z) : ROM :=
  if (0 <=? i) && (i <? MAX_ROMS) then
    match roms s !! Z.to_nat i with
    | Some r => r
    | None => stray_rom i
    end
  else stray_rom i.

(** *** Lines 181-204 *)

Definition hasValidExtension (filename : string) : bool :=
  match strrchr filename "." with
  | None => false
  | Some (O, _) => false
  | Some (_, EmptyString) => false
  | Some (_, String _ dot) =>
      (strcasecmp dot "img" =? 0) || (strcasecmp dot "rom" =? 0)
      || (strcasecmp dot "stc" =? 0) || (strcasecmp dot "bin" =? 0)
  end.

Definition compareRoms (romA romB : ROM) : Z :=
  strcasecmp (filename romA) (filename romB).

(** [qsort (roms, n, sizeof (ROM), compareRoms)] on the array. *)
Definition qsort_roms (n : Z) (arr : list ROM) : list ROM :=
  qsort compareRoms (take (Z.to_nat n) arr) ++ drop (Z.to_nat n) arr.

(** *** Lines 210-226 *)

(** [size_t] is an unsigned type of 32 bits on the RP2040. *)
Definition SIZE_MAX : Z := 2 ^ 32 - 1.

(** The loop of [urlDecode]; [room] is [destSize - 1 - idx]. *)
Fixpoint urlDecode_chars (src : string) (room : Z) : string :=
  match src with
  | EmptyString => EmptyString
  | String c rest =>
      if room <=? 0 then EmptyString
      else
        let literal := String c (urlDecode_chars rest (room - 1)) in
        if Ascii.eqb c "%" then
          match rest with
          | String h1 (String h2 rest2) =>
              if isxdigit h1 && isxdigit h2
              then String (chr (hex_value h1 * 16 + hex_value h2))
                     (urlDecode_chars rest2 (room - 1))
              else literal
          | _ => literal
          end
        else literal
  end.

(** [urlDecode (src, dest, destSize)]: the C string left in [dest]. The
    bound [destSize - 1] of the loop is computed in [size_t]: with a
    [destSize] of 0 it is [SIZE_MAX]. *)
Definition urlDecode (src : string) (destSize : nat) : string :=
  c_str (urlDecode_chars src (wrap32 (Z.of_nat destSize - 1))).

(** *** Lines 228-290 *)

(** [ROM] (emul.h, lines 40-48) holds the arrays [filename], [path],
    [name], [description] and [tags] in this order, one after the other. The
    three [strncat] calls leave [folder], a slash and the file name, each
    cut to [MAX_PATH_SIZE - 1] characters, from the start of [path] on: up
    to [2 * MAX_PATH_SIZE - 1] characters and a NUL. What does not fit the
    [MAX_PATH_SIZE] bytes of [path] lies in [name], which was written
    before, and what does not fit [name] either lies in [description]; the
    text read at [path] is the whole path, the text read at [name] and at
    [description] is what the path left there. *)
Definition sd_entry (folder : string) (fno : FILINFO) (old : ROM) : ROM :=
  let fullPath :=
    strncat (strncat (strncat "" folder (MAX_PATH_SIZE - 1))
               "/" (MAX_PATH_SIZE - 1))
      (fname fno) (MAX_PATH_SIZE - 1) in
  {| filename := str_take (MAX_FILENAME_LENGTH - 1) (fname fno);
     path := fullPath;
     name :=
       if (String.length fullPath <? MAX_PATH_SIZE)%nat
       then str_take (MAX_FILENAME_LENGTH - 1) (fname fno)
       else str_drop MAX_PATH_SIZE fullPath;
     description :=
       if (String.length fullPath <? MAX_PATH_SIZE + MAX_FILENAME_LENGTH)%nat
       then description old
       else str_drop (MAX_PATH_SIZE + MAX_FILENAME_LENGTH) fullPath;
     tags := tags old;
     size := size old |}.

Definition starts_with (c : ascii) (str : string) : bool :=
  match str with
  | String x _ => Ascii.eqb x c
  | EmptyString => false
  end.

Definition is_empty (str : string) : bool :=
  match str with
  | EmptyString => true
  | String c _ => Ascii.eqb c NUL
  end.

(** The [for (;;)] loop over the directory [dir]. Each round starts with
    [f_readdir], which takes the next scheduled result and hands out the
    next entry, or an entry with an empty name at the end. *)
Fixpoint scan_dir (folder : string) (dir : list FILINFO) (s : Emul) : Emul :=
  let '(res, fs) := next_fault (fatfs s) in
  let s := set_fatfs fs s in
  match dir with
  | [] => s
  | fno :: dir' =>
      let fno := {| fname := c_str (fname fno); fattrib := fattrib fno |} in
      if negb (res =? FR_OK) || is_empty (fname fno) then s
      else if negb (Z.land (fattrib fno) AM_DIR =? 0) then
        scan_dir folder dir' s
      else if starts_with "." (fname fno) then scan_dir folder dir' s
      else if negb (hasValidExtension (fname fno)) then
        scan_dir folder dir' s
      else if romsCount s <? MAX_ROMS then
        let i := Z.to_nat (romsCount s) in
        let s := set_roms (<[i := sd_entry folder fno (rom_at s (romsCount s))]>
                             (roms s)) s in
        scan_dir folder dir' (set_romsCount (romsCount s + 1) s)
      else
        DPRINTF ("Maximum ROM count reached (%d)" +:+ nl) [arg_d MAX_ROMS] s
  end.

Definition readRomsSdcard (folder : string) (s : Emul) : Emul :=
  let '(res, dir, fs) := f_opendir (fatfs s) folder in
  let s := set_fatfs fs s in
  if negb (res =? FR_OK) then
    DPRINTF ("Error opening directory %s: %d" +:+ nl)
      [arg_s folder; arg_d res] s
  else
    let s := set_romsCount 0 s in
    let s := scan_dir folder dir s in
    let s := set_roms (qsort_roms (romsCount s) (roms s)) s in
    let s := DPRINTF ("Found %d ROMs on the SD card." +:+ nl)
               [arg_d (romsCount s)] s in
    set_maxRomPages
      ((romsCount s + MAX_ROMS_PER_PAGE - 1) `quot` MAX_ROMS_PER_PAGE) s.

(** *** Lines 292-419 *)

Fixpoint copy_field (room : nat) (ptr : string) : string * string :=
  match room, ptr with
  | S room', String c ptr' =>
      if Ascii.eqb c DQUOTE then (EmptyString, ptr)
      else let '(dest, rest) := copy_field room' ptr' in (String c dest, rest)
  | _, _ => (EmptyString, ptr)
  end.

(** The macro EXTRACT_FIELD on a destination of [sizeof_dest] bytes:
    the field and the advanced [ptr]; [None] is [goto next_line]. *)
Definition EXTRACT_FIELD (sizeof_dest : nat) (ptr : string)
  : option (string * string) :=
  let ptr := skip_while isspace ptr in
  if negb (starts_with DQUOTE ptr) then None
  else
    let ptr := match ptr with String _ p => p | EmptyString => ptr end in
    let '(dest, ptr) := copy_field (sizeof_dest - 1) ptr in
    let ptr := if starts_with DQUOTE ptr
               then match ptr with String _ p => p | EmptyString => ptr end
               else ptr in
    let ptr := skip_while (fun c => Ascii.eqb c "," || isspace c) ptr in
    Some (dest, ptr).

Definition extract_fields (line : string)
  : option (string * string * string * string * string) :=
  match EXTRACT_FIELD (MAX_PATH_SIZE * 2) line with
  | None => None
  | Some (field1, ptr) =>
  match EXTRACT_FIELD (MAX_PATH_SIZE * 2) ptr with
  | None => None
  | Some (field2, ptr) =>
  match EXTRACT_FIELD MAX_PATH_SIZE ptr with
  | None => None
  | Some (field3, ptr) =>
  match EXTRACT_FIELD (MAX_PATH_SIZE * 2) ptr with
  | None => None
  | Some (field4, ptr) =>
  match EXTRACT_FIELD (MAX_PATH_SIZE / 4) ptr with
  | None => None
  | Some (field5, _) => Some (field1, field2, field3, field4, field5)
  end end end end end.

(** Lines 376-382: the full path, the ROMs folder, a slash and the
    decoded URL, each cut to [MAX_PATH_SIZE - 1] characters. The folder is
    read through the pointer that [settings_find_entry] returns, also when
    that pointer is NULL. *)
Definition csv_path (ctx : Settings) (field1 : string) : string :=
  let decodedField1 := urlDecode field1 (MAX_PATH_SIZE * 2) in
  let romsFolder :=
    match settings_find_entry ctx ACONFIG_PARAM_ROMS_FOLDER with
    | Some value => value
    | None => null_entry_value
    end in
  strncat (strncat (strncat "" romsFolder (MAX_PATH_SIZE - 1))
             "/" (MAX_PATH_SIZE - 1))
    decodedField1 (MAX_PATH_SIZE - 1).

(** Lines 356-398: the entry built from the five fields. A full path of
    [MAX_PATH_SIZE] characters or more runs on from [path] into [name] and
    [description]; these are written after it, each over its whole array,
    so that the text read at [path] is the first [MAX_PATH_SIZE] characters
    of the full path followed by the name. *)
Definition csv_entry (ctx : Settings)
    (fields : string * string * string * string * string) : ROM :=
  let '(field1, field2, field3, field4, field5) := fields in
  let decodedField2 := urlDecode field2 (MAX_PATH_SIZE * 2) in
  let decodedField3 := urlDecode field3 MAX_PATH_SIZE in
  let decodedField4 := urlDecode field4 (MAX_PATH_SIZE * 2) in
  let sizeKb := atoi field5 in
  let fullPath := csv_path ctx field1 in
  let friendlyName := str_take (MAX_FILENAME_LENGTH - 1) decodedField2 in
  {| filename := str_take (MAX_FILENAME_LENGTH - 1) field1;
     path :=
       if (String.length fullPath <? MAX_PATH_SIZE)%nat then fullPath
       else str_take MAX_PATH_SIZE fullPath +:+ friendlyName;
     name := friendlyName;
     description := str_take (MAX_PATH_SIZE - 1) decodedField3;
     tags := str_take (MAX_FILENAME_LENGTH - 1) decodedField4;
     size := sizeKb |}.

(** The [while (f_gets (...) != NULL)] loop over the lines that are left.
    Each round starts with [f_gets], which takes the next scheduled result
    and hands out the next line, or NULL at the end or on an error. *)
Fixpoint csv_lines (lines : list string) (lineNum : Z) (s : Emul) : Emul :=
  let '(res, fs) := next_fault (fatfs s) in
  let s := set_fatfs fs s in
  match lines with
  | [] => s
  | line :: lines' =>
      if negb (res =? FR_OK) then s
      else
        let line := c_str line in
        let lineNum := lineNum + 1 in
        if is_empty line || starts_with LF line then csv_lines lines' lineNum s
        else
          match extract_fields line with
          | None =>
              csv_lines lines' lineNum
                (DPRINTF ("Line %d: expected '" +:+ String DQUOTE "'" +:+ nl)
                   [arg_d lineNum] s)
          | Some fields =>
              if romsCount s <? MAX_ROMS then
                let i := Z.to_nat (romsCount s) in
                let s := set_roms (<[i := csv_entry (aconfig s) fields]>
                                     (roms s)) s in
                csv_lines lines' lineNum (set_romsCount (romsCount s + 1) s)
              else
                DPRINTF ("Maximum ROM count reached (%d)" +:+ nl)
                  [arg_d MAX_ROMS] s
          end
  end.

Definition readRomsCsv (csvFilepath : string) (s : Emul) : Emul :=
  let sizeof_line := (FLASH_PAGE_SIZE * 2)%nat in
  let s := set_romsCount 0 s in
  let '(res, csvFile, fs) := f_open (fatfs s) csvFilepath in
  let s := set_fatfs fs s in
  if negb (res =? FR_OK) then
    DPRINTF ("Error opening CSV file %s: %d" +:+ nl)
      [arg_s csvFilepath; arg_d res] s
  else
    let lines := gets_lines sizeof_line (f_data csvFile) [] (sizeof_line - 1) in
    let '(res, fs) := next_fault (fatfs s) in
    let s := set_fatfs fs s in
    match lines with
    | header :: lines' =>
        if negb (res =? FR_OK) then
          DPRINTF ("Error reading header from CSV file" +:+ nl) [] s
        else
          let s := csv_lines lines' 0 s in
          let s := set_roms (qsort_roms (romsCount s) (roms s)) s in
          let s := DPRINTF ("Found %d ROMs in CSV file." +:+ nl)
                     [arg_d (romsCount s)] s in
          set_maxRomPages
            ((romsCount s + MAX_ROMS_PER_PAGE - 1) `quot` MAX_ROMS_PER_PAGE) s
    | [] => DPRINTF ("Error reading header from CSV file" +:+ nl) [] s
    end.

(** *** Lines 429-479 *)

(** The bounds of the [for] loop of [displayRomsPage]. *)
Definition page_bounds (romsCount pageSize pageNumber : Z) : Z * Z :=
  let pageSize := if pageSize <=? 0 then 0 else pageSize in
  let startIndex := pageNumber * pageSize in
  let startIndex :=
    if romsCount <=? startIndex then romsCount - 1 else startIndex in
  let endIndex := startIndex + pageSize in
  let endIndex := if romsCount <? endIndex then romsCount else endIndex in
  (startIndex, endIndex).

(** The values of [i] for which the loop body reads [roms[i]]. *)
Definition page_indices (romsCount pageSize pageNumber : Z) : list Z :=
  let '(startIndex, endIndex) := page_bounds romsCount pageSize pageNumber in
  seqZ startIndex (endIndex - startIndex).

(** [snprintf (buff, sizeof (buff), ...)] keeps what fits. *)
Definition snprintf (sizeof_buff : nat) (formatted : string) : string :=
  str_take (sizeof_buff - 1) formatted.

(** Lines 453-459: the line of entry [i]. *)
Definition rom_line (i : Z) (r : ROM) : string :=
  let buff :=
    snprintf TERM_SCREEN_SIZE_X
      (string_of_Z (i + 1) +:+ ". " +:+ name r +:+ nl) in
  let len := String.length buff in
  if (TERM_SCREEN_SIZE_X - 2 <=? len)%nat then
    if negb (starts_with LF (String.substring (len - 2) 1 buff))
    then str_take (len - 2) buff +:+ nl
    else buff
  else buff.

Definition displayRomsPage (romsCount pageSize pageNumber : Z) (s : Emul)
  : Emul :=
  let '(startIndex, endIndex) := page_bounds romsCount pageSize pageNumber in
  let s :=
    term_printString
      (snprintf TERM_SCREEN_SIZE_X
         ("Page " +:+ string_of_Z (pageNumber + 1) +:+ ", ROMs "
          +:+ string_of_Z (startIndex + 1) +:+ " to " +:+ string_of_Z endIndex
          +:+ " of " +:+ string_of_Z romsCount +:+ ":" +:+ nl +:+ nl)) s in
  let s :=
    term_printStrings
      (map (fun i => rom_line i (rom_at s i))
         (page_indices romsCount pageSize pageNumber)) s in
  set_currentRomPage pageNumber s.

Definition navigatePages (pageNumber : Z) (s : Emul) : Emul :=
  let s := term_printString (String ESC "E") s in
  let s := displayRomsPage (romsCount s) MAX_ROMS_PER_PAGE pageNumber s in
  let s := term_printString nl s in
  let s := if pageNumber <? maxRomPages s - 1
           then term_printString "[N]ext " s else s in
  let s := if 0 <? pageNumber then term_printString "[P]rev " s else s in
  term_printString "[M]enu or ROM number" s.

(** *** Lines 481-626 *)

Definition showTitle (s : Emul) : Emul :=
  term_printString
    (String ESC "E" +:+ "ROM Emulator - " +:+ RELEASE_VERSION +:+ nl) s.

Definition menu (s : Emul) : Emul :=
  let s := set_menuLevel TERM_ROMS_MENU_MAIN s in
  let s := showTitle s in
  let s :=
    term_printStrings
      [ nl +:+ nl;
        "[B] Browse ROMs in microSD card" +:+ nl;
        "[D] Download ROMs from internet server" +:+ nl;
        "[S] Settings" +:+ nl +:+ nl;
        "[E] Exit to desktop" +:+ nl;
        "[X] Return to booster menu" +:+ nl +:+ nl ] s in
  let s :=
    if delayMode s
    then term_printString ("[R] Disable ROM delay/ripper mode" +:+ nl) s
    else term_printString ("[R] Enable ROM delay/ripper mode" +:+ nl) s in
  let s := term_printString nl s in
  let s :=
    match settings_find_entry (aconfig s) ACONFIG_PARAM_ROM_SELECTED with
    | Some value =>
        if (0 <? String.length (c_str value))%nat then
          term_printStrings ["[L] Launch ROM: "; value; nl] s
        else s
    | None => s
    end in
  let s :=
    term_printStrings
      [ nl; "[M] Refresh this menu" +:+ nl; nl; "Network status: " ] s in
  let s := set_hasNetwork (negb (current_ip s =? 0)) s in
  let s :=
    if hasNetwork s then term_printString ("Connected" +:+ nl) s
    else term_printString ("Not connected" +:+ nl) s in
  term_printStrings [ nl; "Select an option: " ] s.

Definition cmdMenu (arg : string) (s : Emul) : Emul := menu s.

Definition cmdNext (arg : string) (s : Emul) : Emul :=
  let s := if currentRomPage s <? maxRomPages s - 1
           then set_currentRomPage (currentRomPage s + 1) s else s in
  navigatePages (currentRomPage s) s.

Definition cmdPrev (arg : string) (s : Emul) : Emul :=
  let s := set_currentRomPage (currentRomPage s - 1) s in
  let s := if currentRomPage s <? 0 then set_currentRomPage 0 s else s in
  navigatePages (currentRomPage s) s.

Definition cmdHelp (arg : string) (s : Emul) : Emul :=
  term_printStrings
    [ "Available commands:" +:+ nl;
      " General:" +:+ nl;
      "  clear   - Clear the terminal screen" +:+ nl;
      "  exit    - Exit the terminal" +:+ nl;
      "  help    - Show available commands" +:+ nl ] s.

Definition cmdExit (arg : string) (s : Emul) : Emul :=
  let s := term_printString ("Exiting terminal..." +:+ nl) s in
  set_display (display s ++ [DISPLAY_COMMAND_CONTINUE]) s.

Definition cmdCard (arg : string) (s : Emul) : Emul :=
  let s := readRomsSdcard (romsFolder s) s in
  let s := set_menuLevel TERM_ROMS_MENU_BROWSE_SD s in
  if romsCount s =? 0 then
    term_printStrings
      [ "No ROMs found in the SD card." +:+ nl;
        "Download ROMs from internet," +:+ nl;
        "or copy them to folder '";
        romsFolder s;
        "'" +:+ nl +:+ nl ] s
  else
    let s := set_currentRomPage 0 s in
    navigatePages (currentRomPage s) s.

Definition cmdNetwork (arg : string) (s : Emul) : Emul :=
  let s := readRomsCsv "/roms/roms.csv" s in
  let s := set_menuLevel TERM_ROMS_MENU_BROWSE_NETWORK s in
  let s := set_currentRomPage 0 s in
  navigatePages (currentRomPage s) s.

(** [None]: the provisioning call has not returned. *)
Definition cmdLaunch (arg : string) (s : Emul) : option Emul :=
  let s := set_menuLevel TERM_ROMS_MENU_LAUNCH s in
  let s := term_printString ("The ROM will boot shortly..." +:+ nl +:+ nl) s in
  let s :=
    if delayMode s then
      term_printString
        ("ROM delay/ripper mode enabled. You must press SELECT to activate the "
         +:+ "ROM." +:+ nl) s
    else s in
  let s := term_printString ("To return to this menu, press SELECT" +:+ nl) s in
  let s :=
    term_printString ("If ROM doesn't boot, reset the computer" +:+ nl) s in
  match settings_find_entry (aconfig s) ACONFIG_PARAM_ROM_SELECTED with
  | Some value =>
      let filename :=
        snprintf MAX_PATH_SIZE (romsFolder s +:+ "/" +:+ value) in
      let flashAddress := wrap32 _rom_temp_start in
      let s := DPRINTF ("Loading ROM file into FLASH: %s at 0x%X" +:+ nl)
                 [arg_s filename; arg_d flashAddress] s in
      match storeFileToFlash (fatfs s) filename flashAddress stack_garbage with
      | None => None
      | Some (fresult, fs, ops) =>
          let s := set_flash (flash s ++ ops) (set_fatfs fs s) in
          if negb (fresult =? FR_OK) then
            Some (DPRINTF ("Error loading ROM file into FLASH: %d" +:+ nl)
                    [arg_d fresult] s)
          else
            let s :=
              set_aconfig
                (settings_put_integer (aconfig s) ACONFIG_PARAM_ROM_MODE
                   (if delayMode s then ROM_MODE_DELAY else ROM_MODE_DIRECT)) s in
            let s := set_aconfig (settings_save (aconfig s)) s in
            Some (set_keepActive false s)
      end
  | None => Some (DPRINTF ("No ROM file selected." +:+ nl) [] s)
  end.

(** *** Lines 628-793 *)

Definition download_start (s : Emul) : Z * Emul :=
  let '(err, st) := download_start_outcome (engine s) in
  (err, set_engine (download_invoke (engine s) call_start st) s).

Definition download_poll (s : Emul) : Emul :=
  set_engine
    (download_invoke (engine s) call_poll (download_poll_outcome (engine s))) s.

Definition download_finish (s : Emul) : Emul :=
  set_engine
    (download_invoke (engine s) call_finish
       (download_finish_outcome (engine s))) s.

Definition download_confirm (s : Emul) : Emul :=
  set_engine
    (download_invoke (engine s) call_confirm
       (download_confirm_outcome (engine s))) s.

Definition invalid_rom_number (s : Emul) : Emul :=
  term_printString
    ("Invalid ROM number. Please select a valid ROM " +:+ "number." +:+ nl) s.

Definition cmdUnknown (arg : string) (s : Emul) : Emul :=
  if menuLevel s =? TERM_ROMS_MENU_MAIN then menu s
  else if menuLevel s =? TERM_ROMS_MENU_BROWSE_SD then
    let romNumber := atoi arg in
    if (0 <? romNumber) && (romNumber <=? romsCount s) then
      let s :=
        term_printStrings
          [ "Selected ROM: "; filename (rom_at s (romNumber - 1)); nl ] s in
      let s :=
        set_aconfig
          (settings_put_string (aconfig s) ACONFIG_PARAM_ROM_SELECTED
             (filename (rom_at s (romNumber - 1)))) s in
      let s := set_aconfig (settings_save (aconfig s)) s in
      menu s
    else invalid_rom_number s
  else if menuLevel s =? TERM_ROMS_MENU_BROWSE_NETWORK then
    let romNumber := atoi arg in
    if (0 <? romNumber) && (romNumber <=? romsCount s) then
      let r := rom_at s (romNumber - 1) in
      let s :=
        term_printStrings
          [ nl +:+ "ROM number: "; arg; nl;
            "Name: "; name r; nl;
            "Filename: "; filename r; nl;
            "Description: "; description r; nl;
            "Tags: "; tags r; nl;
            "Size: ";
            snprintf (MAX_PATH_SIZE / 4) (string_of_Z (size r) +:+ " KB" +:+ nl);
            nl +:+ "Press RETURN to load the ROM." +:+ nl;
            "Press any other key to return to the menu." +:+ nl ] s in
      let s := set_downloadRomSelected (romNumber - 1) s in
      set_menuLevel (TERM_ROMS_MENU_BROWSE_NETWORK + TERM_ROMS_MENU_SUBMENU) s
    else invalid_rom_number s
  else if menuLevel s
          =? TERM_ROMS_MENU_BROWSE_NETWORK + TERM_ROMS_MENU_SUBMENU then
    if is_empty arg || starts_with LF arg then
      let s :=
        set_aconfig
          (settings_put_string (aconfig s) ACONFIG_PARAM_ROM_SELECTED "") s in
      let s := set_aconfig (settings_save (aconfig s)) s in
      let selected := rom_at s (downloadRomSelected s) in
      let fullPath :=
        snprintf MAX_PATH_SIZE (romsFolder s +:+ "/" +:+ filename selected) in
      let s := DPRINTF ("Downloading ROM: %s" +:+ nl) [arg_s fullPath] s in
      let url :=
        snprintf (MAX_PATH_SIZE * 2)
          (dl_protocol (engine s) +:+ "://" +:+ dl_host (engine s) +:+ "/"
           +:+ filename selected) in
      let s := DPRINTF ("URL: %s" +:+ nl) [arg_s url] s in
      let s := set_engine (download_setFilepath (engine s) url) s in
      let '(err, s) := download_start s in
      let s :=
        if negb (err =? DOWNLOAD_OK)
        then DPRINTF ("Error starting download: %d" +:+ nl) [arg_d err] s
        else s in
      let s := set_menuLevel TERM_ROMS_MENU_MAIN s in
      menu s
    else
      let s := set_menuLevel TERM_ROMS_MENU_BROWSE_NETWORK s in
      navigatePages (currentRomPage s) s
  else if menuLevel s =? TERM_ROMS_MENU_LAUNCH then s
  else
    term_printString
      ("Unknown command. Type 'help' for a list of commands." +:+ nl) s.

Definition cmdBooster (arg : string) (s : Emul) : Emul :=
  let s := set_menuLevel TERM_ROMS_MENU_BOOSTER s in
  let s :=
    term_printStrings
      [ "Launching Booster app..." +:+ nl;
        "The computer will boot shortly..." +:+ nl +:+ nl;
        "If it doesn't boot, power it on and off." +:+ nl ] s in
  let s := set_resetDeviceAtBoot false s in
  set_keepActive false s.

Definition cmdDelay (arg : string) (s : Emul) : Emul :=
  let s := set_delayMode (negb (delayMode s)) s in
  let s := set_menuLevel TERM_ROMS_MENU_MAIN s in
  menu s.

Definition romDownloadUpdate (s : Emul) : Emul :=
  if 0 <? downloadRomSelected s then
    let s :=
      set_aconfig
        (settings_put_string (aconfig s) ACONFIG_PARAM_ROM_SELECTED
           (filename (rom_at s (downloadRomSelected s)))) s in
    let s := set_aconfig (settings_save (aconfig s)) s in
    menu s
  else s.

(** *** Lines 29-51: the command table *)

Definition handler : Type := string -> Emul -> option Emul.

(** A handler of term.c, which sees the settings and the terminal. *)
Definition term_handler (symbol : string) : handler :=
  fun arg s =>
    let '(ctx, out) := term_cmd symbol arg (aconfig s, term s) in
    Some (set_term out (set_aconfig ctx s)).

Definition total (h : string -> Emul -> Emul) : handler :=
  fun arg s => Some (h arg s).

Definition commands : list (string * handler) :=
  [ ("m", total cmdMenu);
    ("n", total cmdNext);
    ("p", total cmdPrev);
    ("h", total cmdHelp);
    ("b", total cmdCard);
    ("d", total cmdNetwork);
    ("l", cmdLaunch);
    ("r", total cmdDelay);
    ("e", total cmdExit);
    ("x", total cmdBooster);
    ("?", total cmdHelp);
    ("s", term_handler "term_cmdSettings");
    ("settings", term_handler "term_cmdSettings");
    ("print", term_handler "term_cmdPrint");
    ("save", term_handler "term_cmdSave");
    ("erase", term_handler "term_cmdErase");
    ("get", term_handler "term_cmdGet");
    ("put_int", term_handler "term_cmdPutInt");
    ("put_bool", term_handler "term_cmdPutBool");
    ("put_str", term_handler "term_cmdPutString");
    ("", total cmdUnknown) ].

(** *** Lines 1074-1120: the main loop *)

(** The SDK's clock: an [absolute_time_t] is a count of microseconds. *)
Definition make_timeout_time_ms (now ms : Z) : Z := now + ms * 1000.

Definition absolute_time_diff_us (from to : Z) : Z := to - from.

(** Lines 1090-1119: the [switch] on the download status, at clock
    reading [now]; the local [startDownloadTime] is passed through. *)
Definition download_step (now : Z) (startDownloadTime : Z) (s : Emul)
  : Z * Emul :=
  match download_getStatus (engine s) with
  | DOWNLOAD_STATUS_REQUESTED =>
      let startDownloadTime := make_timeout_time_ms now DOWNLOAD_START_MS in
      (startDownloadTime,
       set_engine (download_setStatus (engine s) DOWNLOAD_STATUS_NOT_STARTED) s)
  | DOWNLOAD_STATUS_NOT_STARTED =>
      if absolute_time_diff_us now startDownloadTime <? 0 then
        let '(err, s) := download_start s in
        (startDownloadTime,
         if negb (err =? DOWNLOAD_OK)
         then DPRINTF ("Error downloading app. Drive to error page." +:+ nl) [] s
         else s)
      else (startDownloadTime, s)
  | DOWNLOAD_STATUS_IN_PROGRESS => (startDownloadTime, download_poll s)
  | DOWNLOAD_STATUS_COMPLETED =>
      let s := download_finish s in
      let s := download_confirm s in
      let s :=
        set_engine (download_setStatus (engine s) DOWNLOAD_STATUS_IDLE) s in
      (startDownloadTime, romDownloadUpdate s)
  | DOWNLOAD_STATUS_IDLE => (startDownloadTime, s)
  end.

(** Modelled from the spec: [term_loop] of term.c is "a
    command-table-driven input reader that tokenizes one line into
    (command-key, remainder-argument) and dispatches to the matching
    handler or a default handler". [input] is the line completed in this
    pass, if any; the default handler is the entry with the empty key. *)
Definition term_loop (input : option (string * string)) (s : Emul)
  : option Emul :=
  match input with
  | None => Some s
  | Some (key, arg) =>
      match list_find (fun entry => String.eqb (fst entry) key) commands with
      | Some (_, (_, h)) => h arg s
      | None => total cmdUnknown arg s
      end
  end.

(** One round of the [while (getKeepActive ())] loop. *)
Definition loop_iteration (input : option (string * string)) (now : Z)
    (startDownloadTime : Z) (s : Emul) : option (Z * Emul) :=
  match term_loop input s with
  | Some s => Some (download_step now startDownloadTime s)
  | None => None
  end.

(** The loop, over the inputs and clock readings of its rounds. *)
Fixpoint main_loop (rounds : list (option (string * string) * Z))
    (startDownloadTime : Z) (s : Emul) : option (Z * Emul) :=
  match rounds with
  | [] => Some (startDownloadTime, s)
  | (input, now) :: rounds' =>
      if keepActive s then
        match loop_iteration input now startDownloadTime s with
        | Some (startDownloadTime, s) => main_loop rounds' startDownloadTime s
        | None => None
        end
      else Some (startDownloadTime, s)
  end.

(** *** Lines 750-752 *)

Definition getKeepActive (s : Emul) : bool := keepActive s.

Definition getResetDevice (s : Emul) : bool := resetDeviceAtBoot s.

(** *** Lines 861-920: the device mode at boot, and the emulation branch *)

(** The size of the ROM image (constants.h). *)
Variable ROM_SIZE_BYTES : Z.

Variable ROM_BANKS : Z.

(** Whether one of the headers of [emul.c] includes [blink.h], so that
    the calls under [#ifdef BLINK_H] are compiled. *)
Variable BLINK_H : bool.

(** Lines 861-869: the local [appModeValue]. *)
Definition app_mode (s : Emul) : Z * Emul :=
  match settings_find_entry (aconfig s) ACONFIG_PARAM_ROM_MODE with
  | None =>
      (ROM_MODE_SETUP,
       DPRINTF ("ROM_MODE not found in the configuration. Using default value"
                +:+ nl) [] s)
  | Some value =>
      let appModeValue := atoi value in
      (appModeValue,
       DPRINTF ("Start ROM emulation in mode: %i" +:+ nl) [arg_d appModeValue] s)
  end.

(** [select_configure (); select_setLongResetCallback (...);
    while (!select_detectPush ()) sleep_ms (SLEEP_LOOP_MS);
    select_waitPush ();] over the coming answers of [select_detectPush]:
    the calls made and the answers that are left, or [None] when none of
    the answers is a push. *)
Fixpoint select_loop (polls : list bool)
  : option (list platform_call * list bool) :=
  match polls with
  | [] => None
  | true :: polls' => Some ([select_waitPush], polls')
  | false :: polls' =>
      match select_loop polls' with
      | Some (calls, rest) => Some (sleep_ms SLEEP_LOOP_MS :: calls, rest)
      | None => None
      end
  end.

Definition wait_select (polls : list bool)
  : option (list platform_call * list bool) :=
  match select_loop polls with
  | Some (calls, rest) =>
      Some (select_configure :: select_setLongResetCallback :: calls, rest)
  | None => None
  end.

(** Lines 861-920. [Some (inl (calls, s))]: the emulation branch has run
    up to its [reset_device], which restarts the board; [Some (inr s)]:
    the device is in setup mode and [emul_start] goes on with line 931;
    [None]: SELECT was not pushed within [polls]. *)
Definition emul_start_mode (polls : list bool) (s : Emul)
  : option (list platform_call * Emul + Emul) :=
  let '(appModeValue, s) := app_mode s in
  if (appModeValue =? ROM_MODE_DIRECT) || (appModeValue =? ROM_MODE_DELAY) then
    match (if appModeValue =? ROM_MODE_DELAY then wait_select polls
           else Some ([], polls)) with
    | None => None
    | Some (calls1, polls) =>
        let flashAddress := wrap32 _rom_temp_start in
        let s :=
          DPRINTF ("Copy the ROM firmware to RAM: 0x%X, length: %u bytes" +:+ nl)
            [arg_d flashAddress; arg_d (ROM_SIZE_BYTES * ROM_BANKS)] s in
        match wait_select polls with
        | None => None
        | Some (calls2, _) =>
            let s :=
              set_aconfig
                (settings_put_integer (aconfig s) ACONFIG_PARAM_ROM_MODE
                   ROM_MODE_SETUP) s in
            let s := set_aconfig (settings_save (aconfig s)) s in
            Some (inl (calls1
                       ++ [ COPY_FIRMWARE_TO_RAM flashAddress
                              (ROM_SIZE_BYTES * ROM_BANKS);
                            init_romemul ]
                       ++ (if BLINK_H then [call_blink_on] else [])
                       ++ calls2 ++ [reset_device], s))
        end
    end
  else Some (inr s).

(** *** Lines 1007-1025: the connection to the WiFi network *)

(** The error code of a connection that timed out (network.h). *)
Variable NETWORK_WIFI_STA_CONN_ERR_TIMEOUT : Z.

(** The [while] loop. [connect n] is the result of the call of
    [network_wifiStaConnect] made when [attempt] is [n]; the result is the
    locals [attempt] and [err] after the loop, and what was logged.
    [fuel] bounds the number of rounds. *)
Fixpoint wifi_attempts (fuel : nat) (connect : Z -> Z)
    (maxAttempts attempt err : Z)
  : option (Z * Z * list (string * list dprintf_arg)) :=
  match fuel with
  | O => None
  | S fuel' =>
      if (attempt <? maxAttempts) && (err =? NETWORK_WIFI_STA_CONN_ERR_TIMEOUT)
      then
        let err := connect attempt in
        let attempt := attempt + 1 in
        let log :=
          if (0 <? err) && (err <? NETWORK_WIFI_STA_CONN_ERR_TIMEOUT)
          then [("Error connecting to the WiFi network: %i" +:+ nl, [arg_d err])]
          else [] in
        match wifi_attempts fuel' connect maxAttempts attempt err with
        | Some (attempt, err, log') => Some (attempt, err, log ++ log')
        | None => None
        end
      else Some (attempt, err, [])
  end.

(** Lines 1007-1025, the loop with one round of fuel more than
    [maxAttempts]. *)
Definition wifi_connect (connect : Z -> Z)
  : option (Z * Z * list (string * list dprintf_arg)) :=
  let maxAttempts := 3 in
  let attempt := 0 in
  let err := NETWORK_WIFI_STA_CONN_ERR_TIMEOUT in
  match wifi_attempts (S (Z.to_nat maxAttempts)) connect maxAttempts attempt err
  with
  | Some (attempt, err, log) =>
      Some (attempt, err,
            log ++
            (if err =? NETWORK_WIFI_STA_CONN_ERR_TIMEOUT
             then [("Timeout connecting to the WiFi network after %d attempts"
                    +:+ nl, [arg_d maxAttempts])]
             else []))
  | None => None
  end.

(** *** Lines 1121-1142: after the main loop *)

(** The calls made up to the one that leaves the firmware, and the state
    at that call. *)
Definition emul_start_exit (s : Emul) : list platform_call * Emul :=
  let s := set_display (display s ++ [DISPLAY_COMMAND_RESET]) s in
  if getResetDevice s then ([sleep_ms SLEEP_LOOP_MS; reset_device], s)
  else
    let s :=
      set_aconfig
        (settings_put_string (aconfig s) ACONFIG_PARAM_ROM_SELECTED "") s in
    let s :=
      set_aconfig
        (settings_put_integer (aconfig s) ACONFIG_PARAM_ROM_MODE ROM_MODE_SETUP)
        s in
    let s := set_aconfig (settings_save (aconfig s)) s in
    ([sleep_ms SLEEP_LOOP_MS; reset_jump_to_booster], s).

(** *** blink.c *)

(** The gap between two changes of the LED (blink.h). *)
Definition CHARACTER_GAP_MS : Z := 700.

(** The statics of [blink.c], and the levels written to the LED pin so
    far, through [gpio_put] or, on a board with the LED on the wireless
    chip, through [cyw43_arch_gpio_put]. *)
Record Blink := { blinkState : bool; blinkTime : Z; led : list bool }.

Definition blink_on (b : Blink) : Blink :=
  {| blinkState := blinkState b; blinkTime := blinkTime b;
     led := led b ++ [true] |}.

Definition blink_off (b : Blink) : Blink :=
  {| blinkState := blinkState b; blinkTime := blinkTime b;
     led := led b ++ [false] |}.

(** [blink_toogle ()] at clock reading [now]. *)
Definition blink_toogle (now : Z) (b : Blink) : Blink :=
  if absolute_time_diff_us now (blinkTime b) <? 0 then
    let b :=
      {| blinkState := negb (blinkState b); blinkTime := blinkTime b;
         led := led b |} in
    let b :=
      {| blinkState := blinkState b;
         blinkTime := make_timeout_time_ms now CHARACTER_GAP_MS;
         led := led b |} in
    if blinkState b then blink_on b else blink_off b
  else b.

(** *** The provisioning algorithm in the words of the specification:
    "Pad the tail of a partial chunk up to the programming-page
    granularity using a fixed fill byte; perform a 16-bit-word endianness
    swap over the entire chunk; disable interrupts, erase the destination
    sector range, program it, re-enable interrupts; advance the
    destination offset by the unpadded byte count actually read." *)

Definition spec_pad_len (n : nat) : nat :=
  ((FLASH_PAGE_SIZE - n mod FLASH_PAGE_SIZE) mod FLASH_PAGE_SIZE)%nat.

Definition spec_padded (chunk : list ascii) : list ascii :=
  chunk ++ replicate (spec_pad_len (length chunk)) fill_byte.

Definition spec_chunk_ops (offset : Z) (chunk : list ascii) : list FlashOp :=
  let image := swap16 (spec_padded chunk) in
  [ save_and_disable_interrupts;
    flash_range_erase offset (length image);
    flash_range_program offset image (length image);
    restore_interrupts ].

(** The final destination offset and the flash calls for a sequence of
    chunks. *)
Fixpoint spec_program (offset : Z) (chunks : list (list ascii))
  : Z * list FlashOp :=
  match chunks with
  | [] => (offset, [])
  | c :: cs =>
      let '(final, ops) :=
        spec_program (wrap32 (offset + Z.of_nat (length c))) cs in
      (final, spec_chunk_ops offset c ++ ops)
  end.

(** The payload of a file: everything, or everything after a 4-byte
    all-zero header when the size is 4 plus a whole number of sectors. *)
Definition has_zero_header (data : list ascii) : bool :=
  ((4 <? length data)%nat
   && ((length data - 4) mod FLASH_SECTOR_SIZE =? 0)%nat
   && is_zero_header data).

Definition payload_of (data : list ascii) : list ascii :=
  if has_zero_header data then drop 4 data else data.

(** What the loop returns, the buffer it leaves apart. *)
Definition loop_outcome
    (r : FRESULT * FatFs * list ascii * Z * list FlashOp)
  : FRESULT * FatFs * Z * list FlashOp :=
  let '(res, fs, _, offset, ops) := r in (res, fs, offset, ops).

Definition zero_header : list ascii := [zero; zero; zero; zero].

(** *** The catalog and its pages in the words of the specification *)

(** The order of the catalog: case-insensitive, by filename. *)
Definition catalog_sorted (s : Emul) : Prop :=
  StronglySorted (fun romA romB => compareRoms romA romB <= 0)
    (take (Z.to_nat (romsCount s)) (roms s)).

(** The page-navigation commands. *)
Inductive navigation :=
| nav_next (arg : string)
| nav_prev (arg : string).

Definition navigate (s : Emul) (n : navigation) : Emul :=
  match n with
  | nav_next arg => cmdNext arg s
  | nav_prev arg => cmdPrev arg s
  end.

(** The current page is one of the pages, page 0 being the one page of an
    empty catalog. *)
Definition page_in_range (s : Emul) : Prop :=
  0 <= currentRomPage s < Z.max 1 (maxRomPages s).

(** The folder opens; the document opens and its header line is read. *)
Definition sd_opens (folder : string) (s : Emul) : Prop :=
  fst (fst (f_opendir (fatfs s) folder)) = FR_OK.

Definition csv_opens (csvFilepath : string) (s : Emul) : Prop :=
  let '(res, csvFile, fs) := f_open (fatfs s) csvFilepath in
  res = FR_OK
  /\ fst (next_fault fs) = FR_OK
  /\ gets_lines (FLASH_PAGE_SIZE * 2) (f_data csvFile) []
       (FLASH_PAGE_SIZE * 2 - 1) <> [].

(** The catalog is in order, within its capacity, and its page count is
    the least number of pages that hold its entries. *)
Definition catalog_ok (s : Emul) : Prop :=
  catalog_sorted s
  /\ 0 <= romsCount s <= MAX_ROMS
  /\ MAX_ROMS_PER_PAGE * (maxRomPages s - 1) < romsCount s
     <= MAX_ROMS_PER_PAGE * maxRomPages s.

(** *** Notions in which further properties are stated *)

(** A string with its upper-case letters turned into lower case. *)
Fixpoint lowercase (str : string) : string :=
  match str with
  | EmptyString => EmptyString
  | String c str' => String (tolower c) (lowercase str')
  end.

(** The string has no occurrence of the character. *)
Definition free_of (c : ascii) (str : string) : Prop :=
  Forall (fun x => x <> c) (list_ascii_of_string str).

(** Percent-encoding of every character of a string, with upper-case
    hexadecimal digits. *)
Definition hex_digit (n : Z) : ascii :=
  if n <? 10 then chr (48 + n) else chr (55 + n).

Fixpoint percent_encode (str : string) : string :=
  match str with
  | EmptyString => EmptyString
  | String c str' =>
      String "%"
        (String (hex_digit (code c / 16))
           (String (hex_digit (code c mod 16)) (percent_encode str')))
  end.

(** The directory entries that the loop of [readRomsSdcard] keeps: files
    that are not hidden and have one of the extensions. *)
Definition sd_accepts (fno : FILINFO) : bool :=
  (Z.land (fattrib fno) AM_DIR =? 0)
  && negb (starts_with "." (c_str (fname fno)))
  && hasValidExtension (c_str (fname fno)).

(** The fields of a line of the catalog document, if it is a data line:
    not empty and of five quoted fields. *)
Definition csv_fields (line : string)
  : option (string * string * string * string * string) :=
  if is_empty (c_str line) || starts_with LF (c_str line) then None
  else extract_fields (c_str line).

(** The URL field of a data line. *)
Definition csv_url (fields : string * string * string * string * string)
  : string :=
  let '(field1, _, _, _, _) := fields in field1.

(** The catalog entry of a data line in a catalog of the folder [folder]:
    the file name is the URL as it is written, the path is the folder, a
    slash and the decoded URL, the name, the description and the tags are
    the decoded fields, each cut to its array, and the size is the number
    that the last field starts with. *)
Definition csv_record (folder : string)
    (fields : string * string * string * string * string) : ROM :=
  let '(field1, field2, field3, field4, field5) := fields in
  {| filename := str_take (MAX_FILENAME_LENGTH - 1) field1;
     path := folder +:+ "/" +:+ urlDecode field1 (MAX_PATH_SIZE * 2);
     name :=
       str_take (MAX_FILENAME_LENGTH - 1) (urlDecode field2 (MAX_PATH_SIZE * 2));
     description := str_take (MAX_PATH_SIZE - 1) (urlDecode field3 MAX_PATH_SIZE);
     tags :=
       str_take (MAX_FILENAME_LENGTH - 1) (urlDecode field4 (MAX_PATH_SIZE * 2));
     size := atoi field5 |}.

(** The number of SELECT pushes that the emulation branch waits for. *)
Definition pushes_needed (appModeValue : Z) : nat :=
  if appModeValue =? ROM_MODE_DELAY then 2 else 1.

(** The device as the next boot finds it: the settings are the saved
    ones. *)
Definition rebooted (s : Emul) : Emul :=
  set_aconfig (settings_reload (aconfig s)) s.

(** Levels that alternate, [n] of them, from [level] on. *)
Fixpoint alternating (level : bool) (n : nat) : list bool :=
  match n with
  | O => []
  | S n' => level :: alternating (negb level) n'
  end.

(** Calls of [blink_toogle] at the clock readings [nows]. *)
Definition blink_run (nows : list Z) (b : Blink) : Blink :=
  fold_left (fun b now => blink_toogle now b) nows b.

(** The two flags that decide how the menu ends. *)
Definition flags (s : Emul) : bool * bool :=
  (keepActive s, resetDeviceAtBoot s).

(** Reduction of field updates and projections only. *)
Ltac emul_simpl :=
  cbn [set_roms set_romsCount set_romsFolder set_currentRomPage
       set_maxRomPages set_downloadRomSelected set_menuLevel set_keepActive
       set_resetDeviceAtBoot set_hasNetwork set_delayMode set_fatfs
       set_flash set_aconfig set_term set_debug set_engine set_display
       roms romsCount romsFolder currentRomPage maxRomPages
       downloadRomSelected menuLevel keepActive resetDeviceAtBoot hasNetwork
       delayMode fatfs flash aconfig term debug engine display current_ip
       term_printString term_printStrings DPRINTF].

Tactic Notation "emul_simpl" "in" hyp(H) :=
  cbn [set_roms set_romsCount set_romsFolder set_currentRomPage
       set_maxRomPages set_downloadRomSelected set_menuLevel set_keepActive
       set_resetDeviceAtBoot set_hasNetwork set_delayMode set_fatfs
       set_flash set_aconfig set_term set_debug set_engine set_display
       roms romsCount romsFolder currentRomPage maxRomPages
       downloadRomSelected menuLevel keepActive resetDeviceAtBoot hasNetwork
       delayMode fatfs flash aconfig term debug engine display current_ip
       term_printString term_printStrings DPRINTF] in H.

Ltac split_ifs :=
  repeat match goal with
         | |- context [if ?b then _ else _] => destruct b eqn:?
         | |- context [match ?x with Some _ => _ | None => _ end] =>
             destruct x eqn:?
         end.

(** Projections of a chain of updates: reduce, split the branches that
    block the reduction, and reduce again. *)
Ltac frame := repeat (emul_simpl; progress split_ifs); emul_simpl.

(** ** Properties of the flash provisioner *)

Lemma swap16_length (l : list ascii) : length (swap16 l) = length l.
Proof.
  remember (length l) as n eqn:Hn. revert l Hn.
  induction n as [n IH] using lt_wf_ind; intros l Hn.
  destruct l as [|a [|b rest]]; [exact (eq_sym Hn)..|].
  subst n. cbn [swap16 length] in *. do 2 f_equal.
  apply (IH (length rest)); [lia|reflexivity].
Qed.

Lemma f_read_cases (fs : FatFs) (file : FIL) (btr : nat) :
  (exists r fs', r <> FR_OK /\ f_read fs file btr = (r, [], file, fs'))
  \/ (exists fs',
        f_read fs file btr =
        (FR_OK, take btr (drop (f_ptr file) (f_data file)),
         {| f_data := f_data file;
            f_ptr := (f_ptr file
                      + length (take btr (drop (f_ptr file) (f_data file))))%nat |},
         fs')
        /\ fs' = snd (next_fault fs)).
Proof.
  unfold f_read. destruct (next_fault fs) as [r fs'].
  destruct (Z.eqb_spec r FR_OK) as [->|E]; cbn [negb].
  - right. exists fs'. split; reflexivity.
  - left. exists r, fs'. split; [exact E|reflexivity].
Qed.

(** The loop always returns when it has more fuel than bytes left. *)
Lemma storeLoop_total (fuel : nat) :
  forall fs file buffer offset,
    (length (drop (f_ptr file) (f_data file)) < fuel)%nat ->
    is_Some (storeLoop fuel fs file buffer offset).
Proof.
  induction fuel as [|fuel IH]; intros fs file buffer offset Hfuel; [lia|].
  cbn [storeLoop].
  destruct (f_read_cases fs file FLASH_SECTOR_SIZE)
    as [(r & fs' & Hr & ->)|(fs' & -> & _)].
  - apply Z.eqb_neq in Hr. rewrite Hr. cbn [negb]. eauto.
  - cbn [negb Z.eqb FR_OK].
    set (got := take FLASH_SECTOR_SIZE (drop (f_ptr file) (f_data file))).
    destruct (Nat.eqb_spec (length got) 0) as [E|E]; [eauto|].
    destruct (program_chunk _ _ _) as [buffer1 ops].
    match goal with
    | |- context [storeLoop fuel ?a ?b ?c ?d] =>
        destruct (IH a b c d) as [[[[[r1 r2] r3] r4] r5] ->]; [|eauto]
    end.
    cbn [f_ptr f_data]. subst got.
    rewrite length_take, !length_drop in *. lia.
Qed.

Lemma is_zero_header_app (hdr rest : list ascii) :
  length hdr = 4%nat -> is_zero_header (hdr ++ rest) = is_zero_header hdr.
Proof.
  intros H. destruct hdr as [|a [|b [|c [|d [|e hdr]]]]]; try discriminate.
  reflexivity.
Qed.

Lemma is_zero_header_take (data : list ascii) :
  (4 <= length data)%nat -> is_zero_header (take 4 data) = is_zero_header data.
Proof.
  intros H. rewrite <- (take_drop 4 data) at 2.
  rewrite is_zero_header_app; [reflexivity|]. rewrite length_take. lia.
Qed.

Lemma f_lseek_cases (fs : FatFs) (file : FIL) (ofs : nat) :
  (exists r fs', r <> FR_OK /\ f_lseek fs file ofs = (r, file, fs'))
  \/ (exists fs',
        f_lseek fs file ofs =
        (FR_OK, {| f_data := f_data file;
                   f_ptr := Nat.min ofs (length (f_data file)) |}, fs')
        /\ fs' = snd (next_fault fs)).
Proof.
  unfold f_lseek. destruct (next_fault fs) as [r fs'].
  destruct (Z.eqb_spec r FR_OK) as [->|E]; cbn [negb].
  - right. exists fs'. split; reflexivity.
  - left. exists r, fs'. split; [exact E|reflexivity].
Qed.

Lemma neq_FR_OK (r : FRESULT) : r <> FR_OK -> negb (r =? FR_OK) = true.
Proof. intros H. apply Z.eqb_neq in H. rewrite H. reflexivity. Qed.

(** Lines 102-127: either an early return with an error code, or the
    read pointer is left at the start of the payload. *)
Lemma skip_header_cases (fs : FatFs) (data buffer : list ascii) :
  (exists res fs', res <> FR_OK /\
     skip_header fs {| f_data := data; f_ptr := 0 |} buffer = inl (res, fs'))
  \/ (exists fs' file' buffer',
        skip_header fs {| f_data := data; f_ptr := 0 |} buffer
        = inr (fs', file', buffer')
        /\ f_data file' = data
        /\ drop (f_ptr file') (f_data file') = payload_of data
        /\ (faults fs = [] -> fs' = fs)).
Proof.
  unfold skip_header, payload_of, has_zero_header, f_size, f_tell.
  cbn [f_data f_ptr].
  destruct (Nat.ltb_spec 4 (length data)) as [Hlt|Hge]; cbn [andb];
    [|right; eauto 10].
  destruct ((length data - 4) mod FLASH_SECTOR_SIZE =? 0)%nat; cbn [andb];
    [|right; eauto 10].
  destruct (f_read_cases fs {| f_data := data; f_ptr := 0 |} 4)
    as [(r & fs1 & Hr & ->)|(fs1 & -> & Hfs1)].
  { left. exists r, fs1. rewrite (neq_FR_OK r Hr). cbn [orb]. eauto. }
  cbn [f_data f_ptr]. rewrite drop_0.
  assert (Hfour : length (take 4 data) = 4%nat) by (rewrite length_take; lia).
  rewrite Hfour. cbn [Z.eqb FR_OK Nat.eqb negb orb Nat.add].
  unfold buf_store. rewrite is_zero_header_app by exact Hfour.
  rewrite is_zero_header_take by lia.
  assert (Hclean : faults fs = [] -> fs1 = fs /\ faults fs1 = []).
  { intros Hf. subst fs1. unfold next_fault. rewrite Hf. cbn. auto. }
  destruct (is_zero_header data).
  - right. do 3 eexists. split; [reflexivity|]. cbn [f_data f_ptr].
    repeat split. intros Hf. apply Hclean, Hf.
  - match goal with
    | |- context [f_lseek fs1 ?f ?o] =>
        destruct (f_lseek_cases fs1 f o)
          as [(r & fs2 & Hr & ->)|(fs2 & -> & Hfs2)]
    end.
    + left. exists r, fs2. rewrite (neq_FR_OK r Hr). eauto.
    + right. cbn [Z.eqb FR_OK negb]. do 3 eexists. split; [reflexivity|].
      cbn [f_data f_ptr Nat.sub Nat.min]. repeat split.
      intros Hf. destruct (Hclean Hf) as [-> Hf1]. subst fs2.
      unfold next_fault. rewrite Hf. reflexivity.
Qed.

Lemma f_open_cases (fs : FatFs) (path : string) :
  (exists r fs', r <> FR_OK /\
     f_open fs path = (r, {| f_data := []; f_ptr := 0 |}, fs'))
  \/ (exists data fs',
        files fs !! path = Some data
        /\ f_open fs path = (FR_OK, {| f_data := data; f_ptr := 0 |}, fs')
        /\ (faults fs = [] -> fs' = fs)).
Proof.
  unfold f_open, next_fault.
  destruct (faults fs) as [|r rest] eqn:Hf.
  - cbn [Z.eqb FR_OK negb].
    destruct (files fs !! path) as [d|] eqn:Hd.
    + right. exists d, fs. auto.
    + left. exists FR_NO_FILE, fs. split; [discriminate|reflexivity].
  - destruct (Z.eqb_spec r FR_OK) as [->|E]; cbn [negb].
    + destruct (files fs !! path) as [d|] eqn:Hd.
      * right. do 2 eexists. split; [reflexivity|]. split; [reflexivity|].
        discriminate.
      * left. do 2 eexists. split; [|reflexivity]. discriminate.
    + left. do 2 eexists. split; [exact E|reflexivity].
Qed.

(** The provisioning call always returns. *)
Lemma storeFileToFlash_total (fs : FatFs) (filename : string)
    (flashAddress : Z) (buffer : list ascii) :
  is_Some (storeFileToFlash fs filename flashAddress buffer).
Proof.
  unfold storeFileToFlash.
  destruct (f_open_cases fs filename)
    as [(r & fs1 & Hr & ->)|(data & fs1 & Hd & -> & _)].
  { rewrite (neq_FR_OK r Hr). eauto. }
  cbn [Z.eqb FR_OK negb].
  destruct (skip_header_cases fs1 data buffer)
    as [(r & fs2 & Hr & ->)|(fs2 & file2 & buffer2 & -> & Hdata & Hrest & _)].
  { eauto. }
  destruct (storeLoop_total (S (f_size file2)) fs2 file2 buffer2
              (wrap32 (flashAddress - XIP_BASE)))
    as [[[[[r1 r2] r3] r4] r5] ->]; [|eauto].
  unfold f_size. rewrite length_drop. lia.
Qed.

(** *** With a page and a sector that are not empty *)

Section Provisioning.

Hypothesis page_pos : (0 < FLASH_PAGE_SIZE)%nat.
Hypothesis sector_pos : (0 < FLASH_SECTOR_SIZE)%nat.

Lemma paddedSize_partial (n : nat) :
  (n mod FLASH_PAGE_SIZE <> 0)%nat ->
  paddedSize n = (n + (FLASH_PAGE_SIZE - n mod FLASH_PAGE_SIZE))%nat.
Proof.
  intros Hr. unfold paddedSize.
  pose proof (Nat.div_mod_eq n FLASH_PAGE_SIZE) as Hn.
  pose proof (Nat.mod_upper_bound n FLASH_PAGE_SIZE ltac:(lia)) as Hlt.
  set (q := (n / FLASH_PAGE_SIZE)%nat) in *.
  set (r := (n mod FLASH_PAGE_SIZE)%nat) in *.
  assert (Hq : ((n + FLASH_PAGE_SIZE - 1) / FLASH_PAGE_SIZE = S q)%nat).
  { symmetry. apply (Nat.div_unique _ _ (S q) (r - 1)); [lia|].
    rewrite Nat.mul_succ_r. lia. }
  rewrite Hq, Nat.mul_succ_l, (Nat.mul_comm q). lia.
Qed.

Lemma programSize_of_spec (n : nat) :
  programSize_of n = (n + spec_pad_len n)%nat.
Proof.
  unfold programSize_of, spec_pad_len.
  pose proof (Nat.mod_upper_bound n FLASH_PAGE_SIZE ltac:(lia)) as Hlt.
  destruct (Nat.eqb_spec (n mod FLASH_PAGE_SIZE) 0) as [E|E]; cbn [negb].
  - rewrite E, Nat.sub_0_r, Nat.Div0.mod_same. lia.
  - rewrite paddedSize_partial by exact E.
    rewrite (Nat.mod_small (FLASH_PAGE_SIZE - _)) by lia. reflexivity.
Qed.

(** The bytes handed to [flash_range_program] do not depend on what the
    buffer held before the read. *)
Lemma program_chunk_ops (buffer got : list ascii) (offset : Z) :
  snd (program_chunk (buf_store buffer got) (length got) offset)
  = spec_chunk_ops offset got.
Proof.
  unfold program_chunk, spec_chunk_ops, spec_padded. cbn [snd].
  assert (Himg :
    take (programSize_of (length got))
      (CHANGE_ENDIANESS_BLOCK16 (pad_buffer (buf_store buffer got) (length got))
         (programSize_of (length got)))
    = swap16 (got ++ replicate (spec_pad_len (length got)) fill_byte)).
  { unfold CHANGE_ENDIANESS_BLOCK16.
    assert (Hpad : take (programSize_of (length got))
              (pad_buffer (buf_store buffer got) (length got))
            = got ++ replicate (spec_pad_len (length got)) fill_byte).
    { rewrite programSize_of_spec. unfold pad_buffer, spec_pad_len, buf_store.
      pose proof (Nat.mod_upper_bound (length got) FLASH_PAGE_SIZE ltac:(lia)).
      destruct (Nat.eqb_spec (length got mod FLASH_PAGE_SIZE) 0) as [E|E];
        cbn [negb].
      - rewrite E, Nat.sub_0_r, Nat.Div0.mod_same. cbn [replicate].
        rewrite Nat.add_0_r, app_nil_r. apply take_app_length.
      - rewrite paddedSize_partial by exact E.
        rewrite (Nat.mod_small (FLASH_PAGE_SIZE - _)) by lia.
        replace (length got + (FLASH_PAGE_SIZE - length got mod FLASH_PAGE_SIZE)
                 - length got)%nat
          with (FLASH_PAGE_SIZE - length got mod FLASH_PAGE_SIZE)%nat by lia.
        unfold memset. rewrite take_app_length.
        rewrite app_assoc.
        apply take_app_length'.
        rewrite length_app, length_replicate. reflexivity. }
    rewrite Hpad.
    apply take_app_length'.
    rewrite swap16_length, length_app, length_replicate.
    rewrite programSize_of_spec. reflexivity. }
  rewrite Himg.
  rewrite swap16_length, length_app, length_replicate, programSize_of_spec.
  reflexivity.
Qed.

Lemma program_chunk_eq (buffer : list ascii) (n : nat) (offset : Z) :
  program_chunk buffer n offset
  = (fst (program_chunk buffer n offset), snd (program_chunk buffer n offset)).
Proof. reflexivity. Qed.

(** One unfolding of the loop over a fault-aware read. *)
Lemma storeLoop_S (fuel : nat) (fs : FatFs) (file : FIL)
    (buffer : list ascii) (offset : Z) :
  storeLoop (S fuel) fs file buffer offset =
  let '(res, got, file', fs') := f_read fs file FLASH_SECTOR_SIZE in
  if negb (res =? FR_OK) then Some (res, fs', buffer, offset, [])
  else if (length got =? 0)%nat
       then Some (FR_OK, fs', buf_store buffer got, offset, [])
  else
    match storeLoop fuel fs' file'
            (fst (program_chunk (buf_store buffer got) (length got) offset))
            (wrap32 (offset + Z.of_nat (length got))) with
    | Some (res, fs, buffer, offset', ops') =>
        Some (res, fs, buffer, offset',
              spec_chunk_ops offset got ++ ops')
    | None => None
    end.
Proof.
  cbn [storeLoop].
  destruct (f_read fs file FLASH_SECTOR_SIZE) as [[[res got] file'] fs'].
  destruct (Z.eqb_spec res FR_OK) as [->|E]; cbn [negb]; [|reflexivity].
  destruct (length got =? 0)%nat; [reflexivity|].
  rewrite program_chunk_eq, program_chunk_ops. reflexivity.
Qed.

(** C1, the loop: a run that ends with [FR_OK] has consumed the rest of
    the file in chunks and left the flash calls of [spec_program]. *)
Lemma storeLoop_ok (fuel : nat) :
  forall fs file buffer offset fs' buffer' offset' ops,
    storeLoop fuel fs file buffer offset
    = Some (FR_OK, fs', buffer', offset', ops) ->
    exists chunks,
      concat chunks = drop (f_ptr file) (f_data file)
      /\ Forall (fun c => (0 < length c <= FLASH_SECTOR_SIZE)%nat) chunks
      /\ spec_program offset chunks = (offset', ops).
Proof.
  induction fuel as [|fuel IH];
    intros fs file buffer offset fs' buffer' offset' ops Hrun; [discriminate|].
  rewrite storeLoop_S in Hrun.
  destruct (f_read_cases fs file FLASH_SECTOR_SIZE)
    as [(r & fs1 & Hr & Hread)|(fs1 & Hread & _)]; rewrite Hread in Hrun.
  - pose proof Hr as Hr'. apply Z.eqb_neq in Hr'. rewrite Hr' in Hrun.
    cbn [negb] in Hrun. congruence.
  - cbn [negb Z.eqb FR_OK] in Hrun.
    set (rest := drop (f_ptr file) (f_data file)) in *.
    set (got := take FLASH_SECTOR_SIZE rest) in *.
    destruct (Nat.eqb_spec (length got) 0) as [E|E].
    + inversion Hrun; subst. exists []. split; [|split].
      * cbn [concat]. symmetry.
        subst got. rewrite length_take in E.
        destruct rest as [|x rest']; [reflexivity|]. cbn [length] in E. lia.
      * constructor.
      * reflexivity.
    + destruct (storeLoop fuel fs1 _ _ _)
        as [[[[[r1 r2] r3] r4] r5]|] eqn:Hrec; [|discriminate].
      inversion Hrun; subst r1 r2 r3 r4 ops. clear Hrun.
      apply IH in Hrec. destruct Hrec as (chunks & Hcat & Hall & Hprog).
      cbn [f_ptr f_data] in Hcat.
      exists (take FLASH_SECTOR_SIZE rest :: chunks). split; [|split].
      * cbn [concat]. rewrite Hcat.
        rewrite <- drop_drop. fold rest. subst got.
        rewrite length_take.
        destruct (Nat.le_gt_cases FLASH_SECTOR_SIZE (length rest)).
        -- rewrite Nat.min_l by lia. apply take_drop.
        -- rewrite Nat.min_r by lia. rewrite (take_ge rest) by lia.
           rewrite drop_all. apply app_nil_r.
      * constructor; [|exact Hall]. subst got. rewrite length_take in *. lia.
      * cbn [spec_program]. fold got. rewrite Hprog. reflexivity.
Qed.

(** What the loop returns, its buffer apart, depends on the file only
    through the bytes that are still to be read, and not on the fuel once
    there is enough of it. *)
Lemma storeLoop_rest (fuel1 : nat) :
  forall fuel2 fs f1 f2 b1 b2 offset,
    drop (f_ptr f1) (f_data f1) = drop (f_ptr f2) (f_data f2) ->
    (length (drop (f_ptr f1) (f_data f1)) < fuel1)%nat ->
    (length (drop (f_ptr f1) (f_data f1)) < fuel2)%nat ->
    loop_outcome <$> storeLoop fuel1 fs f1 b1 offset
    = loop_outcome <$> storeLoop fuel2 fs f2 b2 offset.
Proof.
  induction fuel1 as [|fuel1 IH];
    intros [|fuel2] fs f1 f2 b1 b2 offset Hrest H1 H2; try lia.
  rewrite !storeLoop_S. unfold f_read. rewrite <- Hrest.
  destruct (next_fault fs) as [r fs1].
  destruct (Z.eqb_spec r FR_OK) as [->|E]; cbn [negb].
  - cbn [Z.eqb FR_OK negb].
    set (rest := drop (f_ptr f1) (f_data f1)) in *.
    set (got := take FLASH_SECTOR_SIZE rest) in *.
    destruct (Nat.eqb_spec (length got) 0) as [E0|E0]; [reflexivity|].
    match goal with
    | |- context [storeLoop fuel1 fs1 ?fa ?ba ?oa] =>
        match goal with
        | |- context [storeLoop fuel2 fs1 ?fb ?bb _] =>
            specialize (IH fuel2 fs1 fa fb ba bb oa)
        end
    end.
    cbn [f_ptr f_data] in IH. rewrite <- !drop_drop, <- Hrest in IH.
    fold rest in IH.
    assert (Hlen : (length (drop (length got) rest) < length rest)%nat).
    { rewrite length_drop. subst got. rewrite length_take in *. lia. }
    specialize (IH eq_refl ltac:(lia) ltac:(lia)).
    destruct (storeLoop fuel1 fs1 _ _ _) as [[[[[? ?] ?] ?] ?]|];
      destruct (storeLoop fuel2 fs1 _ _ _) as [[[[[? ?] ?] ?] ?]|];
      cbn in IH |- *; congruence.
  - apply Z.eqb_neq in E. rewrite E. reflexivity.
Qed.

(** On a medium that reports no error the loop ends with [FR_OK]. *)
Lemma storeLoop_clean (fuel : nat) :
  forall fs file buffer offset,
    faults fs = [] ->
    (length (drop (f_ptr file) (f_data file)) < fuel)%nat ->
    exists buffer' offset' ops,
      storeLoop fuel fs file buffer offset
      = Some (FR_OK, fs, buffer', offset', ops).
Proof.
  induction fuel as [|fuel IH]; intros fs file buffer offset Hf Hfuel; [lia|].
  rewrite storeLoop_S. unfold f_read, next_fault. rewrite Hf.
  cbn [Z.eqb FR_OK negb].
  set (got := take FLASH_SECTOR_SIZE (drop (f_ptr file) (f_data file))).
  destruct (Nat.eqb_spec (length got) 0) as [E|E]; [eauto|].
  match goal with
  | |- context [storeLoop fuel fs ?f ?b ?o] =>
      destruct (IH fs f b o Hf) as (b' & o' & ops & ->); [|eauto]
  end.
  cbn [f_ptr f_data]. subst got.
  rewrite length_take, !length_drop in *. lia.
Qed.

(** ** C1 *)


(** ** C2 *)

Lemma payload_not_headed (k : nat) (payload : list ascii) :
  (4 < FLASH_SECTOR_SIZE)%nat -> (1 <= k)%nat ->
  length payload = (k * FLASH_SECTOR_SIZE)%nat ->
  has_zero_header payload = false.
Proof.
  intros H4 Hk Hlen. unfold has_zero_header. rewrite Hlen.
  assert (Hmod : ((k * FLASH_SECTOR_SIZE - 4) mod FLASH_SECTOR_SIZE
                  = FLASH_SECTOR_SIZE - 4)%nat).
  { symmetry. apply (Nat.mod_unique _ _ (k - 1)); [lia|].
    destruct k as [|k]; [lia|]. cbn [Nat.sub]. rewrite Nat.sub_0_r.
    rewrite Nat.mul_succ_l, (Nat.mul_comm k). lia. }
  rewrite Hmod.
  destruct (Nat.eqb_spec (FLASH_SECTOR_SIZE - 4) 0) as [E|E]; [lia|].
  rewrite andb_false_r. reflexivity.
Qed.

Lemma headed_payload (k : nat) (hdr payload : list ascii) :
  (1 <= k)%nat -> length hdr = 4%nat ->
  length payload = (k * FLASH_SECTOR_SIZE)%nat ->
  has_zero_header (hdr ++ payload) = is_zero_header hdr.
Proof.
  intros Hk Hh Hlen. unfold has_zero_header.
  rewrite length_app, Hh, Hlen, is_zero_header_app by exact Hh.
  replace (4 + k * FLASH_SECTOR_SIZE - 4)%nat
    with (k * FLASH_SECTOR_SIZE)%nat by lia.
  rewrite Nat.Div0.mod_mul.
  destruct (Nat.ltb_spec 4 (4 + k * FLASH_SECTOR_SIZE)) as [_|Hge]; [reflexivity|].
  destruct k; [lia|]. rewrite Nat.mul_succ_l in Hge. lia.
Qed.

Lemma skip_header_clean (fs : FatFs) (data buffer : list ascii) :
  faults fs = [] ->
  exists file' buffer',
    skip_header fs {| f_data := data; f_ptr := 0 |} buffer
    = inr (fs, file', buffer')
    /\ drop (f_ptr file') (f_data file') = payload_of data.
Proof.
  intros Hf.
  destruct (skip_header_cases fs data buffer)
    as [(r & fs2 & Hr & Hsk)|(fs2 & file2 & buffer2 & Hsk & _ & Hrest & Hfs)].
  - exfalso. revert Hsk.
    unfold skip_header, f_read, f_lseek, next_fault. rewrite Hf.
    cbn [Z.eqb FR_OK negb orb f_data f_ptr faults].
    destruct (_ && _)%bool; [|discriminate].
    destruct (negb _); [intros [= <- _]; apply Hr; reflexivity|].
    destruct (is_zero_header _); [discriminate|].
    rewrite Hf. cbn [Z.eqb FR_OK negb]. discriminate.
  - rewrite (Hfs Hf) in Hsk. eauto.
Qed.

(** On a medium that reports no error, the call succeeds, and what it
    programs is what the loop programs when started on the payload of the
    file alone. *)
Lemma storeFileToFlash_clean (fs : FatFs) (filename : string)
    (flashAddress : Z) (buffer data : list ascii) :
  faults fs = [] -> files fs !! filename = Some data ->
  exists offset' ops,
    storeFileToFlash fs filename flashAddress buffer = Some (FR_OK, fs, ops)
    /\ forall fuel buffer', (length (payload_of data) < fuel)%nat ->
         loop_outcome <$>
           storeLoop fuel fs {| f_data := payload_of data; f_ptr := 0 |}
             buffer' (wrap32 (flashAddress - XIP_BASE))
         = Some (FR_OK, fs, offset', ops).
Proof.
  intros Hf Hd. unfold storeFileToFlash, f_open, next_fault.
  rewrite Hf, Hd. cbn [Z.eqb FR_OK negb].
  destruct (skip_header_clean fs data buffer Hf)
    as (file2 & buffer2 & -> & Hrest).
  assert (Hfuel : (length (drop (f_ptr file2) (f_data file2))
                   < S (f_size file2))%nat).
  { unfold f_size. rewrite length_drop. lia. }
  destruct (storeLoop_clean _ fs file2 buffer2
              (wrap32 (flashAddress - XIP_BASE)) Hf Hfuel)
    as (b' & o' & ops & Hloop).
  rewrite Hloop. exists o', ops. split; [reflexivity|].
  intros fuel buffer' Hlt.
  rewrite (storeLoop_rest fuel (S (f_size file2)) fs _ file2 buffer' buffer2).
  - rewrite Hloop. reflexivity.
  - cbn [f_ptr f_data]. rewrite drop_0. symmetry. exact Hrest.
  - cbn [f_ptr f_data]. rewrite drop_0. exact Hlt.
  - cbn [f_ptr f_data]. rewrite drop_0, <- Hrest. exact Hfuel.
Qed.

(** C2. Let the sector be larger than the 4-byte header. A file of
    [4 + k] sectors ([k >= 1]) that starts with four zero bytes is
    programmed exactly as the file of its last [k] sectors alone: the same
    flash calls with the same offsets and bytes. If the four leading bytes
    are not all zero they are payload like the rest: the chunks programmed
    make up the whole file. The medium reports no error. *)
Theorem storeFileToFlash_zero_header :
  forall (k : nat) (hdr payload : list ascii) (fs : FatFs)
         (headed : string) (flashAddress : Z) (buffer : list ascii),
    (4 < FLASH_SECTOR_SIZE)%nat -> (1 <= k)%nat ->
    length hdr = 4%nat ->
    length payload = (k * FLASH_SECTOR_SIZE)%nat ->
    faults fs = [] ->
    files fs !! headed = Some (hdr ++ payload) ->
    (hdr = zero_header ->
     forall (bare : string) (buffer' : list ascii),
       files fs !! bare = Some payload ->
       exists ops,
         storeFileToFlash fs headed flashAddress buffer
         = Some (FR_OK, fs, ops)
         /\ storeFileToFlash fs bare flashAddress buffer'
            = Some (FR_OK, fs, ops))
    /\ (hdr <> zero_header ->
        exists ops chunks,
          storeFileToFlash fs headed flashAddress buffer
          = Some (FR_OK, fs, ops)
          /\ concat chunks = hdr ++ payload
          /\ Forall (fun c => (0 < length c <= FLASH_SECTOR_SIZE)%nat) chunks
          /\ snd (spec_program (wrap32 (flashAddress - XIP_BASE)) chunks)
             = ops).
Proof.
  intros k hdr payload fs headed flashAddress buffer H4 Hk Hh Hlen Hf Hd.
  destruct (storeFileToFlash_clean fs headed flashAddress buffer _ Hf Hd)
    as (o1 & ops1 & Hrun1 & Hcanon1).
  split.
  - intros -> bare buffer' Hd'.
    destruct (storeFileToFlash_clean fs bare flashAddress buffer' _ Hf Hd')
      as (o2 & ops2 & Hrun2 & Hcanon2).
    exists ops1. split; [exact Hrun1|]. rewrite Hrun2.
    assert (Hp1 : payload_of (zero_header ++ payload) = payload).
    { unfold payload_of. rewrite (headed_payload k) by assumption.
      reflexivity. }
    assert (Hp2 : payload_of payload = payload).
    { unfold payload_of. rewrite (payload_not_headed k) by assumption.
      reflexivity. }
    rewrite Hp1 in Hcanon1. rewrite Hp2 in Hcanon2.
    specialize (Hcanon1 (S (length payload)) [] ltac:(lia)).
    specialize (Hcanon2 (S (length payload)) [] ltac:(lia)).
    congruence.
  - intros Hnz.
    assert (Hp : payload_of (hdr ++ payload) = hdr ++ payload).
    { unfold payload_of. rewrite (headed_payload k) by assumption.
      destruct (is_zero_header hdr) eqn:Hz; [|reflexivity].
      exfalso. apply Hnz.
      destruct hdr as [|a [|b [|c [|d [|e hdr]]]]]; try discriminate.
      cbn [is_zero_header] in Hz.
      repeat (apply andb_prop in Hz; destruct Hz as [Hz ?]).
      repeat match goal with
             | H : Ascii.eqb _ _ = true |- _ => apply Ascii.eqb_eq in H
             end.
      subst. reflexivity. }
    rewrite Hp in Hcanon1.
    specialize (Hcanon1 (S (length (hdr ++ payload))) [] ltac:(lia)).
    destruct (storeLoop _ fs _ [] _)
      as [[[[[r1 r2] r3] r4] r5]|] eqn:Hloop; [|discriminate].
    cbn in Hcanon1. injection Hcanon1 as -> -> -> ->.
    apply storeLoop_ok in Hloop. destruct Hloop as (chunks & Hcat & Hall & Hprog).
    cbn [f_ptr f_data] in Hcat. rewrite drop_0 in Hcat.
    exists ops1, chunks. rewrite Hprog. auto.
Qed.

End Provisioning.

(** ** Properties of the catalog *)

Section Sorting.

Context {A : Type} (compar : A -> A -> Z).

Hypothesis compar_trans :
  forall x y z, compar x y <= 0 -> compar y z <= 0 -> compar x z <= 0.

Hypothesis compar_total : forall x y, compar x y <= 0 \/ compar y x <= 0.

Lemma qsort_insert_perm (x : A) (l : list A) :
  Permutation (qsort_insert compar x l) (x :: l).
Proof.
  induction l as [|y l IH]; cbn [qsort_insert]; [reflexivity|].
  destruct (compar x y <=? 0); [reflexivity|].
  rewrite IH. apply perm_swap.
Qed.

Lemma qsort_perm (l : list A) : Permutation (qsort compar l) l.
Proof.
  induction l as [|x l IH]; cbn [qsort foldr]; [reflexivity|].
  fold (qsort compar l). rewrite qsort_insert_perm, IH. reflexivity.
Qed.

Lemma qsort_insert_ordered (x : A) (l : list A) :
  StronglySorted (fun a b => compar a b <= 0) l ->
  StronglySorted (fun a b => compar a b <= 0) (qsort_insert compar x l).
Proof.
  induction l as [|y l IH]; intros Hs; cbn [qsort_insert].
  - repeat constructor.
  - apply StronglySorted_inv in Hs. destruct Hs as [Hl Hy].
    destruct (Z.leb_spec (compar x y) 0) as [Hxy|Hxy].
    + constructor; [constructor; assumption|].
      constructor; [exact Hxy|].
      eapply Forall_impl; [exact Hy|]. cbn. intros z Hz.
      exact (compar_trans _ _ _ Hxy Hz).
    + constructor; [apply IH, Hl|].
      eapply Permutation_Forall;
        [symmetry; apply qsort_insert_perm|].
      constructor; [|exact Hy].
      destruct (compar_total x y); [lia|assumption].
Qed.

Lemma qsort_ordered (l : list A) :
  StronglySorted (fun a b => compar a b <= 0) (qsort compar l).
Proof.
  induction l as [|x l IH]; cbn [qsort foldr]; [constructor|].
  apply qsort_insert_ordered, IH.
Qed.

End Sorting.

Lemma tolower_code_zero (c : ascii) : code (tolower c) = 0 <-> code c = 0.
Proof.
  destruct c as [[] [] [] [] [] [] [] []]; vm_compute; split; congruence.
Qed.

Lemma code_nonneg (c : ascii) : 0 <= code c.
Proof. unfold code. lia. Qed.

Lemma strcasecmp_trans (a : string) :
  forall b c,
    strcasecmp a b <= 0 -> strcasecmp b c <= 0 -> strcasecmp a c <= 0.
Proof.
  induction a as [|ca a IH]; intros [|cb b] [|cc c]; cbn [strcasecmp];
    intros H1 H2;
    try pose proof (code_nonneg (tolower ca));
    try pose proof (code_nonneg (tolower cb));
    try pose proof (code_nonneg (tolower cc));
    try pose proof (tolower_code_zero ca);
    try pose proof (tolower_code_zero cb);
    try pose proof (tolower_code_zero cc);
    try lia.
  - destruct (Z.eqb_spec (code (tolower ca) - code (tolower cc)) 0);
      cbn [negb]; [|lia].
    destruct (Z.eqb_spec (code ca) 0); lia.
  - destruct (Z.eqb_spec (code (tolower ca) - code (tolower cb)) 0);
      cbn [negb] in H1; lia.
  - destruct (Z.eqb_spec (code (tolower ca) - code (tolower cb)) 0);
      destruct (Z.eqb_spec (code (tolower cb) - code (tolower cc)) 0);
      destruct (Z.eqb_spec (code (tolower ca) - code (tolower cc)) 0);
      cbn [negb] in *; try lia.
    destruct (Z.eqb_spec (code ca) 0); [lia|].
    destruct (Z.eqb_spec (code cb) 0); [lia|].
    eapply IH; eassumption.
Qed.

Lemma strcasecmp_total (a : string) :
  forall b, strcasecmp a b <= 0 \/ strcasecmp b a <= 0.
Proof.
  induction a as [|ca a IH]; intros [|cb b]; cbn [strcasecmp];
    try pose proof (code_nonneg (tolower ca));
    try pose proof (code_nonneg (tolower cb));
    try pose proof (tolower_code_zero ca);
    try pose proof (tolower_code_zero cb);
    try lia.
  destruct (Z.eqb_spec (code (tolower ca) - code (tolower cb)) 0);
    destruct (Z.eqb_spec (code (tolower cb) - code (tolower ca)) 0);
    cbn [negb]; try lia.
  destruct (Z.eqb_spec (code ca) 0); destruct (Z.eqb_spec (code cb) 0);
    try lia.
  apply IH.
Qed.

Lemma qsort_roms_sorted (n : Z) (arr : list ROM) :
  StronglySorted (fun romA romB => compareRoms romA romB <= 0)
    (take (Z.to_nat n) (qsort_roms n arr)).
Proof.
  unfold qsort_roms.
  assert (Hlen : length (qsort compareRoms (take (Z.to_nat n) arr))
                 = length (take (Z.to_nat n) arr)).
  { apply Permutation_length, qsort_perm. }
  assert (Htake :
    take (Z.to_nat n)
      (qsort compareRoms (take (Z.to_nat n) arr) ++ drop (Z.to_nat n) arr)
    = qsort compareRoms (take (Z.to_nat n) arr)).
  { destruct (Nat.le_gt_cases (Z.to_nat n) (length arr)) as [Hle|Hgt].
    - apply take_app_length'. rewrite Hlen, length_take. lia.
    - rewrite (drop_ge arr) by lia. rewrite app_nil_r.
      apply take_ge. rewrite Hlen, length_take. lia. }
  rewrite Htake. apply qsort_ordered.
  - intros x y z. apply strcasecmp_trans.
  - intros x y. apply strcasecmp_total.
Qed.

Lemma term_printStrings_fold (strs : list string) (s : Emul) :
  term_printStrings strs s
  = fold_left (fun s str => term_printString str s) strs s.
Proof.
  unfold term_printStrings. revert s.
  induction strs as [|str strs IH]; intros s; cbn [fold_left].
  - destruct s; unfold set_term; cbn. rewrite app_nil_r. reflexivity.
  - rewrite <- IH. destruct s; unfold set_term, term_printString; cbn.
    rewrite <- app_assoc. reflexivity.
Qed.

Lemma scan_dir_count (folder : string) (dir : list FILINFO) :
  forall s,
    0 <= romsCount s <= MAX_ROMS ->
    0 <= romsCount (scan_dir folder dir s) <= MAX_ROMS.
Proof.
  induction dir as [|fno dir IH]; intros s Hs; cbn [scan_dir];
    destruct (next_fault (fatfs s)) as [res fs]; [exact Hs|].
  cbn zeta.
  repeat match goal with
         | |- context [if ?b then _ else _] => destruct b eqn:?
         end;
    try exact Hs; try (apply IH; exact Hs).
  apply IH. cbn. apply Z.ltb_lt in Heqb3. cbn in Heqb3. lia.
Qed.

Lemma csv_lines_count (lines : list string) :
  forall lineNum s,
    0 <= romsCount s <= MAX_ROMS ->
    0 <= romsCount (csv_lines lines lineNum s) <= MAX_ROMS.
Proof.
  induction lines as [|line lines IH]; intros lineNum s Hs; cbn [csv_lines];
    destruct (next_fault (fatfs s)) as [res fs]; [exact Hs|].
  cbn zeta.
  destruct (negb (res =? FR_OK)); [exact Hs|].
  destruct (is_empty (c_str line) || starts_with LF (c_str line));
    [apply IH; exact Hs|].
  destruct (extract_fields (c_str line)) as [fields|];
    [|apply IH; exact Hs].
  destruct (Z.ltb_spec (romsCount (set_fatfs fs s)) MAX_ROMS) as [Hlt|Hge];
    [|exact Hs].
  apply IH. cbn in *. lia.
Qed.

Lemma page_count_ceiling (n : Z) :
  0 <= n ->
  let pages := (n + MAX_ROMS_PER_PAGE - 1) `quot` MAX_ROMS_PER_PAGE in
  MAX_ROMS_PER_PAGE * (pages - 1) < n <= MAX_ROMS_PER_PAGE * pages.
Proof.
  intros Hn. cbn zeta. unfold MAX_ROMS_PER_PAGE.
  rewrite Z.quot_div_nonneg by lia.
  pose proof (Z.div_mod (n + 20 - 1) 20 ltac:(lia)).
  pose proof (Z.mod_pos_bound (n + 20 - 1) 20 ltac:(lia)).
  lia.
Qed.

Lemma menu_frame (s : Emul) :
  engine (menu s) = engine s
  /\ downloadRomSelected (menu s) = downloadRomSelected s
  /\ aconfig (menu s) = aconfig s.
Proof. unfold menu, showTitle. repeat split; frame; reflexivity. Qed.

Lemma displayRomsPage_frame (n pageSize pageNumber : Z) (s : Emul) :
  currentRomPage (displayRomsPage n pageSize pageNumber s) = pageNumber
  /\ maxRomPages (displayRomsPage n pageSize pageNumber s) = maxRomPages s
  /\ romsCount (displayRomsPage n pageSize pageNumber s) = romsCount s
  /\ downloadRomSelected (displayRomsPage n pageSize pageNumber s)
     = downloadRomSelected s.
Proof.
  unfold displayRomsPage. destruct (page_bounds _ _ _).
  repeat split; frame; reflexivity.
Qed.

Lemma navigatePages_frame (pageNumber : Z) (s : Emul) :
  currentRomPage (navigatePages pageNumber s) = pageNumber
  /\ maxRomPages (navigatePages pageNumber s) = maxRomPages s
  /\ romsCount (navigatePages pageNumber s) = romsCount s
  /\ downloadRomSelected (navigatePages pageNumber s) = downloadRomSelected s.
Proof.
  pose proof (displayRomsPage_frame (romsCount s) MAX_ROMS_PER_PAGE
                pageNumber (term_printString (String ESC "E") s))
    as (H1 & H2 & H3 & H4).
  unfold navigatePages.
  repeat split; frame; first [exact H1|exact H2|exact H3|exact H4].
Qed.

Lemma navigate_page_in_range (s : Emul) (n : navigation) :
  page_in_range s ->
  page_in_range (navigate s n)
  /\ maxRomPages (navigate s n) = maxRomPages s
  /\ romsCount (navigate s n) = romsCount s.
Proof.
  unfold page_in_range. intros Hs.
  destruct n as [arg|arg]; cbn [navigate]; unfold cmdNext, cmdPrev.
  - destruct (Z.ltb_spec (currentRomPage s) (maxRomPages s - 1)).
    + destruct (navigatePages_frame
                  (currentRomPage (set_currentRomPage (currentRomPage s + 1) s))
                  (set_currentRomPage (currentRomPage s + 1) s))
        as (-> & -> & -> & _).
      emul_simpl. lia.
    + destruct (navigatePages_frame (currentRomPage s) s) as (-> & -> & -> & _).
      lia.
  - cbn zeta.
    destruct (Z.ltb_spec
                (currentRomPage (set_currentRomPage (currentRomPage s - 1) s))
                0) as [Hneg|Hpos].
    + match goal with
      | |- context [navigatePages ?p ?t] =>
          destruct (navigatePages_frame p t) as (-> & -> & -> & _)
      end.
      emul_simpl. lia.
    + match goal with
      | |- context [navigatePages ?p ?t] =>
          destruct (navigatePages_frame p t) as (-> & -> & -> & _)
      end.
      emul_simpl. emul_simpl in Hpos. lia.
Qed.

(** When the folder does not open, [readRomsSdcard] only logs the error:
    the catalog, its count included, is what it was before the call. *)
Lemma readRomsSdcard_open_failure (folder : string) (s : Emul) :
  fst (fst (f_opendir (fatfs s) folder)) <> FR_OK ->
  romsCount (readRomsSdcard folder s) = romsCount s
  /\ roms (readRomsSdcard folder s) = roms s
  /\ maxRomPages (readRomsSdcard folder s) = maxRomPages s
  /\ debug (readRomsSdcard folder s)
     = debug s ++ [("Error opening directory %s: %d" +:+ nl,
                    [arg_s folder; arg_d (fst (fst (f_opendir (fatfs s) folder)))])].
Proof.
  intros Hfail. unfold readRomsSdcard.
  destruct (f_opendir (fatfs s) folder) as [[res dir] fs]. cbn [fst] in *.
  rewrite (neq_FR_OK res Hfail). repeat split.
Qed.

(** When the document does not open, [readRomsCsv] has already reset the
    count, and leaves the page count as it was. *)
Lemma readRomsCsv_open_failure (csvFilepath : string) (s : Emul) :
  fst (fst (f_open (fatfs s) csvFilepath)) <> FR_OK ->
  romsCount (readRomsCsv csvFilepath s) = 0
  /\ maxRomPages (readRomsCsv csvFilepath s) = maxRomPages s.
Proof.
  intros Hfail. unfold readRomsCsv. emul_simpl.
  destruct (f_open (fatfs s) csvFilepath) as [[res csvFile] fs]. cbn [fst] in *.
  rewrite (neq_FR_OK res Hfail). split; reflexivity.
Qed.

Lemma navigatePages_roms (pageNumber : Z) (s : Emul) :
  roms (navigatePages pageNumber s) = roms s.
Proof.
  unfold navigatePages, displayRomsPage. destruct (page_bounds _ _ _).
  frame; reflexivity.
Qed.

Lemma navigate_roms (s : Emul) (n : navigation) :
  roms (navigate s n) = roms s.
Proof.
  destruct n as [arg|arg]; cbn [navigate]; unfold cmdNext, cmdPrev; cbv zeta;
    rewrite navigatePages_roms; frame; reflexivity.
Qed.

Lemma scan_dir_page (folder : string) (dir : list FILINFO) :
  forall s, currentRomPage (scan_dir folder dir s) = currentRomPage s.
Proof.
  induction dir as [|fno dir IH]; intros s; cbn [scan_dir];
    destruct (next_fault (fatfs s)) as [res fs]; [reflexivity|].
  cbv zeta. split_ifs; rewrite ?IH; reflexivity.
Qed.

Lemma readRomsSdcard_page (folder : string) (s : Emul) :
  currentRomPage (readRomsSdcard folder s) = currentRomPage s.
Proof.
  unfold readRomsSdcard.
  destruct (f_opendir (fatfs s) folder) as [[res dir] fs].
  destruct (negb (res =? FR_OK)); [reflexivity|].
  emul_simpl. rewrite scan_dir_page. reflexivity.
Qed.

(** A local scan that opens its folder. *)
Lemma readRomsSdcard_catalog_ok (folder : string) (s : Emul) :
  sd_opens folder s -> catalog_ok (readRomsSdcard folder s).
Proof.
  unfold sd_opens. intros Hopen. unfold readRomsSdcard.
  destruct (f_opendir (fatfs s) folder) as [[res dir] fs].
  cbn [fst] in Hopen. subst res. cbn [Z.eqb FR_OK negb].
  set (s1 := scan_dir folder dir (set_romsCount 0 (set_fatfs fs s))).
  assert (Hc : 0 <= romsCount s1 <= MAX_ROMS).
  { apply scan_dir_count. cbn. unfold MAX_ROMS. lia. }
  unfold catalog_ok, catalog_sorted. cbn.
  split; [apply qsort_roms_sorted|]. split; [exact Hc|].
  apply page_count_ceiling. lia.
Qed.

(** A remote parse that opens its document and reads the header line. *)
Lemma readRomsCsv_catalog_ok (csvFilepath : string) (s : Emul) :
  csv_opens csvFilepath s -> catalog_ok (readRomsCsv csvFilepath s).
Proof.
  intros Hopen.
  unfold csv_opens in Hopen. unfold readRomsCsv. cbn [fatfs set_romsCount].
  destruct (f_open (fatfs s) csvFilepath) as [[res csvFile] fs].
  destruct Hopen as (-> & Hhdr & Hlines). cbn [Z.eqb FR_OK negb].
  cbn [fatfs set_fatfs].
  destruct (next_fault fs) as [res fs1]. cbn [fst] in Hhdr. subst res.
  destruct (gets_lines _ _ _ _) as [|header lines]; [congruence|].
  cbn [Z.eqb FR_OK negb].
  match goal with
  | |- context [csv_lines lines 0 ?t] => set (s1 := csv_lines lines 0 t)
  end.
  assert (Hc : 0 <= romsCount s1 <= MAX_ROMS).
  { apply csv_lines_count. cbn. unfold MAX_ROMS. lia. }
  unfold catalog_ok, catalog_sorted. cbn.
  split; [apply qsort_roms_sorted|]. split; [exact Hc|].
  apply page_count_ceiling. lia.
Qed.

(** What the catalog is judged by. *)
Lemma catalog_ok_frame (s s' : Emul) :
  roms s' = roms s ->
  romsCount s' = romsCount s ->
  maxRomPages s' = maxRomPages s ->
  catalog_ok s -> catalog_ok s'.
Proof.
  unfold catalog_ok, catalog_sorted. intros -> -> ->. auto.
Qed.

(** The network command: the catalog is the one that the parse of
    /roms/roms.csv leaves, the current page is 0. *)
Lemma cmdNetwork_catalog (arg : string) (s : Emul) :
  roms (cmdNetwork arg s) = roms (readRomsCsv "/roms/roms.csv" s)
  /\ romsCount (cmdNetwork arg s) = romsCount (readRomsCsv "/roms/roms.csv" s)
  /\ maxRomPages (cmdNetwork arg s)
     = maxRomPages (readRomsCsv "/roms/roms.csv" s)
  /\ currentRomPage (cmdNetwork arg s) = 0.
Proof.
  unfold cmdNetwork. cbv zeta.
  rewrite navigatePages_roms.
  match goal with
  | |- context [navigatePages ?p ?t] =>
      destruct (navigatePages_frame p t) as (-> & -> & -> & _)
  end.
  repeat split.
Qed.

(** The card command: the catalog is the one that the scan of the folder
    leaves; the current page is 0 if the catalog has an entry, and is left
    as it was if it has none. *)
Lemma cmdCard_catalog (arg : string) (s : Emul) :
  roms (cmdCard arg s) = roms (readRomsSdcard (romsFolder s) s)
  /\ romsCount (cmdCard arg s) = romsCount (readRomsSdcard (romsFolder s) s)
  /\ maxRomPages (cmdCard arg s)
     = maxRomPages (readRomsSdcard (romsFolder s) s)
  /\ currentRomPage (cmdCard arg s)
     = if romsCount (cmdCard arg s) =? 0 then currentRomPage s else 0.
Proof.
  pose proof (readRomsSdcard_page (romsFolder s) s) as Hpage.
  unfold cmdCard. cbv zeta. emul_simpl.
  destruct (romsCount (readRomsSdcard (romsFolder s) s) =? 0) eqn:Hcount.
  - emul_simpl. rewrite Hcount. auto.
  - rewrite navigatePages_roms.
    match goal with
    | |- context [navigatePages ?p ?t] =>
        destruct (navigatePages_frame p t) as (-> & -> & -> & _)
    end.
    emul_simpl. rewrite Hcount. auto.
Qed.

(** C3, as amended. A local scan that opens its folder, and a remote
    parse that opens its document and reads the header line, leave the
    first [romsCount] entries in case-insensitive order of filename,
    [romsCount] at most [MAX_ROMS], and [maxRomPages] the least number of
    pages of [MAX_ROMS_PER_PAGE] entries that hold [romsCount] entries, and
    so do the two commands that run them. The network command leaves the
    current page 0; the card command leaves it 0 when the catalog has an
    entry afterwards, and as it was when it has none. Page 0 is at least 0
    and below [max 1 maxRomPages] (it is the one page of an empty catalog),
    and any sequence of next and previous commands keeps a current page
    that is within these bounds within them, and changes neither the
    catalog nor the entry count nor the page count. *)
Theorem catalog_invariant :
  (forall folder s,
      sd_opens folder s -> catalog_ok (readRomsSdcard folder s))
  /\ (forall csvFilepath s,
         csv_opens csvFilepath s -> catalog_ok (readRomsCsv csvFilepath s))
  /\ (forall arg s,
         currentRomPage (cmdNetwork arg s) = 0
         /\ page_in_range (cmdNetwork arg s)
         /\ (csv_opens "/roms/roms.csv" s -> catalog_ok (cmdNetwork arg s)))
  /\ (forall arg s,
         (romsCount (cmdCard arg s) <> 0 -> currentRomPage (cmdCard arg s) = 0)
         /\ (romsCount (cmdCard arg s) <> 0 \/ currentRomPage s = 0 ->
             page_in_range (cmdCard arg s))
         /\ (sd_opens (romsFolder s) s -> catalog_ok (cmdCard arg s)))
  /\ (forall (navs : list navigation) (s : Emul),
         page_in_range s ->
         page_in_range (fold_left navigate navs s)
         /\ roms (fold_left navigate navs s) = roms s
         /\ maxRomPages (fold_left navigate navs s) = maxRomPages s
         /\ romsCount (fold_left navigate navs s) = romsCount s).
Proof.
  split; [|split; [|split; [|split]]].
  - exact readRomsSdcard_catalog_ok.
  - exact readRomsCsv_catalog_ok.
  - intros arg s.
    destruct (cmdNetwork_catalog arg s) as (Hroms & Hcount & Hpages & Hpage).
    split; [exact Hpage|]. split.
    + unfold page_in_range. rewrite Hpage. lia.
    + intros Hopen.
      apply (catalog_ok_frame (readRomsCsv "/roms/roms.csv" s));
        [exact Hroms|exact Hcount|exact Hpages|].
      apply readRomsCsv_catalog_ok. exact Hopen.
  - intros arg s.
    destruct (cmdCard_catalog arg s) as (Hroms & Hcount & Hpages & Hpage).
    split; [|split].
    + intros Hsome. rewrite Hpage.
      destruct (Z.eqb_spec (romsCount (cmdCard arg s)) 0); [contradiction|].
      reflexivity.
    + unfold page_in_range. rewrite Hpage.
      destruct (Z.eqb_spec (romsCount (cmdCard arg s)) 0);
        intros [Hsome|Hzero]; try contradiction; lia.
    + intros Hopen.
      apply (catalog_ok_frame (readRomsSdcard (romsFolder s) s));
        [exact Hroms|exact Hcount|exact Hpages|].
      apply readRomsSdcard_catalog_ok. exact Hopen.
  - induction navs as [|n navs IH]; intros s Hs; cbn [fold_left]; [auto|].
    destruct (navigate_page_in_range s n Hs) as (H1 & H2 & H3).
    pose proof (navigate_roms s n) as H0.
    destruct (IH _ H1) as (H4 & H5 & H6 & H7).
    split; [exact H4|]. repeat split; congruence.
Qed.

(** ** Properties of the download step *)

Lemma romDownloadUpdate_frame (s : Emul) :
  engine (romDownloadUpdate s) = engine s
  /\ downloadRomSelected (romDownloadUpdate s) = downloadRomSelected s.
Proof.
  unfold romDownloadUpdate.
  destruct (0 <? downloadRomSelected s); [|split; reflexivity].
  cbv zeta.
  match goal with
  | |- context [menu ?t] => destruct (menu_frame t) as (-> & -> & _)
  end.
  split; reflexivity.
Qed.

(** C6. One pass of the [switch] on the download status, at clock reading
    [now]. Requested: the resume time becomes [now] plus 3 seconds and the
    status NotStarted, and nothing else happens. NotStarted: as long as
    the clock has not passed the resume time nothing happens at all, in
    particular [download_start] is not invoked; once it has, it is invoked
    once. Completed: [download_finish] and [download_confirm] are invoked,
    once each and in this order, and the status is Idle afterwards, so
    that the following passes, which observe Idle, do nothing. *)
Theorem download_step_machine (now startDownloadTime : Z) (s : Emul) :
  (dl_status (engine s) = DOWNLOAD_STATUS_REQUESTED ->
   download_step now startDownloadTime s
   = (now + 3 * 1000 * 1000,
      set_engine
        (download_setStatus (engine s) DOWNLOAD_STATUS_NOT_STARTED) s))
  /\ (dl_status (engine s) = DOWNLOAD_STATUS_NOT_STARTED ->
      (now <= startDownloadTime ->
       download_step now startDownloadTime s = (startDownloadTime, s))
      /\ (startDownloadTime < now ->
          dl_calls (engine (snd (download_step now startDownloadTime s)))
          = dl_calls (engine s) ++ [call_start]))
  /\ (dl_status (engine s) = DOWNLOAD_STATUS_COMPLETED ->
      let s' := snd (download_step now startDownloadTime s) in
      fst (download_step now startDownloadTime s) = startDownloadTime
      /\ dl_status (engine s') = DOWNLOAD_STATUS_IDLE
      /\ dl_calls (engine s')
         = dl_calls (engine s) ++ [call_finish; call_confirm]
      /\ forall now', download_step now' startDownloadTime s'
                      = (startDownloadTime, s')).
Proof.
  unfold download_step, download_getStatus. split; [|split].
  - intros ->. reflexivity.
  - intros ->. unfold absolute_time_diff_us. split; intros Ht.
    + destruct (Z.ltb_spec (startDownloadTime - now) 0); [lia|reflexivity].
    + destruct (Z.ltb_spec (startDownloadTime - now) 0); [|lia].
      unfold download_start.
      destruct (download_start_outcome (engine s)) as [err st].
      destruct (negb (err =? DOWNLOAD_OK)); reflexivity.
  - intros ->. cbn [fst snd].
    destruct (romDownloadUpdate_frame
                (set_engine
                   (download_setStatus
                      (engine (download_confirm (download_finish s)))
                      DOWNLOAD_STATUS_IDLE)
                   (download_confirm (download_finish s)))) as [Heng _].
    split; [reflexivity|]. rewrite Heng. split; [reflexivity|].
    split; [cbn; rewrite <- app_assoc; reflexivity|].
    intros now'. reflexivity.
Qed.

(** ** Properties of the command handlers *)

(** C9. The launch command always returns. Without a selected ROM it
    leaves the settings, the keep-running flag and the flash alone. With
    one, it calls [storeFileToFlash] once, on the selected file: the flash
    calls and the volume afterwards are those of that single call. If the
    call returns an error, the settings, in memory and as saved, and the
    keep-running flag are what they were; if it returns [FR_OK], the
    device mode is written and saved and the keep-running flag cleared. *)
Theorem cmdLaunch_outcome (arg : string) (s : Emul) :
  exists s',
    cmdLaunch arg s = Some s'
    /\ match settings_find_entry (aconfig s) ACONFIG_PARAM_ROM_SELECTED with
       | None =>
           aconfig s' = aconfig s /\ keepActive s' = keepActive s
           /\ flash s' = flash s /\ fatfs s' = fatfs s
       | Some value =>
           exists fresult fs ops,
             storeFileToFlash (fatfs s)
               (snprintf MAX_PATH_SIZE (romsFolder s +:+ "/" +:+ value))
               (wrap32 _rom_temp_start) stack_garbage
             = Some (fresult, fs, ops)
             /\ fatfs s' = fs
             /\ flash s' = flash s ++ ops
             /\ (fresult <> FR_OK ->
                 aconfig s' = aconfig s /\ keepActive s' = keepActive s)
             /\ (fresult = FR_OK ->
                 aconfig s'
                 = settings_save
                     (settings_put_integer (aconfig s) ACONFIG_PARAM_ROM_MODE
                        (if delayMode s then ROM_MODE_DELAY
                         else ROM_MODE_DIRECT))
                 /\ keepActive s' = false)
       end.
Proof.
  unfold cmdLaunch. cbv zeta.
  assert (Hcfg : forall t : Emul,
             aconfig
               (term_printString
                  ("If ROM doesn't boot, reset the computer" +:+ nl)
                  (term_printString
                     ("To return to this menu, press SELECT" +:+ nl) t))
             = aconfig t) by reflexivity.
  set (s0 := term_printString ("The ROM will boot shortly..." +:+ nl +:+ nl)
               (set_menuLevel TERM_ROMS_MENU_LAUNCH s)).
  set (s1 := if delayMode s0 then _ else s0).
  assert (H1 : aconfig s1 = aconfig s /\ keepActive s1 = keepActive s
               /\ flash s1 = flash s /\ fatfs s1 = fatfs s
               /\ romsFolder s1 = romsFolder s /\ delayMode s1 = delayMode s).
  { subst s1 s0. emul_simpl. destruct (delayMode s) eqn:E; emul_simpl;
      rewrite ?E; repeat split; reflexivity. }
  destruct H1 as (Ha & Hk & Hf & Hfs & Hr & Hd).
  set (s2 := term_printString _ (term_printString _ s1)).
  assert (H2 : aconfig s2 = aconfig s /\ keepActive s2 = keepActive s
               /\ flash s2 = flash s /\ fatfs s2 = fatfs s
               /\ romsFolder s2 = romsFolder s /\ delayMode s2 = delayMode s).
  { subst s2. emul_simpl. auto 10. }
  clearbody s2. clear Ha Hk Hf Hfs Hr Hd Hcfg. clearbody s1. clear s1 s0.
  destruct H2 as (Ha & Hk & Hf & Hfs & Hr & Hd).
  rewrite Ha.
  destruct (settings_find_entry (aconfig s) ACONFIG_PARAM_ROM_SELECTED)
    as [value|].
  - emul_simpl. rewrite Hfs, Hr.
    destruct (storeFileToFlash_total (fatfs s)
                (snprintf MAX_PATH_SIZE (romsFolder s +:+ "/" +:+ value))
                (wrap32 _rom_temp_start) stack_garbage)
      as [[[fresult fs] ops] Hrun].
    rewrite Hrun.
    destruct (Z.eqb_spec fresult FR_OK) as [->|Hne]; cbn [negb].
    + eexists. split; [reflexivity|]. exists FR_OK, fs, ops.
      emul_simpl. rewrite Ha, Hf, Hd. repeat split; congruence.
    + eexists. split; [reflexivity|]. exists fresult, fs, ops.
      emul_simpl. rewrite Hf. repeat split; congruence.
  - eexists. split; [reflexivity|]. emul_simpl. auto.
Qed.

Lemma scan_dir_selected (folder : string) (dir : list FILINFO) :
  forall s,
    downloadRomSelected (scan_dir folder dir s) = downloadRomSelected s.
Proof.
  induction dir as [|fno dir IH]; intros s; cbn [scan_dir];
    destruct (next_fault (fatfs s)) as [res fs]; [reflexivity|].
  cbv zeta. split_ifs; rewrite ?IH; reflexivity.
Qed.

Lemma csv_lines_selected (lines : list string) :
  forall lineNum s,
    downloadRomSelected (csv_lines lines lineNum s) = downloadRomSelected s.
Proof.
  induction lines as [|line lines IH]; intros lineNum s; cbn [csv_lines];
    destruct (next_fault (fatfs s)) as [res fs]; [reflexivity|].
  cbv zeta. split_ifs; rewrite ?IH; reflexivity.
Qed.

Lemma readRomsSdcard_selected (folder : string) (s : Emul) :
  downloadRomSelected (readRomsSdcard folder s) = downloadRomSelected s.
Proof.
  unfold readRomsSdcard.
  destruct (f_opendir (fatfs s) folder) as [[res dir] fs].
  destruct (negb (res =? FR_OK)); [reflexivity|].
  emul_simpl. rewrite scan_dir_selected. reflexivity.
Qed.

Lemma readRomsCsv_selected (csvFilepath : string) (s : Emul) :
  downloadRomSelected (readRomsCsv csvFilepath s) = downloadRomSelected s.
Proof.
  unfold readRomsCsv. emul_simpl.
  destruct (f_open (fatfs s) csvFilepath) as [[res csvFile] fs].
  destruct (negb (res =? FR_OK)); [reflexivity|]. emul_simpl.
  destruct (next_fault fs) as [res' fs'].
  destruct (gets_lines _ _ _ _) as [|header lines]; [reflexivity|].
  destruct (negb (res' =? FR_OK)); [reflexivity|].
  emul_simpl. rewrite csv_lines_selected. reflexivity.
Qed.

(** What [cmdUnknown] does to the index. *)
Lemma cmdUnknown_selected (arg : string) (s : Emul) :
  downloadRomSelected (cmdUnknown arg s)
  = if (menuLevel s =? TERM_ROMS_MENU_BROWSE_NETWORK)
       && (0 <? atoi arg) && (atoi arg <=? romsCount s)
    then atoi arg - 1
    else downloadRomSelected s.
Proof.
  unfold cmdUnknown, invalid_rom_number.
  destruct (Z.eqb_spec (menuLevel s) TERM_ROMS_MENU_MAIN) as [E0|E0].
  { rewrite E0. cbn [Z.eqb TERM_ROMS_MENU_MAIN TERM_ROMS_MENU_BROWSE_NETWORK
                       andb].
    apply menu_frame. }
  destruct (Z.eqb_spec (menuLevel s) TERM_ROMS_MENU_BROWSE_SD) as [E1|E1].
  { rewrite E1. cbn [Z.eqb TERM_ROMS_MENU_BROWSE_SD Pos.eqb
                       TERM_ROMS_MENU_BROWSE_NETWORK andb].
    cbv zeta.
    destruct ((0 <? atoi arg) && (atoi arg <=? romsCount s)); [|reflexivity].
    match goal with
    | |- context [menu ?t] => destruct (menu_frame t) as (_ & -> & _)
    end.
    reflexivity. }
  destruct (Z.eqb_spec (menuLevel s) TERM_ROMS_MENU_BROWSE_NETWORK) as [E2|E2].
  { cbn [andb]. cbv zeta.
    destruct ((0 <? atoi arg) && (atoi arg <=? romsCount s)); reflexivity. }
  cbn [andb].
  destruct (menuLevel s
            =? TERM_ROMS_MENU_BROWSE_NETWORK + TERM_ROMS_MENU_SUBMENU).
  { destruct (is_empty arg || starts_with LF arg).
    - cbv zeta. unfold download_start.
      destruct (download_start_outcome _) as [err st].
      match goal with
      | |- context [menu ?t] => destruct (menu_frame t) as (_ & -> & _)
      end.
      destruct (negb (err =? DOWNLOAD_OK)); reflexivity.
    - cbv zeta.
      match goal with
      | |- context [navigatePages ?p ?t] =>
          destruct (navigatePages_frame p t) as (_ & _ & _ & ->)
      end.
      reflexivity. }
  destruct (menuLevel s =? TERM_ROMS_MENU_LAUNCH); reflexivity.
Qed.

Lemma download_step_selected (now startDownloadTime : Z) (s : Emul) :
  downloadRomSelected (snd (download_step now startDownloadTime s))
  = downloadRomSelected s.
Proof.
  unfold download_step, download_getStatus.
  destruct (dl_status (engine s)); cbn [snd]; try reflexivity.
  - destruct (_ <? 0); [|reflexivity]. unfold download_start.
    destruct (download_start_outcome _) as [err st].
    destruct (negb (err =? DOWNLOAD_OK)); reflexivity.
  - rewrite (proj2 (romDownloadUpdate_frame _)). reflexivity.
Qed.

Lemma cmdLaunch_selected (arg : string) (s : Emul) :
  downloadRomSelected <$> cmdLaunch arg s = Some (downloadRomSelected s).
Proof.
  unfold cmdLaunch. cbv zeta.
  set (s2 := term_printString _ (term_printString _ _)).
  assert (H2 : downloadRomSelected s2 = downloadRomSelected s).
  { subst s2. emul_simpl. destruct (delayMode s); reflexivity. }
  clearbody s2.
  destruct (settings_find_entry _ _) as [value|]; [|cbn; congruence].
  destruct (storeFileToFlash_total (fatfs (DPRINTF
              ("Loading ROM file into FLASH: %s at 0x%X" +:+ nl)
              [arg_s (snprintf MAX_PATH_SIZE (romsFolder s2 +:+ "/" +:+ value));
               arg_d (wrap32 _rom_temp_start)] s2))
              (snprintf MAX_PATH_SIZE (romsFolder s2 +:+ "/" +:+ value))
              (wrap32 _rom_temp_start) stack_garbage)
    as [[[fresult fs] ops] Hrun].
  rewrite Hrun.
  destruct (negb (fresult =? FR_OK)); cbn; congruence.
Qed.

(** C8, as amended. The index of the selected remote entry changes in
    one place only: the default handler sets it to the row number minus
    one when it receives a valid row number at the remote-browse level.
    Every other call of the default handler, every other handler of the
    command table (each of which returns), and every step of the download
    state machine leave it as it is; in particular it keeps its value
    when the download is confirmed, abandoned or completed. *)
Theorem downloadRomSelected_lifecycle :
  (forall arg s,
      downloadRomSelected (cmdUnknown arg s)
      = if (menuLevel s =? TERM_ROMS_MENU_BROWSE_NETWORK)
           && (0 <? atoi arg) && (atoi arg <=? romsCount s)
        then atoi arg - 1
        else downloadRomSelected s)
  /\ Forall (fun entry : string * handler =>
               fst entry = EmptyString
               \/ forall arg s,
                    downloadRomSelected <$> snd entry arg s
                    = Some (downloadRomSelected s))
       commands
  /\ (forall now startDownloadTime s,
         downloadRomSelected (snd (download_step now startDownloadTime s))
         = downloadRomSelected s).
Proof.
  split; [exact cmdUnknown_selected|]. split; [|exact download_step_selected].
  unfold commands.
  repeat (apply Forall_cons; split;
          [ first [ left; reflexivity | right; intros arg s; cbn [snd] ] |]);
    [..|apply Forall_nil];
    try exact (cmdLaunch_selected arg s);
    try (unfold term_handler;
         destruct (term_cmd _ arg _) as [ctx out]; reflexivity);
    unfold total; cbn [fmap option_fmap option_map]; f_equal.
  - apply menu_frame.
  - unfold cmdNext. cbv zeta.
    match goal with
    | |- context [navigatePages ?p ?t] =>
        destruct (navigatePages_frame p t) as (_ & _ & _ & ->)
    end.
    destruct (_ <? _); reflexivity.
  - unfold cmdPrev. cbv zeta.
    match goal with
    | |- context [navigatePages ?p ?t] =>
        destruct (navigatePages_frame p t) as (_ & _ & _ & ->)
    end.
    destruct (_ <? _); reflexivity.
  - unfold cmdCard. cbv zeta.
    destruct (_ =? 0).
    + emul_simpl. apply readRomsSdcard_selected.
    + match goal with
      | |- context [navigatePages ?p ?t] =>
          destruct (navigatePages_frame p t) as (_ & _ & _ & ->)
      end.
      emul_simpl. apply readRomsSdcard_selected.
  - unfold cmdNetwork. cbv zeta.
    match goal with
    | |- context [navigatePages ?p ?t] =>
        destruct (navigatePages_frame p t) as (_ & _ & _ & ->)
    end.
    emul_simpl. apply readRomsCsv_selected.
  - unfold cmdDelay. cbv zeta.
    match goal with
    | |- context [menu ?t] => destruct (menu_frame t) as (_ & -> & _)
    end.
    reflexivity.
Qed.

(** With a catalog that is not empty, a page at or after page 0 reads
    entries of the catalog only. *)
Lemma page_indices_in_catalog (n pageSize pageNumber i : Z) :
  0 < n -> 0 <= pageNumber ->
  i ∈ page_indices n pageSize pageNumber -> 0 <= i < n.
Proof.
  intros Hn Hp. unfold page_indices, page_bounds.
  intros Hi. apply elem_of_seqZ in Hi. revert Hi.
  destruct (Z.leb_spec pageSize 0) as [Hs|Hs].
  - rewrite Z.mul_0_r.
    destruct (Z.leb_spec n 0); [lia|].
    destruct (Z.ltb_spec n (0 + 0)); lia.
  - destruct (Z.leb_spec n (pageNumber * pageSize)) as [Hge|Hlt].
    + destruct (Z.ltb_spec n (n - 1 + pageSize)); lia.
    + destruct (Z.ltb_spec n (pageNumber * pageSize + pageSize)); nia.
Qed.

(** C7, at the first row. When a download completes while the selected
    remote entry is row 1 (index 0), the step invokes finish and confirm and
    resets the status to Idle, and then leaves the settings, in memory and
    as saved, the terminal and the menu level as they were: nothing is
    persisted and no menu is rendered. *)
Theorem completed_download_of_first_row (now startDownloadTime : Z) (s : Emul) :
  let s0 :=
    set_downloadRomSelected 0
      (set_engine (download_setStatus (engine s) DOWNLOAD_STATUS_COMPLETED) s) in
  let s' := snd (download_step now startDownloadTime s0) in
  dl_status (engine s') = DOWNLOAD_STATUS_IDLE
  /\ dl_calls (engine s') = dl_calls (engine s) ++ [call_finish; call_confirm]
  /\ aconfig s' = aconfig s
  /\ term s' = term s
  /\ menuLevel s' = menuLevel s.
Proof.
  cbv zeta. unfold download_step, download_getStatus, romDownloadUpdate.
  cbn. rewrite <- app_assoc. repeat split.
Qed.

(** For every other row the entry is persisted and the menu rendered. *)
Lemma romDownloadUpdate_later_row (s : Emul) :
  0 < downloadRomSelected s ->
  entries (aconfig (romDownloadUpdate s)) !! ACONFIG_PARAM_ROM_SELECTED
  = Some (filename (rom_at s (downloadRomSelected s)))
  /\ saved (aconfig (romDownloadUpdate s)) = entries (aconfig (romDownloadUpdate s))
  /\ menuLevel (romDownloadUpdate s) = TERM_ROMS_MENU_MAIN.
Proof.
  intros Hrow. unfold romDownloadUpdate.
  destruct (Z.ltb_spec 0 (downloadRomSelected s)); [|lia]. cbv zeta.
  match goal with
  | |- context [menu ?t] =>
      destruct (menu_frame t) as (_ & _ & ->);
      assert (Hlevel : menuLevel (menu t) = TERM_ROMS_MENU_MAIN)
        by (unfold menu, showTitle; frame; reflexivity);
      rewrite Hlevel
  end.
  emul_simpl. cbn [settings_save settings_put_string entries saved].
  rewrite lookup_insert_eq. repeat split.
Qed.

(** ** Further properties of the catalog's helpers *)

Lemma code_inj (c c' : ascii) : code c = code c' -> c = c'.
Proof.
  unfold code. intros H. apply N2Z.inj in H.
  rewrite <- (ascii_N_embedding c), <- (ascii_N_embedding c'), H. reflexivity.
Qed.

Lemma eqb_NUL (c : ascii) : Ascii.eqb c NUL = true <-> code c = 0.
Proof.
  rewrite Ascii.eqb_eq. split; [intros ->; reflexivity|].
  intros H. apply code_inj. exact H.
Qed.

Lemma strcasecmp_antisym (a : string) :
  forall b, strcasecmp b a = - strcasecmp a b.
Proof.
  induction a as [|ca a IH]; intros [|cb b]; cbn [strcasecmp]; try lia.
  pose proof (tolower_code_zero ca) as Ha.
  pose proof (tolower_code_zero cb) as Hb.
  destruct (Z.eqb_spec (code (tolower ca) - code (tolower cb)) 0);
    destruct (Z.eqb_spec (code (tolower cb) - code (tolower ca)) 0);
    cbn [negb]; try lia.
  destruct (Z.eqb_spec (code ca) 0); destruct (Z.eqb_spec (code cb) 0);
    try lia.
  apply IH.
Qed.

Lemma strcasecmp_zero (a : string) :
  forall b, strcasecmp a b = 0 <-> lowercase (c_str a) = lowercase (c_str b).
Proof.
  induction a as [|ca a IH]; intros [|cb b]; cbn [strcasecmp c_str lowercase].
  - tauto.
  - pose proof (tolower_code_zero cb) as Hb. pose proof (eqb_NUL cb) as Hn.
    destruct (Ascii.eqb cb NUL); cbn [lowercase]; split; intros H;
      try reflexivity; try discriminate.
    + destruct Hn as [Hn _]. specialize (Hn eq_refl). lia.
    + assert (code cb = 0) by lia. destruct Hn as [_ Hn].
      specialize (Hn ltac:(assumption)). discriminate.
  - pose proof (tolower_code_zero ca) as Ha. pose proof (eqb_NUL ca) as Hn.
    destruct (Ascii.eqb ca NUL); cbn [lowercase]; split; intros H;
      try reflexivity; try discriminate.
    + destruct Hn as [Hn _]. specialize (Hn eq_refl). lia.
    + assert (code ca = 0) by lia. destruct Hn as [_ Hn].
      specialize (Hn ltac:(assumption)). discriminate.
  - pose proof (tolower_code_zero ca) as Ha.
    pose proof (tolower_code_zero cb) as Hb.
    pose proof (eqb_NUL ca) as Hna. pose proof (eqb_NUL cb) as Hnb.
    destruct (Z.eqb_spec (code (tolower ca) - code (tolower cb)) 0) as [Hd|Hd];
      cbn [negb].
    + assert (Heq : tolower ca = tolower cb) by (apply code_inj; lia).
      destruct (Z.eqb_spec (code ca) 0) as [Hz|Hz].
      * assert (Hzb : code cb = 0) by lia.
        apply Hna in Hz. apply Hnb in Hzb. rewrite Hz, Hzb. tauto.
      * assert (Hzb : code cb <> 0) by lia.
        destruct (Ascii.eqb ca NUL); [lia|].
        destruct (Ascii.eqb cb NUL); [lia|].
        cbn [lowercase]. rewrite Heq, IH. split; [intros ->; reflexivity|].
        intros [= H]. exact H.
    + split; [intros H; lia|].
      destruct (Ascii.eqb ca NUL) eqn:Ea; destruct (Ascii.eqb cb NUL) eqn:Eb;
        cbn [lowercase]; try discriminate.
      * lia.
      * intros [= H _]. rewrite H in Hd. lia.
Qed.

(** X1. [compareRoms] is a comparison as [qsort] needs one: swapping the
    entries negates the result, being at most 0 is transitive, and the
    result is 0 exactly when the file names, as C strings, are equal up
    to the case of their letters. *)
Theorem compareRoms_comparison :
  (forall romA romB, compareRoms romB romA = - compareRoms romA romB)
  /\ (forall romA romB romC,
         compareRoms romA romB <= 0 -> compareRoms romB romC <= 0 ->
         compareRoms romA romC <= 0)
  /\ (forall romA romB,
         compareRoms romA romB = 0
         <-> lowercase (c_str (filename romA))
             = lowercase (c_str (filename romB))).
Proof.
  unfold compareRoms. split; [|split].
  - intros romA romB. apply strcasecmp_antisym.
  - intros romA romB romC. apply strcasecmp_trans.
  - intros romA romB. apply strcasecmp_zero.
Qed.

Lemma strrchr_app (c : ascii) (ext : string) (stem : string) :
  strrchr ext c = None ->
  strrchr (stem +:+ String c ext) c = Some (String.length stem, String c ext).
Proof.
  intros Hext. induction stem as [|x stem IH].
  - change (EmptyString +:+ String c ext) with (String c ext).
    cbn [strrchr String.length]. rewrite Hext, Ascii.eqb_refl. reflexivity.
  - change (String x stem +:+ String c ext)
      with (String x (stem +:+ String c ext)).
    cbn [strrchr String.length]. rewrite IH. reflexivity.
Qed.

(** X2. A name is accepted exactly when a stem that is not empty is
    followed by a dot and one of the extensions img, rom, stc and bin in
    any letter case: a name without a dot is refused, a name whose only dot
    is its first character is refused, and [stem.ext] is accepted if and
    only if [ext], lower-cased, is one of the four. The stem has no NUL in
    it, the name being a C string. *)
Theorem hasValidExtension_stem_ext (stem ext : string) :
  free_of NUL stem ->
  strrchr ext "." = None ->
  hasValidExtension ext = false
  /\ hasValidExtension ("." +:+ ext) = false
  /\ (stem <> EmptyString ->
      (hasValidExtension (stem +:+ "." +:+ ext) = true
       <-> In (lowercase (c_str ext)) ["img"; "rom"; "stc"; "bin"])).
Proof.
  intros _ Hext. split; [|split].
  - unfold hasValidExtension. rewrite Hext. reflexivity.
  - unfold hasValidExtension.
    change ("." +:+ ext) with (EmptyString +:+ String "." ext).
    rewrite (strrchr_app "." ext EmptyString Hext). reflexivity.
  - intros Hstem. unfold hasValidExtension.
    change (stem +:+ "." +:+ ext) with (stem +:+ String "." ext).
    rewrite (strrchr_app "." ext stem Hext).
    destruct stem as [|x stem]; [congruence|]. cbn [String.length].
    rewrite !orb_true_iff, !Z.eqb_eq, !strcasecmp_zero.
    cbn [In lowercase c_str]. 
    change (lowercase (c_str "img")) with "img"%string.
    change (lowercase (c_str "rom")) with "rom"%string.
    change (lowercase (c_str "stc")) with "stc"%string.
    change (lowercase (c_str "bin")) with "bin"%string.
    split.
    + intros [[[H|H]|H]|H]; rewrite H; auto.
    + intros [H|[H|[H|[H|[]]]]]; rewrite <- H; auto.
Qed.

Lemma c_str_length (str : string) :
  (String.length (c_str str) <= String.length str)%nat.
Proof.
  induction str as [|c str IH]; cbn [c_str String.length]; [lia|].
  destruct (Ascii.eqb c NUL); cbn [String.length]; lia.
Qed.

Lemma urlDecode_chars_length (n : nat) :
  forall src room,
    (String.length src <= n)%nat ->
    Z.of_nat (String.length (urlDecode_chars src room)) <= Z.max 0 room
    /\ (String.length (urlDecode_chars src room) <= String.length src)%nat.
Proof.
  induction n as [|n IH]; intros [|c rest] room Hn;
    cbn [urlDecode_chars String.length] in *; try lia.
  destruct (Z.leb_spec room 0) as [Hroom|Hroom]; cbn [String.length]; [lia|].
  cbv zeta.
  assert (Hlit :
    Z.of_nat (String.length (String c (urlDecode_chars rest (room - 1))))
    <= Z.max 0 room
    /\ (String.length (String c (urlDecode_chars rest (room - 1)))
        <= S (String.length rest))%nat).
  { cbn [String.length]. destruct (IH rest (room - 1)) as [H1 H2]; lia. }
  destruct (Ascii.eqb c "%"); [|exact Hlit].
  destruct rest as [|h1 [|h2 rest2]]; try exact Hlit.
  destruct (isxdigit h1 && isxdigit h2); [|exact Hlit].
  cbn [String.length] in *.
  destruct (IH rest2 (room - 1)) as [H1 H2]; lia.
Qed.

(** X3. With a destination of at least one byte, the decoded text fits
    it, the terminating NUL included, and is never longer than the encoded
    text. *)
Theorem urlDecode_fits (src : string) (destSize : nat) :
  (0 < destSize)%nat ->
  (String.length (urlDecode src destSize) <= destSize - 1)%nat
  /\ (String.length (urlDecode src destSize) <= String.length src)%nat.
Proof.
  intros Hsize. unfold urlDecode, wrap32.
  set (room := (Z.of_nat destSize - 1) mod 2 ^ 32).
  assert (Hroom : 0 <= room <= Z.of_nat destSize - 1).
  { subst room. split; [apply Z.mod_pos_bound; lia|apply Z.mod_le; lia]. }
  pose proof (c_str_length (urlDecode_chars src room)) as Hc.
  destruct (urlDecode_chars_length (String.length src) src room (le_n _))
    as [H1 H2].
  lia.
Qed.

Lemma c_str_str_take (n : nat) :
  forall str, c_str (str_take n str) = str_take n (c_str str).
Proof.
  induction n as [|n IH]; intros [|c str]; cbn [str_take c_str]; try reflexivity.
  destruct (Ascii.eqb c NUL); cbn [str_take c_str]; [reflexivity|].
  rewrite IH. reflexivity.
Qed.

Lemma urlDecode_chars_plain (src : string) :
  forall room,
    free_of "%" src -> urlDecode_chars src room = str_take (Z.to_nat room) src.
Proof.
  unfold free_of.
  induction src as [|c rest IH]; intros room Hfree;
    cbn [urlDecode_chars]; [destruct (Z.to_nat room); reflexivity|].
  cbn [list_ascii_of_string] in Hfree. inversion Hfree as [|? ? Hc Hrest]; subst.
  apply Ascii.eqb_neq in Hc. rewrite Hc. cbv zeta.
  destruct (Z.leb_spec room 0) as [Hroom|Hroom].
  - replace (Z.to_nat room) with 0%nat by lia. reflexivity.
  - replace (Z.to_nat room) with (S (Z.to_nat (room - 1))) by lia.
    cbn [str_take]. rewrite IH by exact Hrest. reflexivity.
Qed.

(** The bound of the loop for a [destSize] that is a [size_t] other
    than 0. *)
Lemma urlDecode_room (destSize : nat) :
  (0 < destSize)%nat ->
  Z.of_nat destSize <= SIZE_MAX ->
  Z.to_nat (wrap32 (Z.of_nat destSize - 1)) = (destSize - 1)%nat.
Proof.
  unfold SIZE_MAX, wrap32. intros Hpos Hmax.
  rewrite Z.mod_small by lia. lia.
Qed.

(** X4. With a destination of at least one byte, text without a percent
    sign is copied as it is, up to its first NUL and up to the capacity of
    the destination. *)
Theorem urlDecode_plain (src : string) (destSize : nat) :
  free_of "%" src ->
  (0 < destSize)%nat ->
  Z.of_nat destSize <= SIZE_MAX ->
  urlDecode src destSize = str_take (destSize - 1) (c_str src).
Proof.
  intros Hfree Hpos Hmax. unfold urlDecode.
  rewrite urlDecode_chars_plain by exact Hfree.
  rewrite urlDecode_room by assumption. apply c_str_str_take.
Qed.

Lemma hex_digit_decoded (c : ascii) :
  isxdigit (hex_digit (code c / 16)) && isxdigit (hex_digit (code c mod 16))
  = true
  /\ chr (hex_value (hex_digit (code c / 16)) * 16
          + hex_value (hex_digit (code c mod 16))) = c.
Proof.
  destruct c as [[] [] [] [] [] [] [] []]; vm_compute; split; reflexivity.
Qed.

Lemma urlDecode_chars_percent_encode (str : string) :
  forall room,
    urlDecode_chars (percent_encode str) room = str_take (Z.to_nat room) str.
Proof.
  induction str as [|c str IH]; intros room;
    cbn [percent_encode urlDecode_chars];
    [destruct (Z.to_nat room); reflexivity|].
  destruct (hex_digit_decoded c) as [Hx Hc].
  rewrite Ascii.eqb_refl, Hx, Hc. cbv zeta.
  destruct (Z.leb_spec room 0) as [Hroom|Hroom].
  - replace (Z.to_nat room) with 0%nat by lia. reflexivity.
  - replace (Z.to_nat room) with (S (Z.to_nat (room - 1))) by lia.
    cbn [str_take]. rewrite IH. reflexivity.
Qed.

(** X5. With a destination of at least one byte, decoding undoes
    percent-encoding: the text in which every character is written as a
    percent sign and two hexadecimal digits decodes to the original text,
    up to its first NUL and the capacity of the destination. *)
Theorem urlDecode_percent_encode (str : string) (destSize : nat) :
  (0 < destSize)%nat ->
  Z.of_nat destSize <= SIZE_MAX ->
  urlDecode (percent_encode str) destSize
  = str_take (destSize - 1) (c_str str).
Proof.
  intros Hpos Hmax. unfold urlDecode.
  rewrite urlDecode_chars_percent_encode.
  rewrite urlDecode_room by assumption. apply c_str_str_take.
Qed.

Lemma append_String (c : ascii) (a b : string) :
  String c a +:+ b = String c (a +:+ b).
Proof. reflexivity. Qed.

Lemma append_assoc (a b c : string) : (a +:+ b) +:+ c = a +:+ (b +:+ c).
Proof.
  induction a as [|x a IH]; [reflexivity|].
  rewrite !append_String, IH. reflexivity.
Qed.

Lemma str_take_length (n : nat) :
  forall str, String.length (str_take n str) = Nat.min n (String.length str).
Proof.
  induction n as [|n IH]; intros [|c str]; cbn [str_take String.length];
    try reflexivity.
  rewrite IH. reflexivity.
Qed.

Lemma str_take_all (n : nat) :
  forall str, (String.length str <= n)%nat -> str_take n str = str.
Proof.
  induction n as [|n IH]; intros [|c str]; cbn [str_take String.length];
    intros Hlen; try reflexivity; try lia.
  rewrite IH by lia. reflexivity.
Qed.

Lemma append_length (a b : string) :
  String.length (a +:+ b) = (String.length a + String.length b)%nat.
Proof.
  induction a as [|c a IH]; [reflexivity|].
  rewrite append_String. cbn [String.length]. rewrite IH. reflexivity.
Qed.

Lemma quoted_append (field rest : string) :
  quoted field +:+ rest = String DQUOTE (field +:+ String DQUOTE rest).
Proof. unfold quoted. rewrite !append_String, append_assoc. reflexivity. Qed.

Lemma copy_field_quoted (room : nat) :
  forall field rest,
    free_of DQUOTE field -> (String.length field <= room)%nat ->
    copy_field room (field +:+ String DQUOTE rest) = (field, String DQUOTE rest).
Proof.
  unfold free_of.
  induction room as [|room IH]; intros [|c field] rest Hfree Hlen;
    cbn [String.length] in Hlen; try lia; try reflexivity.
  rewrite append_String. cbn [copy_field].
  cbn [list_ascii_of_string] in Hfree. inversion Hfree as [|? ? Hc Hrest]; subst.
  apply Ascii.eqb_neq in Hc. rewrite Hc, IH by (exact Hrest || lia).
  reflexivity.
Qed.

Lemma EXTRACT_FIELD_quoted (sizeof_dest : nat) (field rest : string) :
  free_of DQUOTE field -> (String.length field < sizeof_dest)%nat ->
  EXTRACT_FIELD sizeof_dest (quoted field +:+ rest)
  = Some (field, skip_while (fun c => Ascii.eqb c "," || isspace c) rest).
Proof.
  intros Hfree Hlen. unfold EXTRACT_FIELD. rewrite quoted_append.
  cbn [skip_while]. change (isspace DQUOTE) with false. cbv iota.
  cbn [starts_with]. rewrite Ascii.eqb_refl. cbn [negb].
  rewrite copy_field_quoted by (exact Hfree || lia).
  cbn [starts_with]. rewrite Ascii.eqb_refl. reflexivity.
Qed.

Lemma skip_separator (field rest : string) :
  skip_while (fun c => Ascii.eqb c "," || isspace c)
    ("," +:+ quoted field +:+ rest)
  = quoted field +:+ rest.
Proof.
  change ("," +:+ quoted field +:+ rest)
    with (String "," (quoted field +:+ rest)).
  rewrite quoted_append. reflexivity.
Qed.

Lemma free_of_append (c : ascii) (a b : string) :
  free_of c a -> free_of c b -> free_of c (a +:+ b).
Proof.
  unfold free_of. intros Ha Hb. induction a as [|x a IH]; [exact Hb|].
  rewrite append_String. cbn [list_ascii_of_string] in *.
  apply Forall_cons in Ha. destruct Ha as [Hx Ha].
  constructor; [exact Hx|apply IH, Ha].
Qed.

Lemma c_str_free (str : string) : free_of NUL str -> c_str str = str.
Proof.
  unfold free_of. induction str as [|c str IH]; intros Hfree; [reflexivity|].
  cbn [list_ascii_of_string c_str] in *.
  apply Forall_cons in Hfree. destruct Hfree as [Hc Hfree].
  apply Ascii.eqb_neq in Hc. rewrite Hc, IH by exact Hfree. reflexivity.
Qed.

Lemma quoted_free (c : ascii) (field : string) :
  c <> DQUOTE -> free_of c field -> free_of c (quoted field).
Proof.
  intros Hc Hfree. unfold quoted, free_of.
  change (String DQUOTE field +:+ String DQUOTE EmptyString)
    with (String DQUOTE (field +:+ String DQUOTE EmptyString)).
  cbn [list_ascii_of_string]. constructor; [congruence|].
  apply free_of_append; [exact Hfree|].
  unfold free_of. cbn. constructor; [congruence|constructor].
Qed.

(** X6. A line of the catalog document that is made of five quoted
    fields separated by commas is a data line, and is read back as these
    five fields, when no field has a double quote or a NUL in it and each
    fits the buffer that receives it (255 characters for the URL, the
    name and the tags, 127 for the description, 31 for the size). *)
Theorem csv_fields_csv_row (url title about labels kb : string) :
  Forall (fun field => free_of DQUOTE field /\ free_of NUL field)
    [url; title; about; labels; kb] ->
  (String.length url < MAX_PATH_SIZE * 2)%nat ->
  (String.length title < MAX_PATH_SIZE * 2)%nat ->
  (String.length about < MAX_PATH_SIZE)%nat ->
  (String.length labels < MAX_PATH_SIZE * 2)%nat ->
  (String.length kb < MAX_PATH_SIZE / 4)%nat ->
  csv_fields (csv_row url title about labels kb)
  = Some (url, title, about, labels, kb).
Proof.
  intros Hfree H1 H2 H3 H4 H5.
  repeat match goal with
         | H : Forall _ (_ :: _) |- _ =>
             let Hq := fresh "Hq" in
             let Hn := fresh "Hn" in
             apply Forall_cons in H; destruct H as [[Hq Hn] H]
         end.
  assert (Hline : c_str (csv_row url title about labels kb)
                  = csv_row url title about labels kb).
  { apply c_str_free. unfold csv_row.
    assert (Hcomma : free_of NUL ",") by
      (unfold free_of; cbn; constructor; [discriminate|constructor]).
    assert (Hlf : free_of NUL (String LF EmptyString)) by
      (unfold free_of; cbn; constructor; [discriminate|constructor]).
    repeat first [ assumption
                 | apply quoted_free; [discriminate|assumption]
                 | apply free_of_append ]. }
  unfold csv_fields. rewrite Hline.
  assert (Hstart : is_empty (csv_row url title about labels kb)
                   || starts_with LF (csv_row url title about labels kb)
                   = false).
  { unfold csv_row. rewrite quoted_append. reflexivity. }
  rewrite Hstart.
  unfold extract_fields, csv_row.
  rewrite EXTRACT_FIELD_quoted, skip_separator by assumption.
  rewrite EXTRACT_FIELD_quoted, skip_separator by assumption.
  rewrite EXTRACT_FIELD_quoted, skip_separator by assumption.
  rewrite EXTRACT_FIELD_quoted, skip_separator by assumption.
  rewrite EXTRACT_FIELD_quoted by assumption.
  reflexivity.
Qed.

(** ** Further properties of the catalog producers *)

Lemma take_S_insert {A : Type} (l : list A) (i : nat) (x : A) :
  (i < length l)%nat -> take (S i) (<[i := x]> l) = take i l ++ [x].
Proof.
  intros Hi. rewrite (take_S_r _ _ x) by (apply list_lookup_insert_eq; exact Hi).
  rewrite take_insert_ge by lia. reflexivity.
Qed.

(** The loop of [readRomsSdcard] on a medium that reports no error: it
    appends the entries that [sd_accepts] keeps, as long as there is room
    for them. *)
Lemma scan_dir_kept (folder : string) (dir : list FILINFO) :
  forall s,
    faults (fatfs s) = [] ->
    0 <= romsCount s <= MAX_ROMS ->
    Forall (fun fno => is_empty (c_str (fname fno)) = false) dir ->
    let k := Nat.min (length (List.filter sd_accepts dir))
               (Z.to_nat (MAX_ROMS - romsCount s)) in
    let s' := scan_dir folder dir s in
    romsCount s' = romsCount s + Z.of_nat k
    /\ length (roms s') = length (roms s)
    /\ ((Z.to_nat MAX_ROMS <= length (roms s))%nat ->
        map filename (take (Z.to_nat (romsCount s')) (roms s'))
        = map filename (take (Z.to_nat (romsCount s)) (roms s))
          ++ map (fun fno =>
                    str_take (MAX_FILENAME_LENGTH - 1) (c_str (fname fno)))
               (take k (List.filter sd_accepts dir))).
Proof.
  induction dir as [|fno dir IH]; intros s Hf Hn Hnames; cbv zeta;
    cbn [scan_dir]; unfold next_fault; rewrite Hf; cbv iota.
  - emul_simpl. cbn [List.filter length Nat.min take map].
    rewrite Z.add_0_r, app_nil_r. auto.
  - cbv zeta. cbn [fname fattrib].
    apply Forall_cons in Hnames. destruct Hnames as [Hname Hnames].
    rewrite Hname. cbn [Z.eqb FR_OK negb orb].
    cbn [List.filter].
    remember (sd_accepts fno) as accepted eqn:Hacc. unfold sd_accepts in Hacc.
    set (s1 := set_fatfs (fatfs s) s).
    assert (Hf1 : faults (fatfs s1) = []) by exact Hf.
    assert (Hn1 : 0 <= romsCount s1 <= MAX_ROMS) by exact Hn.
    pose proof (IH s1 Hf1 Hn1 Hnames) as IH1. cbv zeta in IH1.
    destruct (Z.land (fattrib fno) AM_DIR =? 0); cbn [negb andb] in Hacc |- *;
      [|subst accepted; exact IH1].
    destruct (starts_with "." (c_str (fname fno))); cbn [negb andb] in Hacc |- *;
      [subst accepted; exact IH1|].
    destruct (hasValidExtension (c_str (fname fno))); cbn [negb];
      [|subst accepted; exact IH1].
    subst accepted. clear IH1.
    destruct (Z.ltb_spec (romsCount s1) MAX_ROMS) as [Hlt|Hge].
    + match goal with
      | |- context [scan_dir folder dir ?t] => set (s2 := t)
      end.
      assert (Hf2 : faults (fatfs s2) = []) by exact Hf.
      assert (Hc2 : romsCount s2 = romsCount s + 1) by reflexivity.
      assert (Hn2 : 0 <= romsCount s2 <= MAX_ROMS).
      { rewrite Hc2. change (romsCount s1) with (romsCount s) in Hlt. lia. }
      pose proof (IH s2 Hf2 Hn2 Hnames) as (IHc & IHl & IHn).
      change (romsCount s1) with (romsCount s) in Hlt.
      assert (Hk :
        Nat.min (length (fno :: List.filter sd_accepts dir))
          (Z.to_nat (MAX_ROMS - romsCount s))
        = S (Nat.min (length (List.filter sd_accepts dir))
               (Z.to_nat (MAX_ROMS - romsCount s2)))).
      { rewrite Hc2. cbn [length]. lia. }
      rewrite Hk. split; [|split].
      * rewrite IHc, Hc2. lia.
      * rewrite IHl. subst s2. emul_simpl. apply length_insert.
      * intros Hlen. rewrite IHn.
        2:{ subst s2. emul_simpl. rewrite length_insert. exact Hlen. }
        cbn [take map]. rewrite Hc2.
        subst s2. emul_simpl.
        change (romsCount s1) with (romsCount s).
        change (roms s1) with (roms s).
        replace (Z.to_nat (romsCount s + 1)) with (S (Z.to_nat (romsCount s)))
          by lia.
        rewrite take_S_insert by (unfold MAX_ROMS in *; lia).
        rewrite map_app, <- app_assoc. reflexivity.
    + change (romsCount s1) with (romsCount s) in Hge.
      assert (Hk :
        Nat.min (length (fno :: List.filter sd_accepts dir))
          (Z.to_nat (MAX_ROMS - romsCount s)) = 0%nat) by lia.
      rewrite Hk. emul_simpl. cbn [take map].
      rewrite Z.add_0_r, app_nil_r. auto.
Qed.

Lemma take_min_length {A : Type} (l : list A) (n : nat) :
  take (Nat.min (length l) n) l = take n l.
Proof.
  destruct (Nat.le_ge_cases n (length l)).
  - rewrite Nat.min_r by lia. reflexivity.
  - rewrite Nat.min_l by lia. rewrite !take_ge by lia. reflexivity.
Qed.

Lemma take_qsort_roms (n : Z) (arr : list ROM) :
  take (Z.to_nat n) (qsort_roms n arr)
  = qsort compareRoms (take (Z.to_nat n) arr).
Proof.
  unfold qsort_roms.
  assert (Hlen : length (qsort compareRoms (take (Z.to_nat n) arr))
                 = length (take (Z.to_nat n) arr)).
  { apply Permutation_length, qsort_perm. }
  destruct (Nat.le_gt_cases (Z.to_nat n) (length arr)) as [Hle|Hgt].
  - apply take_app_length'. rewrite Hlen, length_take. lia.
  - rewrite (drop_ge arr) by lia. rewrite app_nil_r.
    apply take_ge. rewrite Hlen, length_take. lia.
Qed.

Lemma length_qsort_roms (n : Z) (arr : list ROM) :
  length (qsort_roms n arr) = length arr.
Proof.
  unfold qsort_roms. rewrite length_app.
  rewrite (Permutation_length (qsort_perm compareRoms (take (Z.to_nat n) arr))).
  rewrite <- length_app, take_drop. reflexivity.
Qed.

(** X7. On a medium that reports no error, a scan of a folder whose
    entries all have a name leaves as many catalog entries as the folder
    has files that are not hidden and have one of the four extensions, at
    most 100 of them, the first 100 in directory order; their file names,
    cut to 35 characters, are the file names of the catalog. *)
Theorem readRomsSdcard_keeps_the_valid_files
    (folder : string) (dir : list FILINFO) (s : Emul) :
  faults (fatfs s) = [] ->
  dirs (fatfs s) !! folder = Some dir ->
  Forall (fun fno => is_empty (c_str (fname fno)) = false) dir ->
  length (roms s) = Z.to_nat MAX_ROMS ->
  let s' := readRomsSdcard folder s in
  let kept := take (Z.to_nat MAX_ROMS) (List.filter sd_accepts dir) in
  romsCount s' = Z.of_nat (length kept)
  /\ Permutation (map filename (take (Z.to_nat (romsCount s')) (roms s')))
       (map (fun fno => str_take (MAX_FILENAME_LENGTH - 1) (c_str (fname fno)))
          kept)
  /\ length (roms s') = length (roms s).
Proof.
  intros Hf Hdir Hnames Hlen. cbv zeta.
  unfold readRomsSdcard, f_opendir, next_fault. rewrite Hf, Hdir.
  cbn [Z.eqb FR_OK negb].
  set (s0 := set_romsCount 0 (set_fatfs (fatfs s) s)).
  destruct (scan_dir_kept folder dir s0 Hf ltac:(cbn; unfold MAX_ROMS; lia)
              Hnames) as (Hc & Hl & Hn).
  specialize (Hn ltac:(change (roms s0) with (roms s); lia)).
  change (romsCount s0) with 0 in Hc, Hn.
  change (roms s0) with (roms s) in Hl, Hn.
  rewrite Z.sub_0_r in Hc, Hn. rewrite Z.add_0_l in Hc.
  cbn [take map app] in Hn.
  emul_simpl. rewrite take_qsort_roms, length_qsort_roms, Hl.
  rewrite length_take. split; [|split].
  - rewrite Hc. lia.
  - rewrite qsort_perm, Hn, take_min_length. reflexivity.
  - reflexivity.
Qed.

(** The loop of [readRomsCsv] on a medium that reports no error: it
    appends the entries of the data lines, as long as there is room for
    them. *)
Lemma csv_lines_kept (lines : list string) :
  forall lineNum s,
    faults (fatfs s) = [] ->
    0 <= romsCount s <= MAX_ROMS ->
    let k := Nat.min (length (omap csv_fields lines))
               (Z.to_nat (MAX_ROMS - romsCount s)) in
    let s' := csv_lines lines lineNum s in
    romsCount s' = romsCount s + Z.of_nat k
    /\ length (roms s') = length (roms s)
    /\ ((Z.to_nat MAX_ROMS <= length (roms s))%nat ->
        take (Z.to_nat (romsCount s')) (roms s')
        = take (Z.to_nat (romsCount s)) (roms s)
          ++ map (csv_entry (aconfig s)) (take k (omap csv_fields lines))).
Proof.
  induction lines as [|line lines IH]; intros lineNum s Hf Hn; cbv zeta;
    cbn [csv_lines]; unfold next_fault; rewrite Hf; cbv iota.
  - emul_simpl. cbn [omap list_omap length Nat.min take map].
    rewrite Z.add_0_r, app_nil_r. auto.
  - cbv zeta. cbn [Z.eqb FR_OK negb].
    cbn [omap list_omap]. fold (omap csv_fields lines).
    remember (csv_fields line) as fields eqn:Hfields.
    unfold csv_fields in Hfields.
    set (s1 := set_fatfs (fatfs s) s).
    assert (Hf1 : faults (fatfs s1) = []) by exact Hf.
    assert (Hn1 : 0 <= romsCount s1 <= MAX_ROMS) by exact Hn.
    destruct (is_empty (c_str line) || starts_with LF (c_str line)).
    { subst fields. exact (IH (lineNum + 1) s1 Hf1 Hn1). }
    destruct (extract_fields (c_str line)) as [found|]; subst fields.
    2:{ match goal with
        | |- context [csv_lines lines _ ?t] =>
            exact (IH (lineNum + 1) t Hf1 Hn1)
        end. }
    destruct (Z.ltb_spec (romsCount s1) MAX_ROMS) as [Hlt|Hge].
    + match goal with
      | |- context [csv_lines lines _ ?t] => set (s2 := t)
      end.
      assert (Hf2 : faults (fatfs s2) = []) by exact Hf.
      assert (Hc2 : romsCount s2 = romsCount s + 1) by reflexivity.
      change (romsCount s1) with (romsCount s) in Hlt.
      assert (Hn2 : 0 <= romsCount s2 <= MAX_ROMS) by (rewrite Hc2; lia).
      pose proof (IH (lineNum + 1) s2 Hf2 Hn2) as (IHc & IHl & IHn).
      assert (Hk :
        Nat.min (length (found :: omap csv_fields lines))
          (Z.to_nat (MAX_ROMS - romsCount s))
        = S (Nat.min (length (omap csv_fields lines))
               (Z.to_nat (MAX_ROMS - romsCount s2)))).
      { rewrite Hc2. cbn [length]. lia. }
      rewrite Hk. split; [|split].
      * rewrite IHc, Hc2. lia.
      * rewrite IHl. subst s2. emul_simpl. apply length_insert.
      * intros Hlen. rewrite IHn.
        2:{ subst s2. emul_simpl. rewrite length_insert. exact Hlen. }
        cbn [take map]. rewrite Hc2.
        subst s2. emul_simpl.
        change (romsCount s1) with (romsCount s).
        change (roms s1) with (roms s).
        change (aconfig s1) with (aconfig s).
        replace (Z.to_nat (romsCount s + 1)) with (S (Z.to_nat (romsCount s)))
          by lia.
        rewrite take_S_insert by (unfold MAX_ROMS in *; lia).
        rewrite <- app_assoc. reflexivity.
    + change (romsCount s1) with (romsCount s) in Hge.
      assert (Hk :
        Nat.min (length (found :: omap csv_fields lines))
          (Z.to_nat (MAX_ROMS - romsCount s)) = 0%nat) by lia.
      rewrite Hk. emul_simpl. cbn [take map].
      rewrite Z.add_0_r, app_nil_r. auto.
Qed.

(** With the folder among the settings and a full path that fits the
    [MAX_PATH_SIZE] bytes of [path], the terminating NUL included, the
    entry is the one described by [csv_record]. *)
Lemma csv_entry_fits (ctx : Settings) (value : string)
    (fields : string * string * string * string * string) :
  settings_find_entry ctx ACONFIG_PARAM_ROMS_FOLDER = Some value ->
  (String.length value + 1
   + String.length (urlDecode (csv_url fields) (MAX_PATH_SIZE * 2))
   < MAX_PATH_SIZE)%nat ->
  csv_entry ctx fields = csv_record value fields.
Proof.
  destruct fields as [[[[field1 field2] field3] field4] field5].
  cbn [csv_url]. intros Hvalue Hfits.
  unfold csv_entry, csv_record, csv_path. rewrite Hvalue. cbv zeta.
  set (decodedField1 := urlDecode field1 (MAX_PATH_SIZE * 2)) in *.
  assert (Hpath :
    strncat (strncat (strncat "" value (MAX_PATH_SIZE - 1))
               "/" (MAX_PATH_SIZE - 1))
      decodedField1 (MAX_PATH_SIZE - 1)
    = value +:+ "/" +:+ decodedField1).
  { unfold strncat. unfold MAX_PATH_SIZE in *.
    rewrite !str_take_all by (cbn [String.length]; lia).
    change (EmptyString +:+ value) with value.
    apply append_assoc. }
  rewrite Hpath.
  assert (Hlen : (String.length (value +:+ "/" +:+ decodedField1)
                  <? MAX_PATH_SIZE)%nat = true).
  { apply Nat.ltb_lt. rewrite !append_length. cbn [String.length]. lia. }
  rewrite Hlen. reflexivity.
Qed.

(** X8. On a medium that reports no error, with the ROMs folder among
    the settings, a parse of a document with a header line leaves one
    catalog entry for each of the first 100 data lines, the entry built
    from the five fields of the line, provided that the full path of each
    of them, the folder, a slash and the decoded URL, fits the
    [MAX_PATH_SIZE] bytes of [path]; empty lines and lines that are not
    made of five quoted fields add nothing and do not stop the parse. *)
Theorem readRomsCsv_keeps_the_data_lines
    (csvFilepath : string) (data : list ascii)
    (header : string) (lines : list string) (value : string) (s : Emul) :
  faults (fatfs s) = [] ->
  files (fatfs s) !! csvFilepath = Some data ->
  gets_lines (FLASH_PAGE_SIZE * 2) data [] (FLASH_PAGE_SIZE * 2 - 1)
  = header :: lines ->
  length (roms s) = Z.to_nat MAX_ROMS ->
  settings_find_entry (aconfig s) ACONFIG_PARAM_ROMS_FOLDER = Some value ->
  Forall (fun fields =>
            (String.length value + 1
             + String.length (urlDecode (csv_url fields) (MAX_PATH_SIZE * 2))
             < MAX_PATH_SIZE)%nat)
    (take (Z.to_nat MAX_ROMS) (omap csv_fields lines)) ->
  let s' := readRomsCsv csvFilepath s in
  let kept := take (Z.to_nat MAX_ROMS) (omap csv_fields lines) in
  romsCount s' = Z.of_nat (length kept)
  /\ Permutation (take (Z.to_nat (romsCount s')) (roms s'))
       (map (csv_record value) kept)
  /\ length (roms s') = length (roms s).
Proof.
  intros Hf Hfile Hlines Hlen Hvalue Hfit. cbv zeta.
  assert (Hrecords :
    map (csv_entry (aconfig s)) (take (Z.to_nat MAX_ROMS) (omap csv_fields lines))
    = map (csv_record value) (take (Z.to_nat MAX_ROMS) (omap csv_fields lines))).
  { induction Hfit as [|fields kept Hfields _ IH]; [reflexivity|].
    cbn [map]. rewrite IH, (csv_entry_fits _ value) by assumption.
    reflexivity. }
  unfold readRomsCsv. emul_simpl. unfold f_open, next_fault.
  rewrite Hf, Hfile. cbn [Z.eqb FR_OK negb]. emul_simpl. rewrite Hf.
  cbn [f_data]. rewrite Hlines. cbn [Z.eqb FR_OK negb].
  match goal with
  | |- context [csv_lines lines 0 ?t] => set (s0 := t)
  end.
  destruct (csv_lines_kept lines 0 s0 Hf ltac:(cbn; unfold MAX_ROMS; lia))
    as (Hc & Hl & Hn).
  specialize (Hn ltac:(change (roms s0) with (roms s); lia)).
  change (romsCount s0) with 0 in Hc, Hn.
  change (roms s0) with (roms s) in Hl, Hn.
  change (aconfig s0) with (aconfig s) in Hn.
  rewrite Z.sub_0_r in Hc, Hn. rewrite Z.add_0_l in Hc.
  cbn [take app] in Hn.
  emul_simpl. rewrite take_qsort_roms, length_qsort_roms, Hl.
  rewrite length_take. split; [|split].
  - rewrite Hc. lia.
  - rewrite qsort_perm, Hn, take_min_length, Hrecords. reflexivity.
  - reflexivity.
Qed.

(** The loop of [readRomsSdcard] adds an entry for an accepted file
    only, whatever the medium reports, and leaves the terminal, the
    folder and the current page alone. *)
Lemma scan_dir_bound (folder : string) (dir : list FILINFO) :
  forall s,
    romsCount s <= romsCount (scan_dir folder dir s)
    <= romsCount s + Z.of_nat (length (List.filter sd_accepts dir)).
Proof.
  induction dir as [|fno dir IH]; intros s; cbn [scan_dir];
    destruct (next_fault (fatfs s)) as [res fs]; [cbn; lia|].
  cbv zeta. cbn [fname fattrib List.filter].
  remember (sd_accepts fno) as accepted eqn:Hacc. unfold sd_accepts in Hacc.
  set (s1 := set_fatfs fs s).
  pose proof (IH s1) as IH1. change (romsCount s1) with (romsCount s) in IH1.
  destruct (negb (res =? FR_OK) || is_empty (c_str (fname fno)));
    [destruct accepted; cbn [length]; change (romsCount s1) with (romsCount s);
     lia|].
  destruct (Z.land (fattrib fno) AM_DIR =? 0); cbn [negb andb] in Hacc |- *;
    [|subst accepted; exact IH1].
  destruct (starts_with "." (c_str (fname fno))); cbn [negb andb] in Hacc |- *;
    [subst accepted; exact IH1|].
  destruct (hasValidExtension (c_str (fname fno))); cbn [negb];
    [|subst accepted; exact IH1].
  subst accepted. cbn [length].
  destruct (romsCount s1 <? MAX_ROMS).
  - match goal with
    | |- context [scan_dir folder dir ?t] => set (s2 := t)
    end.
    pose proof (IH s2) as IH2.
    assert (Hc2 : romsCount s2 = romsCount s + 1) by reflexivity.
    lia.
  - emul_simpl. change (romsCount s1) with (romsCount s). lia.
Qed.

Lemma scan_dir_frame (folder : string) (dir : list FILINFO) :
  forall s,
    term (scan_dir folder dir s) = term s
    /\ romsFolder (scan_dir folder dir s) = romsFolder s
    /\ currentRomPage (scan_dir folder dir s) = currentRomPage s.
Proof.
  induction dir as [|fno dir IH]; intros s; cbn [scan_dir];
    destruct (next_fault (fatfs s)) as [res fs]; [repeat split|].
  cbv zeta.
  repeat match goal with
         | |- context [if ?b then _ else _] => destruct b
         end;
    try (repeat split; fail);
    match goal with
    | |- context [scan_dir folder dir ?t] =>
        destruct (IH t) as (-> & -> & ->); repeat split
    end.
Qed.

(** X9. When the folder opens and none of its entries is a file that
    the scan accepts, the card command reports that there are no ROMs and
    names the folder; it draws no page, reads no catalog entry, and leaves
    the current page as it was. *)
Theorem cmdCard_without_roms (arg : string) (dir : list FILINFO) (fs : FatFs)
    (s : Emul) :
  f_opendir (fatfs s) (romsFolder s) = (FR_OK, dir, fs) ->
  List.filter sd_accepts dir = [] ->
  let s' := cmdCard arg s in
  romsCount s' = 0
  /\ menuLevel s' = TERM_ROMS_MENU_BROWSE_SD
  /\ currentRomPage s' = currentRomPage s
  /\ term s'
     = term s
       ++ [ "No ROMs found in the SD card." +:+ nl;
            "Download ROMs from internet," +:+ nl;
            "or copy them to folder '";
            romsFolder s;
            "'" +:+ nl +:+ nl ].
Proof.
  intros Hopen Hnone. cbv zeta. unfold cmdCard, readRomsSdcard.
  rewrite Hopen. cbn [Z.eqb FR_OK negb].
  set (s0 := set_romsCount 0 (set_fatfs fs s)).
  pose proof (scan_dir_bound (romsFolder s) dir s0) as Hb.
  rewrite Hnone in Hb. change (romsCount s0) with 0 in Hb. cbn [length] in Hb.
  destruct (scan_dir_frame (romsFolder s) dir s0) as (Ht & Hfold & Hp).
  change (term s0) with (term s) in Ht.
  change (romsFolder s0) with (romsFolder s) in Hfold.
  change (currentRomPage s0) with (currentRomPage s) in Hp.
  emul_simpl.
  assert (Hz : romsCount (scan_dir (romsFolder s) dir s0) = 0) by lia.
  rewrite Hz. cbn [Z.eqb]. emul_simpl. rewrite Hz, Hp, Ht, Hfold.
  repeat split.
Qed.

(** ** Further properties of the flash provisioner *)

(** The loop, whatever it returns: the flash calls made are those of
    whole chunks that make up a prefix of what was left of the file. *)
Lemma storeLoop_prefix
    (page_pos : (0 < FLASH_PAGE_SIZE)%nat)
    (sector_pos : (0 < FLASH_SECTOR_SIZE)%nat) (fuel : nat) :
  forall fs file buffer offset res fs' buffer' offset' ops,
    storeLoop fuel fs file buffer offset
    = Some (res, fs', buffer', offset', ops) ->
    exists chunks,
      concat chunks `prefix_of` drop (f_ptr file) (f_data file)
      /\ Forall (fun c => (0 < length c <= FLASH_SECTOR_SIZE)%nat) chunks
      /\ spec_program offset chunks = (offset', ops).
Proof.
  induction fuel as [|fuel IH];
    intros fs file buffer offset res fs' buffer' offset' ops Hrun;
    [discriminate|].
  rewrite (storeLoop_S page_pos sector_pos) in Hrun.
  destruct (f_read_cases fs file FLASH_SECTOR_SIZE)
    as [(r & fs1 & Hr & Hread)|(fs1 & Hread & _)]; rewrite Hread in Hrun.
  - rewrite (neq_FR_OK r Hr) in Hrun. inversion Hrun; subst.
    exists []. split; [apply prefix_nil|]. split; [constructor|reflexivity].
  - cbn [negb Z.eqb FR_OK] in Hrun.
    set (rest := drop (f_ptr file) (f_data file)) in *.
    set (got := take FLASH_SECTOR_SIZE rest) in *.
    destruct (Nat.eqb_spec (length got) 0) as [E|E].
    + inversion Hrun; subst.
      exists []. split; [apply prefix_nil|]. split; [constructor|reflexivity].
    + destruct (storeLoop fuel fs1 _ _ _)
        as [[[[[r1 r2] r3] r4] r5]|] eqn:Hrec; [|discriminate].
      inversion Hrun; subst r1 r2 r3 r4 ops. clear Hrun.
      apply IH in Hrec. destruct Hrec as (chunks & Hpre & Hall & Hprog).
      cbn [f_ptr f_data] in Hpre.
      exists (got :: chunks). split; [|split].
      * cbn [concat]. rewrite <- drop_drop in Hpre. fold rest in Hpre.
        assert (Hdrop : drop (length got) rest = drop FLASH_SECTOR_SIZE rest).
        { subst got. rewrite length_take.
          destruct (Nat.le_gt_cases FLASH_SECTOR_SIZE (length rest)).
          - rewrite Nat.min_l by lia. reflexivity.
          - rewrite Nat.min_r by lia. rewrite drop_all, drop_ge by lia.
            reflexivity. }
        rewrite Hdrop in Hpre. destruct Hpre as [k Hk]. exists k.
        rewrite <- app_assoc, <- Hk. subst got. symmetry. apply take_drop.
      * constructor; [|exact Hall]. subst got. rewrite length_take in *. lia.
      * cbn [spec_program]. rewrite Hprog. reflexivity.
Qed.

(** X10. Whatever a provisioning call returns, also an error of the
    medium half way, its flash calls are those that program whole chunks,
    each between the disabling and the restoring of the interrupts, and
    the chunks make up a prefix of the payload of the file; when the file
    does not open, there is no flash call at all. *)
Theorem storeFileToFlash_programs_a_prefix
    (fs : FatFs) (filename : string) (flashAddress : Z) (buffer : list ascii)
    (res : FRESULT) (fs' : FatFs) (ops : list FlashOp) :
  (0 < FLASH_PAGE_SIZE)%nat ->
  (0 < FLASH_SECTOR_SIZE)%nat ->
  storeFileToFlash fs filename flashAddress buffer = Some (res, fs', ops) ->
  exists chunks,
    Forall (fun c => (0 < length c <= FLASH_SECTOR_SIZE)%nat) chunks
    /\ snd (spec_program (wrap32 (flashAddress - XIP_BASE)) chunks) = ops
    /\ match files fs !! filename with
       | Some data => concat chunks `prefix_of` payload_of data
       | None => chunks = [] /\ res <> FR_OK
       end.
Proof.
  intros page_pos sector_pos. unfold storeFileToFlash.
  destruct (f_open fs filename) as [[r file] fs1] eqn:Hopen.
  assert (Hmiss : files fs !! filename = None -> r <> FR_OK).
  { intros Hnone. unfold f_open in Hopen.
    destruct (next_fault fs) as [r0 fs0].
    destruct (Z.eqb_spec r0 FR_OK) as [->|Hr0]; cbn [negb] in Hopen.
    - rewrite Hnone in Hopen. inversion Hopen. discriminate.
    - inversion Hopen; subst. exact Hr0. }
  destruct (f_open_cases fs filename)
    as [(r' & fs1' & Hr & Hopen')|(data & fs1' & Hd & Hopen' & _)];
    rewrite Hopen in Hopen'; inversion Hopen'; subst; clear Hopen'.
  { rewrite (neq_FR_OK _ Hr). intros [= <- <- <-].
    exists []. split; [constructor|]. split; [reflexivity|].
    destruct (files fs !! filename); [apply prefix_nil|auto]. }
  cbn [Z.eqb FR_OK negb]. rewrite Hd.
  destruct (skip_header_cases fs1' data buffer)
    as [(r & fs2 & Hr & ->)|(fs2 & file2 & buffer2 & -> & Hdata & Hrest & _)].
  { intros [= <- <- <-].
    exists []. split; [constructor|]. split; [reflexivity|apply prefix_nil]. }
  destruct (storeLoop _ fs2 file2 buffer2 _)
    as [[[[[r1 r2] r3] r4] r5]|] eqn:Hloop; [|discriminate].
  intros [= -> -> ->].
  apply (storeLoop_prefix page_pos sector_pos) in Hloop.
  destruct Hloop as (chunks & Hpre & Hall & Hprog).
  exists chunks. rewrite Hprog, <- Hrest. auto.
Qed.

Lemma spec_pad_len_multiple (n : nat) :
  (0 < FLASH_PAGE_SIZE)%nat ->
  ((n + spec_pad_len n) mod FLASH_PAGE_SIZE = 0)%nat
  /\ (spec_pad_len n < FLASH_PAGE_SIZE)%nat.
Proof.
  intros Hp. unfold spec_pad_len.
  pose proof (Nat.mod_upper_bound n FLASH_PAGE_SIZE ltac:(lia)) as Hlt.
  pose proof (Nat.div_mod_eq n FLASH_PAGE_SIZE) as Hn.
  split; [|apply Nat.mod_upper_bound; lia].
  destruct (Nat.eq_dec (n mod FLASH_PAGE_SIZE)%nat 0%nat) as [E|E].
  - rewrite E, Nat.sub_0_r, Nat.Div0.mod_same, Nat.add_0_r. exact E.
  - rewrite (Nat.mod_small (FLASH_PAGE_SIZE - _)) by lia.
    replace (n + (FLASH_PAGE_SIZE - n mod FLASH_PAGE_SIZE))%nat
      with (FLASH_PAGE_SIZE * S (n / FLASH_PAGE_SIZE))%nat
      by (rewrite Nat.mul_succ_r; lia).
    rewrite Nat.mul_comm. apply Nat.Div0.mod_mul.
Qed.

(** X11. When the sector is a whole number of pages, the size
    programmed for a chunk of at most one sector is the least multiple of
    the page that holds the chunk, and it does not exceed the sector: the
    padding written by [memset] stays inside the sector buffer, whose
    length the padding and the byte swap leave as it is. *)
Theorem programSize_of_within_the_sector
    (buffer : list ascii) (bytesRead : nat) (offset : Z) :
  (0 < FLASH_PAGE_SIZE)%nat ->
  (0 < FLASH_SECTOR_SIZE)%nat ->
  (FLASH_SECTOR_SIZE mod FLASH_PAGE_SIZE = 0)%nat ->
  (bytesRead <= FLASH_SECTOR_SIZE)%nat ->
  length buffer = FLASH_SECTOR_SIZE ->
  (bytesRead <= programSize_of bytesRead <= FLASH_SECTOR_SIZE)%nat
  /\ (programSize_of bytesRead mod FLASH_PAGE_SIZE = 0)%nat
  /\ (programSize_of bytesRead < bytesRead + FLASH_PAGE_SIZE)%nat
  /\ length (pad_buffer buffer bytesRead) = FLASH_SECTOR_SIZE
  /\ length (fst (program_chunk buffer bytesRead offset)) = FLASH_SECTOR_SIZE.
Proof.
  intros page_pos sector_pos Hdiv Hread Hlen.
  pose proof (programSize_of_spec page_pos sector_pos bytesRead) as Hsize.
  destruct (spec_pad_len_multiple bytesRead page_pos) as [Hmul Hpad].
  assert (Hle : (programSize_of bytesRead <= FLASH_SECTOR_SIZE)%nat).
  { rewrite Hsize.
    apply Nat.Div0.div_exact in Hdiv.
    apply Nat.Div0.div_exact in Hmul.
    set (m := (FLASH_SECTOR_SIZE / FLASH_PAGE_SIZE)%nat) in *.
    set (q := ((bytesRead + spec_pad_len bytesRead) / FLASH_PAGE_SIZE)%nat) in *.
    destruct (Nat.le_gt_cases q m) as [Hq|Hq]; [nia|].
    assert (FLASH_PAGE_SIZE * S m <= FLASH_PAGE_SIZE * q)%nat
      by (apply Nat.mul_le_mono_l; lia).
    rewrite Nat.mul_succ_r in *. lia. }
  assert (Hpadded : length (pad_buffer buffer bytesRead) = FLASH_SECTOR_SIZE).
  { unfold pad_buffer.
    destruct (Nat.eqb_spec (bytesRead mod FLASH_PAGE_SIZE) 0) as [E|E];
      cbn [negb]; [exact Hlen|].
    unfold memset. rewrite !length_app, length_take, length_replicate, length_drop.
    unfold programSize_of in Hle, Hsize.
    destruct (Nat.eqb_spec (bytesRead mod FLASH_PAGE_SIZE) 0) as [E'|_];
      [contradiction|]. cbn [negb] in Hle, Hsize. lia. }
  split; [lia|]. split; [rewrite Hsize; exact Hmul|]. split; [lia|].
  split; [exact Hpadded|].
  unfold program_chunk. cbn [fst]. unfold CHANGE_ENDIANESS_BLOCK16.
  rewrite length_app, swap16_length, length_take, length_drop, Hpadded. lia.
Qed.

(** ** Further properties of the command handlers *)

Lemma menu_level (s : Emul) :
  menuLevel (menu s) = TERM_ROMS_MENU_MAIN
  /\ keepActive (menu s) = keepActive s
  /\ delayMode (menu s) = delayMode s
  /\ currentRomPage (menu s) = currentRomPage s.
Proof. unfold menu, showTitle. repeat split; frame; congruence. Qed.

(** X12. At the level that lists the card, a number between 1 and
    the number of entries selects the entry of that row: its file name
    becomes the selected ROM, all settings are saved, and the main menu is
    shown; any other text changes no setting and leaves the level, with a
    message that the number is not valid. *)
Theorem cmdUnknown_selects_from_the_card (arg : string) (s : Emul) :
  menuLevel s = TERM_ROMS_MENU_BROWSE_SD ->
  let romNumber := atoi arg in
  let s' := cmdUnknown arg s in
  (0 < romNumber <= romsCount s ->
   aconfig s'
   = settings_save
       (settings_put_string (aconfig s) ACONFIG_PARAM_ROM_SELECTED
          (filename (rom_at s (romNumber - 1))))
   /\ settings_find_entry (aconfig s') ACONFIG_PARAM_ROM_SELECTED
      = Some (filename (rom_at s (romNumber - 1)))
   /\ saved (aconfig s') = entries (aconfig s')
   /\ menuLevel s' = TERM_ROMS_MENU_MAIN)
  /\ (~ 0 < romNumber <= romsCount s ->
      aconfig s' = aconfig s
      /\ menuLevel s' = menuLevel s
      /\ term s'
         = term s
           ++ ["Invalid ROM number. Please select a valid ROM " +:+ "number."
               +:+ nl]).
Proof.
  intros Hlevel. cbv zeta. unfold cmdUnknown, invalid_rom_number.
  rewrite Hlevel.
  cbn [Z.eqb TERM_ROMS_MENU_BROWSE_SD TERM_ROMS_MENU_MAIN Pos.eqb].
  split.
  - intros [Hlo Hhi].
    destruct (Z.ltb_spec 0 (atoi arg)); [|lia].
    destruct (Z.leb_spec (atoi arg) (romsCount s)); [|lia].
    cbn [andb]. cbv zeta.
    match goal with
    | |- context [menu ?t] =>
        destruct (menu_frame t) as (_ & _ & ->);
        destruct (menu_level t) as (-> & _)
    end.
    emul_simpl. unfold settings_find_entry.
    cbn [settings_save settings_put_string entries saved].
    rewrite lookup_insert_eq. repeat split.
  - intros Hout.
    assert (Hb : (0 <? atoi arg) && (atoi arg <=? romsCount s) = false).
    { destruct (Z.ltb_spec 0 (atoi arg)); [|reflexivity].
      destruct (Z.leb_spec (atoi arg) (romsCount s)); [lia|reflexivity]. }
    rewrite Hb. emul_simpl. rewrite Hlevel. repeat split.
Qed.

(** X13. At the level that shows one remote entry, RETURN alone
    clears the selected ROM and saves the settings, hands the engine the
    address made of its protocol, its host and the file name of the entry,
    invokes [download_start] once and shows the main menu; any other
    input goes back to the list of the current page and leaves the engine
    and the settings alone. *)
Theorem cmdUnknown_confirms_a_download (arg : string) (s : Emul) :
  menuLevel s = TERM_ROMS_MENU_BROWSE_NETWORK + TERM_ROMS_MENU_SUBMENU ->
  let s' := cmdUnknown arg s in
  (is_empty arg || starts_with LF arg = true ->
   aconfig s'
   = settings_save
       (settings_put_string (aconfig s) ACONFIG_PARAM_ROM_SELECTED "")
   /\ dl_filepath (engine s')
      = snprintf (MAX_PATH_SIZE * 2)
          (dl_protocol (engine s) +:+ "://" +:+ dl_host (engine s) +:+ "/"
           +:+ filename (rom_at s (downloadRomSelected s)))
   /\ dl_calls (engine s') = dl_calls (engine s) ++ [call_start]
   /\ dl_status (engine s') = snd (download_start_outcome
                                     (download_setFilepath (engine s)
                                        (dl_filepath (engine s'))))
   /\ menuLevel s' = TERM_ROMS_MENU_MAIN)
  /\ (is_empty arg || starts_with LF arg = false ->
      engine s' = engine s
      /\ aconfig s' = aconfig s
      /\ menuLevel s' = TERM_ROMS_MENU_BROWSE_NETWORK
      /\ currentRomPage s' = currentRomPage s).
Proof.
  intros Hlevel. cbv zeta. unfold cmdUnknown. rewrite Hlevel.
  change (TERM_ROMS_MENU_BROWSE_NETWORK + TERM_ROMS_MENU_SUBMENU) with 258.
  cbn [Z.eqb Pos.eqb TERM_ROMS_MENU_BROWSE_SD TERM_ROMS_MENU_MAIN
       TERM_ROMS_MENU_BROWSE_NETWORK].
  split; intros Harg; rewrite Harg; cbv zeta.
  - unfold download_start.
    destruct (download_start_outcome _) as [err st] eqn:Hstart.
    cbv beta iota zeta.
    match goal with
    | |- context [menu ?t] =>
        destruct (menu_frame t) as (-> & _ & ->);
        destruct (menu_level t) as (-> & _)
    end.
    emul_simpl in Hstart.
    destruct (negb (err =? DOWNLOAD_OK)); emul_simpl;
      cbn [download_invoke download_setFilepath dl_filepath dl_calls dl_status
           dl_protocol dl_host];
      unfold rom_at in *; emul_simpl; emul_simpl in Hstart;
      rewrite Hstart; repeat split.
  - unfold navigatePages, displayRomsPage.
    destruct (page_bounds _ _ _) as [startIndex endIndex].
    repeat split; frame; reflexivity.
Qed.

(** X14. The delay command inverts the delay mode and shows the main
    menu with the line for the new mode; it writes no setting, so that
    the mode is persisted by a launch only; two delay commands restore the
    mode. *)
Theorem cmdDelay_toggles (arg arg' : string) (s : Emul) :
  delayMode (cmdDelay arg s) = negb (delayMode s)
  /\ delayMode (cmdDelay arg' (cmdDelay arg s)) = delayMode s
  /\ aconfig (cmdDelay arg s) = aconfig s
  /\ menuLevel (cmdDelay arg s) = TERM_ROMS_MENU_MAIN
  /\ In ((if delayMode s then "[R] Enable ROM delay/ripper mode"
          else "[R] Disable ROM delay/ripper mode") +:+ nl)
       (term (cmdDelay arg s)).
Proof.
  assert (Hmode : forall a t, delayMode (cmdDelay a t) = negb (delayMode t)).
  { intros a t. unfold cmdDelay. cbv zeta.
    match goal with
    | |- context [menu ?u] => destruct (menu_level u) as (_ & _ & -> & _)
    end.
    reflexivity. }
  split; [apply Hmode|]. split; [rewrite !Hmode; apply negb_involutive|].
  unfold cmdDelay. cbv zeta.
  match goal with
  | |- context [menu ?u] =>
      destruct (menu_frame u) as (_ & _ & ->);
      destruct (menu_level u) as (-> & _)
  end.
  split; [reflexivity|]. split; [reflexivity|].
  unfold menu, showTitle. emul_simpl.
  destruct (delayMode s); cbn [negb]; frame;
    repeat (rewrite in_app_iff; cbn [In]); tauto.
Qed.

Lemma menu_flags (s : Emul) : flags (menu s) = flags s.
Proof. unfold flags, menu, showTitle. f_equal; frame; reflexivity. Qed.

Lemma navigatePages_flags (pageNumber : Z) (s : Emul) :
  flags (navigatePages pageNumber s) = flags s.
Proof.
  unfold flags, navigatePages, displayRomsPage.
  destruct (page_bounds _ _ _) as [startIndex endIndex].
  f_equal; frame; reflexivity.
Qed.

Lemma scan_dir_flags (folder : string) (dir : list FILINFO) :
  forall s, flags (scan_dir folder dir s) = flags s.
Proof.
  induction dir as [|fno dir IH]; intros s; cbn [scan_dir];
    destruct (next_fault (fatfs s)) as [res fs]; [reflexivity|].
  cbv zeta. split_ifs; rewrite ?IH; reflexivity.
Qed.

Lemma csv_lines_flags (lines : list string) :
  forall lineNum s, flags (csv_lines lines lineNum s) = flags s.
Proof.
  induction lines as [|line lines IH]; intros lineNum s; cbn [csv_lines];
    destruct (next_fault (fatfs s)) as [res fs]; [reflexivity|].
  cbv zeta. split_ifs; rewrite ?IH; reflexivity.
Qed.

Lemma readRomsSdcard_flags (folder : string) (s : Emul) :
  flags (readRomsSdcard folder s) = flags s.
Proof.
  unfold readRomsSdcard.
  destruct (f_opendir (fatfs s) folder) as [[res dir] fs].
  destruct (negb (res =? FR_OK)); [reflexivity|].
  unfold flags at 1. emul_simpl. fold (flags (scan_dir folder dir
    (set_romsCount 0 (set_fatfs fs s)))).
  rewrite scan_dir_flags. reflexivity.
Qed.

Lemma readRomsCsv_flags (csvFilepath : string) (s : Emul) :
  flags (readRomsCsv csvFilepath s) = flags s.
Proof.
  unfold readRomsCsv. emul_simpl.
  destruct (f_open (fatfs s) csvFilepath) as [[res csvFile] fs].
  destruct (negb (res =? FR_OK)); [reflexivity|]. emul_simpl.
  destruct (next_fault fs) as [res' fs'].
  destruct (gets_lines _ _ _ _) as [|header lines]; [reflexivity|].
  destruct (negb (res' =? FR_OK)); [reflexivity|].
  unfold flags at 1. emul_simpl.
  match goal with
  | |- context [csv_lines lines 0 ?t] =>
      change (flags (csv_lines lines 0 t) = flags s)
  end.
  rewrite csv_lines_flags. reflexivity.
Qed.

Lemma cmdUnknown_flags (arg : string) (s : Emul) :
  flags (cmdUnknown arg s) = flags s.
Proof.
  unfold cmdUnknown, invalid_rom_number.
  destruct (menuLevel s =? TERM_ROMS_MENU_MAIN); [apply menu_flags|].
  destruct (menuLevel s =? TERM_ROMS_MENU_BROWSE_SD).
  { cbv zeta.
    destruct ((0 <? atoi arg) && (atoi arg <=? romsCount s)); [|reflexivity].
    rewrite menu_flags. reflexivity. }
  destruct (menuLevel s =? TERM_ROMS_MENU_BROWSE_NETWORK).
  { cbv zeta.
    destruct ((0 <? atoi arg) && (atoi arg <=? romsCount s)); reflexivity. }
  destruct (menuLevel s
            =? TERM_ROMS_MENU_BROWSE_NETWORK + TERM_ROMS_MENU_SUBMENU).
  { destruct (is_empty arg || starts_with LF arg).
    - cbv zeta. unfold download_start.
      destruct (download_start_outcome _) as [err st].
      rewrite menu_flags.
      destruct (negb (err =? DOWNLOAD_OK)); reflexivity.
    - cbv zeta. rewrite navigatePages_flags. reflexivity. }
  destruct (menuLevel s =? TERM_ROMS_MENU_LAUNCH); reflexivity.
Qed.

Lemma download_step_flags (now startDownloadTime : Z) (s : Emul) :
  flags (snd (download_step now startDownloadTime s)) = flags s.
Proof.
  unfold download_step, download_getStatus.
  destruct (dl_status (engine s)); cbn [snd]; try reflexivity.
  - destruct (_ <? 0); [|reflexivity]. unfold download_start.
    destruct (download_start_outcome _) as [err st].
    destruct (negb (err =? DOWNLOAD_OK)); reflexivity.
  - unfold romDownloadUpdate.
    destruct (0 <? downloadRomSelected _); [|reflexivity].
    cbv zeta. rewrite menu_flags. reflexivity.
Qed.

(** What [cmdLaunch] leaves behind, by the result of the provisioning
    call. *)
Lemma cmdLaunch_cases (arg : string) (s : Emul) :
  exists s',
    cmdLaunch arg s = Some s'
    /\ resetDeviceAtBoot s' = resetDeviceAtBoot s
    /\ match settings_find_entry (aconfig s) ACONFIG_PARAM_ROM_SELECTED with
       | None =>
           aconfig s' = aconfig s /\ keepActive s' = keepActive s
           /\ flash s' = flash s
       | Some value =>
           exists fresult fs ops,
             storeFileToFlash (fatfs s)
               (snprintf MAX_PATH_SIZE (romsFolder s +:+ "/" +:+ value))
               (wrap32 _rom_temp_start) stack_garbage
             = Some (fresult, fs, ops)
             /\ flash s' = flash s ++ ops
             /\ (fresult <> FR_OK ->
                 aconfig s' = aconfig s /\ keepActive s' = keepActive s
                 /\ last (debug s')
                    = Some ("Error loading ROM file into FLASH: %d" +:+ nl,
                            [arg_d fresult]))
             /\ (fresult = FR_OK ->
                 aconfig s'
                 = settings_save
                     (settings_put_integer (aconfig s) ACONFIG_PARAM_ROM_MODE
                        (if delayMode s then ROM_MODE_DELAY
                         else ROM_MODE_DIRECT))
                 /\ keepActive s' = false)
       end.
Proof.
  unfold cmdLaunch. cbv zeta.
  set (s0 := term_printString ("The ROM will boot shortly..." +:+ nl +:+ nl)
               (set_menuLevel TERM_ROMS_MENU_LAUNCH s)).
  set (s1 := if delayMode s0 then _ else s0).
  assert (H1 : aconfig s1 = aconfig s /\ keepActive s1 = keepActive s
               /\ flash s1 = flash s /\ fatfs s1 = fatfs s
               /\ romsFolder s1 = romsFolder s /\ delayMode s1 = delayMode s
               /\ resetDeviceAtBoot s1 = resetDeviceAtBoot s).
  { subst s1 s0. emul_simpl. destruct (delayMode s) eqn:E; emul_simpl;
      rewrite ?E; repeat split; reflexivity. }
  destruct H1 as (Ha & Hk & Hf & Hfs & Hr & Hd & Hb).
  set (s2 := term_printString _ (term_printString _ s1)).
  assert (H2 : aconfig s2 = aconfig s /\ keepActive s2 = keepActive s
               /\ flash s2 = flash s /\ fatfs s2 = fatfs s
               /\ romsFolder s2 = romsFolder s /\ delayMode s2 = delayMode s
               /\ resetDeviceAtBoot s2 = resetDeviceAtBoot s).
  { subst s2. emul_simpl. auto 10. }
  clearbody s2. clear Ha Hk Hf Hfs Hr Hd Hb. clearbody s1. clear s1 s0.
  destruct H2 as (Ha & Hk & Hf & Hfs & Hr & Hd & Hb).
  rewrite Ha.
  destruct (settings_find_entry (aconfig s) ACONFIG_PARAM_ROM_SELECTED)
    as [value|].
  - emul_simpl. rewrite Hfs, Hr.
    destruct (storeFileToFlash_total (fatfs s)
                (snprintf MAX_PATH_SIZE (romsFolder s +:+ "/" +:+ value))
                (wrap32 _rom_temp_start) stack_garbage)
      as [[[fresult fs] ops] Hrun].
    rewrite Hrun.
    destruct (Z.eqb_spec fresult FR_OK) as [->|Hne]; cbn [negb].
    + eexists. split; [reflexivity|]. split; [exact Hb|].
      exists FR_OK, fs, ops.
      emul_simpl. rewrite Ha, Hf, Hd. repeat split; congruence.
    + eexists. split; [reflexivity|]. split; [exact Hb|].
      exists fresult, fs, ops.
      emul_simpl. rewrite Hf. repeat split; try congruence.
      apply last_snoc.
  - eexists. split; [reflexivity|]. emul_simpl. auto.
Qed.

Lemma storeFileToFlash_missing (fs : FatFs) (filename : string)
    (flashAddress : Z) (buffer : list ascii) :
  files fs !! filename = None ->
  exists res fs',
    storeFileToFlash fs filename flashAddress buffer = Some (res, fs', [])
    /\ res <> FR_OK.
Proof.
  intros Hnone. unfold storeFileToFlash.
  destruct (f_open_cases fs filename)
    as [(r & fs1 & Hr & ->)|(data & fs1 & Hd & _)]; [|congruence].
  rewrite (neq_FR_OK r Hr). eauto.
Qed.

(** X15. Launching a selection whose file is not on the card programs
    nothing: the flash calls, the settings and the flag that keeps the
    menu running are what they were, and the error is logged. *)
Theorem cmdLaunch_of_a_missing_file (arg value : string) (s : Emul) :
  settings_find_entry (aconfig s) ACONFIG_PARAM_ROM_SELECTED = Some value ->
  files (fatfs s)
    !! snprintf MAX_PATH_SIZE (romsFolder s +:+ "/" +:+ value) = None ->
  exists s' fresult,
    cmdLaunch arg s = Some s'
    /\ fresult <> FR_OK
    /\ flash s' = flash s
    /\ aconfig s' = aconfig s
    /\ keepActive s' = keepActive s
    /\ last (debug s')
       = Some ("Error loading ROM file into FLASH: %d" +:+ nl, [arg_d fresult]).
Proof.
  intros Hsel Hnone.
  destruct (cmdLaunch_cases arg s) as (s' & Hrun & _ & Hcases).
  rewrite Hsel in Hcases.
  destruct Hcases as (fresult & fs & ops & Hstore & Hflash & Herr & _).
  destruct (storeFileToFlash_missing (fatfs s)
              (snprintf MAX_PATH_SIZE (romsFolder s +:+ "/" +:+ value))
              (wrap32 _rom_temp_start) stack_garbage Hnone)
    as (res & fs1 & Hmiss & Hres).
  rewrite Hmiss in Hstore. inversion Hstore; subst fresult fs ops.
  destruct (Herr Hres) as (Ha & Hk & Hlog).
  exists s', res. rewrite app_nil_r in Hflash. auto 10.
Qed.

(** ** Further properties of the main loop *)

Lemma commands_flags :
  Forall (fun entry : string * handler =>
            (fst entry = "l"%string /\ snd entry = cmdLaunch)
            \/ (fst entry = "x"%string /\ snd entry = total cmdBooster)
            \/ forall arg s s',
                 snd entry arg s = Some s' -> flags s' = flags s)
    commands.
Proof.
  unfold commands.
  repeat (apply Forall_cons; split;
          [ first [ left; split; reflexivity
                  | right; left; split; reflexivity
                  | right; right; intros arg s s' Hrun; cbn [snd] in Hrun ] |]);
    [..|constructor];
    try (unfold term_handler in Hrun;
         destruct (term_cmd _ arg _) as [ctx out];
         inversion Hrun; reflexivity);
    unfold total in Hrun; inversion Hrun; subst s'; clear Hrun.
  - apply menu_flags.
  - unfold cmdNext. cbv zeta. rewrite navigatePages_flags.
    destruct (_ <? _); reflexivity.
  - unfold cmdPrev. cbv zeta. rewrite navigatePages_flags.
    destruct (_ <? _); reflexivity.
  - reflexivity.
  - unfold cmdCard. cbv zeta.
    destruct (_ =? 0).
    + change (flags (readRomsSdcard (romsFolder s) s) = flags s).
      apply readRomsSdcard_flags.
    + rewrite navigatePages_flags.
      change (flags (readRomsSdcard (romsFolder s) s) = flags s).
      apply readRomsSdcard_flags.
  - unfold cmdNetwork. cbv zeta. rewrite navigatePages_flags.
    change (flags (readRomsCsv "/roms/roms.csv" s) = flags s).
    apply readRomsCsv_flags.
  - unfold cmdDelay. cbv zeta. rewrite menu_flags. reflexivity.
  - reflexivity.
  - reflexivity.
  - apply cmdUnknown_flags.
Qed.

Lemma term_loop_flags (input : option (string * string)) (s s' : Emul) :
  term_loop input s = Some s' ->
  flags s' = flags s
  \/ (exists arg, input = Some ("l"%string, arg) /\ cmdLaunch arg s = Some s')
  \/ (exists arg, input = Some ("x"%string, arg) /\ s' = cmdBooster arg s).
Proof.
  unfold term_loop. destruct input as [[key arg]|].
  2:{ intros [= ->]. left. reflexivity. }
  destruct (list_find _ commands) as [[i [k h]]|] eqn:Hfind.
  - apply list_find_Some in Hfind. destruct Hfind as (Hi & Hk & _).
    cbn [fst] in Hk. apply Is_true_true in Hk. apply String.eqb_eq in Hk.
    subst k.
    pose proof commands_flags as Hall. rewrite Forall_lookup in Hall.
    specialize (Hall i _ Hi). cbn [fst snd] in Hall.
    destruct Hall as [[-> ->]|[[-> ->]|Hkeep]]; intros Hrun.
    + right. left. eauto.
    + right. right. exists arg. unfold total in Hrun.
      split; [reflexivity|]. inversion Hrun. reflexivity.
    + left. eapply Hkeep, Hrun.
  - unfold total. intros [= <-]. left. apply cmdUnknown_flags.
Qed.

(** X16. A round of the main loop clears the flag that keeps the loop
    running in two cases only: the launch command, when the provisioning
    call has succeeded, which leaves the flag that asks for a device reset
    as it was, and the booster command, which clears that flag as well. No
    other command, the exit command included, and no step of the download
    state machine ends the loop. *)
Theorem loop_ends_by_launch_or_booster
    (input : option (string * string)) (now startDownloadTime : Z)
    (s : Emul) (startDownloadTime' : Z) (s' : Emul) :
  keepActive s = true ->
  loop_iteration input now startDownloadTime s = Some (startDownloadTime', s') ->
  keepActive s' = false ->
  (exists arg, input = Some ("l"%string, arg)
               /\ resetDeviceAtBoot s' = resetDeviceAtBoot s)
  \/ (exists arg, input = Some ("x"%string, arg)
                  /\ resetDeviceAtBoot s' = false).
Proof.
  intros Hon Hrun Hoff. unfold loop_iteration in Hrun.
  destruct (term_loop input s) as [s1|] eqn:Hterm; [|discriminate].
  inversion Hrun as [Hstep]. clear Hrun.
  pose proof (download_step_flags now startDownloadTime s1) as Hflags.
  rewrite Hstep in Hflags. cbn [snd] in Hflags.
  unfold flags in Hflags. inversion Hflags as [[Hk Hr]]. clear Hflags.
  destruct (term_loop_flags input s s1 Hterm)
    as [Hsame|[(arg & -> & Hlaunch)|(arg & -> & ->)]].
  - unfold flags in Hsame. inversion Hsame. congruence.
  - left. exists arg. split; [reflexivity|].
    destruct (cmdLaunch_cases arg s) as (s2 & Hrun & Hreset & _).
    rewrite Hrun in Hlaunch. inversion Hlaunch; subst s2. congruence.
  - right. exists arg. split; [reflexivity|]. rewrite Hr. reflexivity.
Qed.

(** X17. Once the flag that keeps the loop running is cleared, the
    loop is over: the rounds that would follow serve no input and take no
    step of the download state machine. *)
Theorem main_loop_stops_when_not_kept_active
    (rounds rest : list (option (string * string) * Z))
    (startDownloadTime : Z) (s : Emul) (startDownloadTime' : Z) (s' : Emul) :
  main_loop rounds startDownloadTime s = Some (startDownloadTime', s') ->
  keepActive s' = false ->
  main_loop (rounds ++ rest) startDownloadTime s
  = Some (startDownloadTime', s').
Proof.
  revert startDownloadTime s.
  induction rounds as [|[input now] rounds IH]; intros t s Hrun Hoff.
  - cbn [main_loop] in Hrun. inversion Hrun; subst.
    destruct rest as [|[input now] rest]; cbn [app main_loop]; [reflexivity|].
    rewrite Hoff. reflexivity.
  - cbn [app main_loop] in *.
    destruct (keepActive s); [|exact Hrun].
    destruct (loop_iteration input now t s) as [[t1 s1]|]; [|discriminate].
    apply IH; assumption.
Qed.

(** X18. When a download completes while a row after the first is
    selected, the step invokes finish and confirm, resets the status to
    Idle, stores the file name of the selected entry as the selected ROM,
    saves the settings and shows the main menu. *)
Theorem completed_download_of_a_later_row
    (now startDownloadTime : Z) (s : Emul) :
  dl_status (engine s) = DOWNLOAD_STATUS_COMPLETED ->
  0 < downloadRomSelected s ->
  let s' := snd (download_step now startDownloadTime s) in
  dl_status (engine s') = DOWNLOAD_STATUS_IDLE
  /\ dl_calls (engine s') = dl_calls (engine s) ++ [call_finish; call_confirm]
  /\ aconfig s'
     = settings_save
         (settings_put_string (aconfig s) ACONFIG_PARAM_ROM_SELECTED
            (filename (rom_at s (downloadRomSelected s))))
  /\ menuLevel s' = TERM_ROMS_MENU_MAIN.
Proof.
  intros Hdone Hrow. cbv zeta.
  unfold download_step, download_getStatus. rewrite Hdone. cbn [snd].
  match goal with
  | |- context [romDownloadUpdate ?t] => set (s1 := t)
  end.
  assert (Hsel : downloadRomSelected s1 = downloadRomSelected s)
    by reflexivity.
  assert (Hcfg : aconfig s1 = aconfig s) by reflexivity.
  assert (Hrom : forall i, rom_at s1 i = rom_at s i) by reflexivity.
  assert (Hst : dl_status (engine s1) = DOWNLOAD_STATUS_IDLE) by reflexivity.
  assert (Hcalls : dl_calls (engine s1)
                   = dl_calls (engine s) ++ [call_finish; call_confirm]).
  { subst s1. cbn. rewrite <- app_assoc. reflexivity. }
  clearbody s1. unfold romDownloadUpdate. rewrite Hsel.
  destruct (Z.ltb_spec 0 (downloadRomSelected s)); [|lia]. cbv zeta.
  match goal with
  | |- context [menu ?t] =>
      destruct (menu_frame t) as (-> & _ & ->);
      destruct (menu_level t) as (-> & _)
  end.
  emul_simpl. rewrite Hst, Hcalls, Hcfg, Hrom. repeat split.
Qed.

(** ** Properties of the pages *)

Lemma page_indices_within (n pageSize pageNumber : Z) :
  0 < pageSize -> 0 <= pageNumber -> pageNumber * pageSize < n ->
  page_indices n pageSize pageNumber
  = seqZ (pageNumber * pageSize) (Z.min pageSize (n - pageNumber * pageSize)).
Proof.
  intros Hs Hp Hlt. unfold page_indices, page_bounds.
  destruct (Z.leb_spec pageSize 0); [lia|].
  destruct (Z.leb_spec n (pageNumber * pageSize)); [lia|].
  destruct (Z.ltb_spec n (pageNumber * pageSize + pageSize)); f_equal; lia.
Qed.

Lemma pages_prefix (n pageSize : Z) (k : nat) :
  0 < pageSize -> 0 <= n -> Z.of_nat k * pageSize < n + pageSize ->
  concat (map (page_indices n pageSize) (seqZ 0 (Z.of_nat k)))
  = seqZ 0 (Z.min (Z.of_nat k * pageSize) n).
Proof.
  intros Hs Hn. induction k as [|k IH]; intros Hk.
  - cbn [Z.of_nat]. rewrite Z.mul_0_l, Z.min_l by lia. reflexivity.
  - rewrite seqZ_S, map_app, concat_app, IH by lia.
    cbn [map concat]. rewrite app_nil_r, Z.add_0_l.
    rewrite page_indices_within by lia.
    rewrite (Z.min_l (Z.of_nat k * pageSize)) by lia.
    rewrite <- (Z.add_0_l (Z.of_nat k * pageSize)) at 2.
    rewrite <- seqZ_app by lia. f_equal. lia.
Qed.

(** X19. For a catalog of [n] entries the pages 0 to the page count
    less one, put one after the other, read every entry of the catalog
    once, in order: no entry is left out and none is shown twice. *)
Theorem pages_partition_the_catalog (n : Z) :
  0 <= n ->
  let maxRomPages := (n + MAX_ROMS_PER_PAGE - 1) `quot` MAX_ROMS_PER_PAGE in
  concat (map (page_indices n MAX_ROMS_PER_PAGE) (seqZ 0 maxRomPages))
  = seqZ 0 n.
Proof.
  intros Hn. cbv zeta.
  pose proof (page_count_ceiling n Hn) as Hpages. cbv zeta in Hpages.
  set (pages := (n + MAX_ROMS_PER_PAGE - 1) `quot` MAX_ROMS_PER_PAGE) in *.
  unfold MAX_ROMS_PER_PAGE in *.
  assert (Hnonneg : 0 <= pages) by lia.
  rewrite <- (Z2Nat.id pages Hnonneg).
  rewrite pages_prefix by lia.
  f_equal. lia.
Qed.

Lemma get_str_take (k : nat) :
  forall n str c, get n (str_take k str) = Some c -> get n str = Some c.
Proof.
  induction k as [|k IH]; intros n [|x str] c; cbn [str_take get];
    try discriminate.
  destruct n as [|n]; [auto|apply IH].
Qed.

Lemma get_append_free (c : ascii) (a : string) :
  free_of c a ->
  forall n, get n (a +:+ String c EmptyString) = Some c ->
            n = String.length a.
Proof.
  unfold free_of. induction a as [|x a IH]; intros Ha n.
  - change (EmptyString +:+ String c EmptyString) with (String c EmptyString).
    cbn [get String.length]. destruct n as [|n]; [reflexivity|].
    destruct n; discriminate.
  - rewrite append_String. cbn [get String.length list_ascii_of_string] in *.
    apply Forall_cons in Ha. destruct Ha as [Hx Ha].
    destruct n as [|n]; [intros [= E]; congruence|].
    intros Hget. f_equal. apply IH; assumption.
Qed.

Lemma substring_get (c : ascii) (str : string) :
  forall n, starts_with c (substring n 1 str) = true -> get n str = Some c.
Proof.
  induction str as [|x str IH]; intros n; destruct n as [|n];
    cbn [substring get starts_with]; try discriminate.
  - intros H. apply Ascii.eqb_eq in H. congruence.
  - apply IH.
Qed.

Lemma string_of_Z_free (z : Z) : free_of LF (string_of_Z z).
Proof.
  assert (Hu : forall d, free_of LF (NilEmpty.string_of_uint d)).
  { unfold free_of.
    induction d; cbn [NilEmpty.string_of_uint list_ascii_of_string];
      constructor; try discriminate; assumption. }
  assert (Hz : forall d, free_of LF (NilZero.string_of_uint d)).
  { intros d. destruct d; try apply Hu.
    unfold free_of. cbn. constructor; [discriminate|constructor]. }
  unfold string_of_Z, NilZero.string_of_int.
  destruct (Z.to_int z) as [d|d]; [apply Hz|].
  unfold free_of. cbn [list_ascii_of_string].
  constructor; [discriminate|apply Hz].
Qed.

(** What is cut from a text that ends with its only line feed has no
    line feed two characters before its end. *)
Lemma no_line_feed_before_the_end (body : string) (k : nat) :
  free_of LF body -> (2 <= String.length body)%nat ->
  let buff := str_take k (body +:+ nl) in
  starts_with LF (String.substring (String.length buff - 2) 1 buff) = false.
Proof.
  intros Hfree Hlen. cbv zeta.
  destruct (starts_with LF _) eqn:Hlf; [exfalso|reflexivity].
  apply substring_get, get_str_take in Hlf.
  apply (get_append_free LF body Hfree) in Hlf.
  rewrite str_take_length, append_length in Hlf. cbn [nl String.length] in Hlf.
  lia.
Qed.

(** X20. On a screen of at least four columns, the line printed for
    an entry is shorter than the screen is wide; and when the name of the
    entry has no line feed in it, the line ends with a line feed, also
    when the name had to be cut. *)
Theorem rom_line_fits_the_screen (i : Z) (r : ROM) :
  (4 <= TERM_SCREEN_SIZE_X)%nat ->
  (String.length (rom_line i r) <= TERM_SCREEN_SIZE_X - 1)%nat
  /\ (free_of LF (name r) -> exists body, rom_line i r = body +:+ nl).
Proof.
  intros Hwide. unfold rom_line, snprintf. cbv zeta.
  set (formatted := string_of_Z (i + 1) +:+ ". " +:+ name r +:+ nl).
  set (buff := str_take (TERM_SCREEN_SIZE_X - 1) formatted).
  assert (Hbuff : String.length buff
                  = Nat.min (TERM_SCREEN_SIZE_X - 1) (String.length formatted))
    by apply str_take_length.
  split.
  - destruct (Nat.leb_spec (TERM_SCREEN_SIZE_X - 2) (String.length buff));
      [|lia].
    destruct (negb _); [|lia].
    rewrite append_length, str_take_length. cbn [nl String.length]. lia.
  - intros Hname.
    assert (Hform : formatted
                    = (string_of_Z (i + 1) +:+ ". " +:+ name r) +:+ nl).
    { subst formatted. rewrite !append_assoc. reflexivity. }
    assert (Hfree : free_of LF (string_of_Z (i + 1) +:+ ". " +:+ name r)).
    { apply free_of_append; [apply string_of_Z_free|].
      apply free_of_append; [|exact Hname].
      unfold free_of. cbn. repeat constructor; discriminate. }
    assert (Hlen : (2 <= String.length
                           (string_of_Z (i + 1) +:+ ". " +:+ name r))%nat).
    { rewrite !append_length. cbn [String.length]. lia. }
    destruct (Nat.leb_spec (TERM_SCREEN_SIZE_X - 2) (String.length buff))
      as [Hcut|Hshort].
    + subst buff. rewrite Hform.
      rewrite (no_line_feed_before_the_end _ (TERM_SCREEN_SIZE_X - 1) Hfree Hlen).
      cbn [negb]. eauto.
    + subst buff. rewrite str_take_all by lia. rewrite Hform. eauto.
Qed.

Lemma cmdNext_page (arg : string) (s : Emul) :
  currentRomPage (cmdNext arg s)
  = (if currentRomPage s <? maxRomPages s - 1 then currentRomPage s + 1
     else currentRomPage s)
  /\ maxRomPages (cmdNext arg s) = maxRomPages s.
Proof.
  unfold cmdNext. cbv zeta.
  match goal with
  | |- context [navigatePages ?p ?t] =>
      destruct (navigatePages_frame p t) as (-> & -> & _)
  end.
  destruct (currentRomPage s <? maxRomPages s - 1); split; reflexivity.
Qed.

Lemma cmdPrev_page (arg : string) (s : Emul) :
  currentRomPage (cmdPrev arg s)
  = (if currentRomPage s - 1 <? 0 then 0 else currentRomPage s - 1)
  /\ maxRomPages (cmdPrev arg s) = maxRomPages s.
Proof.
  unfold cmdPrev. cbv zeta.
  match goal with
  | |- context [navigatePages ?p ?t] =>
      destruct (navigatePages_frame p t) as (-> & -> & _)
  end.
  emul_simpl. destruct (currentRomPage s - 1 <? 0); split; reflexivity.
Qed.

(** X21. With the current page among the pages, the previous command
    undoes the next command unless the page is the last one, where the next
    command stays, and the next command undoes the previous command unless
    the page is the first one, where the previous command stays. *)
Theorem cmdNext_and_cmdPrev_are_inverse (arg arg' : string) (s : Emul) :
  page_in_range s ->
  (currentRomPage s < maxRomPages s - 1 ->
   currentRomPage (cmdPrev arg' (cmdNext arg s)) = currentRomPage s)
  /\ (maxRomPages s - 1 <= currentRomPage s ->
      currentRomPage (cmdNext arg s) = currentRomPage s)
  /\ (0 < currentRomPage s ->
      currentRomPage (cmdNext arg (cmdPrev arg' s)) = currentRomPage s)
  /\ (currentRomPage s = 0 -> currentRomPage (cmdPrev arg' s) = 0).
Proof.
  unfold page_in_range. intros Hrange.
  destruct (cmdNext_page arg s) as [Hn Hnm].
  destruct (cmdPrev_page arg' s) as [Hp Hpm].
  destruct (cmdPrev_page arg' (cmdNext arg s)) as [Hpn _].
  destruct (cmdNext_page arg (cmdPrev arg' s)) as [Hnp _].
  rewrite Hpn, Hn. rewrite Hnp, Hp, Hpm. clear Hpn Hnp Hn Hp Hnm Hpm.
  destruct (Z.ltb_spec (currentRomPage s) (maxRomPages s - 1));
    destruct (Z.ltb_spec (currentRomPage s - 1) 0);
    repeat split; intros Hcase;
    repeat match goal with
           | |- context [?a <? ?b] => destruct (Z.ltb_spec a b)
           end; lia.
Qed.

(** ** Properties of the start and of the end of [emul_start] *)

Lemma select_loop_pushed (polls : list bool) :
  (0 < count_occ bool_dec polls true)%nat ->
  exists calls rest,
    select_loop polls = Some (calls, rest)
    /\ last calls = Some select_waitPush
    /\ count_occ bool_dec rest true
       = (count_occ bool_dec polls true - 1)%nat.
Proof.
  induction polls as [|b polls IH]; cbn [count_occ select_loop]; [lia|].
  destruct b; destruct (bool_dec _ true) as [E|E]; try congruence;
    intros Hcount.
  - exists [select_waitPush], polls. repeat split. lia.
  - destruct (IH Hcount) as (calls & rest & -> & Hlast & Hrest).
    exists (sleep_ms SLEEP_LOOP_MS :: calls), rest. repeat split; [|exact Hrest].
    destruct calls; [discriminate|exact Hlast].
Qed.

Lemma select_loop_not_pushed (polls : list bool) :
  count_occ bool_dec polls true = 0%nat -> select_loop polls = None.
Proof.
  induction polls as [|b polls IH]; cbn [count_occ select_loop];
    [reflexivity|].
  destruct b; destruct (bool_dec _ true) as [E|E]; try congruence;
    intros Hcount; try lia.
  rewrite (IH Hcount). reflexivity.
Qed.

Lemma app_mode_value (value : string) (s : Emul) :
  settings_find_entry (aconfig s) ACONFIG_PARAM_ROM_MODE = Some value ->
  fst (app_mode s) = atoi value.
Proof. intros Hmode. unfold app_mode. rewrite Hmode. reflexivity. Qed.

Lemma emul_start_mode_setup (polls : list bool) (s : Emul) :
  fst (app_mode s) <> ROM_MODE_DIRECT ->
  fst (app_mode s) <> ROM_MODE_DELAY ->
  exists s', emul_start_mode polls s = Some (inr s').
Proof.
  unfold emul_start_mode. destruct (app_mode s) as [appModeValue s0].
  cbn [fst]. intros Hdirect Hdelay.
  apply Z.eqb_neq in Hdirect, Hdelay. rewrite Hdirect, Hdelay. eauto.
Qed.

Lemma atoi_of_mode :
  atoi (string_of_Z ROM_MODE_SETUP) = ROM_MODE_SETUP
  /\ atoi (string_of_Z ROM_MODE_DIRECT) = ROM_MODE_DIRECT
  /\ atoi (string_of_Z ROM_MODE_DELAY) = ROM_MODE_DELAY.
Proof. vm_compute. repeat split. Qed.

(** X22. With a device mode that reads as direct or delayed, the
    start of [emul_start] gets to its [reset_device] exactly when SELECT is
    pushed as often as the mode waits for it (once, or twice in the delayed
    mode); it has then written the setup mode to the settings and saved
    them, and has touched neither the terminal, the flash nor the card, so
    that the next start reads the setup mode and shows the menu. With
    fewer pushes it is still waiting. *)
Theorem emul_start_mode_emulates_once
    (value : string) (polls : list bool) (s : Emul) :
  settings_find_entry (aconfig s) ACONFIG_PARAM_ROM_MODE = Some value ->
  atoi value = ROM_MODE_DIRECT \/ atoi value = ROM_MODE_DELAY ->
  ((count_occ bool_dec polls true < pushes_needed (atoi value))%nat ->
   emul_start_mode polls s = None)
  /\ ((pushes_needed (atoi value) <= count_occ bool_dec polls true)%nat ->
      exists calls s',
        emul_start_mode polls s = Some (inl (calls, s'))
        /\ last calls = Some reset_device
        /\ aconfig s'
           = settings_save
               (settings_put_integer (aconfig s) ACONFIG_PARAM_ROM_MODE
                  ROM_MODE_SETUP)
        /\ term s' = term s /\ flash s' = flash s /\ fatfs s' = fatfs s
        /\ forall polls',
             exists s'', emul_start_mode polls' (rebooted s') = Some (inr s'')).
Proof.
  intros Hmode Hvalue.
  assert (Hdone : forall calls1 calls2 (t : Emul),
    aconfig t = aconfig s -> term t = term s -> flash t = flash s ->
    fatfs t = fatfs s ->
    let s' :=
      set_aconfig
        (settings_save
           (aconfig
              (set_aconfig
                 (settings_put_integer (aconfig t) ACONFIG_PARAM_ROM_MODE
                    ROM_MODE_SETUP) t)))
        (set_aconfig
           (settings_put_integer (aconfig t) ACONFIG_PARAM_ROM_MODE
              ROM_MODE_SETUP) t) in
    last (calls1
          ++ [ COPY_FIRMWARE_TO_RAM (wrap32 _rom_temp_start)
                 (ROM_SIZE_BYTES * ROM_BANKS);
               init_romemul ]
          ++ (if BLINK_H then [call_blink_on] else [])
          ++ calls2 ++ [reset_device]) = Some reset_device
    /\ aconfig s'
       = settings_save
           (settings_put_integer (aconfig s) ACONFIG_PARAM_ROM_MODE
              ROM_MODE_SETUP)
    /\ term s' = term s /\ flash s' = flash s /\ fatfs s' = fatfs s
    /\ forall polls',
         exists s'', emul_start_mode polls' (rebooted s') = Some (inr s'')).
  { intros calls1 calls2 t Ha Ht Hfl Hfs. cbv zeta. emul_simpl.
    rewrite Ha, Ht, Hfl, Hfs.
    split; [rewrite !app_assoc; apply last_snoc|].
    repeat (split; [reflexivity|]).
    intros polls'. apply emul_start_mode_setup.
    all: erewrite app_mode_value;
      [|unfold rebooted, settings_reload, settings_find_entry; emul_simpl;
        cbn [settings_save settings_put_integer settings_put_string entries
             saved];
        apply lookup_insert_eq].
    all: rewrite (proj1 atoi_of_mode); discriminate. }
  unfold emul_start_mode, app_mode. rewrite Hmode. cbv zeta.
  unfold pushes_needed, wait_select.
  destruct Hvalue as [Hv|Hv]; rewrite Hv;
    cbn [Z.eqb ROM_MODE_DIRECT ROM_MODE_DELAY Pos.eqb orb]; split.
  - intros Hcount.
    rewrite select_loop_not_pushed by lia. reflexivity.
  - intros Hcount.
    destruct (select_loop_pushed polls ltac:(lia))
      as (calls2 & rest & -> & Hlast & Hrest).
    do 2 eexists. split; [reflexivity|].
    apply (Hdone [] (select_configure :: select_setLongResetCallback :: calls2));
      reflexivity.
  - intros Hcount.
    destruct (Nat.eq_dec (count_occ bool_dec polls true) 0%nat) as [Hzero|Hone].
    + rewrite select_loop_not_pushed by exact Hzero. reflexivity.
    + destruct (select_loop_pushed polls ltac:(lia))
        as (calls1 & rest & -> & Hlast & Hrest).
      rewrite select_loop_not_pushed by lia. reflexivity.
  - intros Hcount.
    destruct (select_loop_pushed polls ltac:(lia))
      as (calls1 & rest & -> & Hlast & Hrest).
    destruct (select_loop_pushed rest ltac:(lia))
      as (calls2 & rest' & -> & Hlast' & Hrest').
    do 2 eexists. split; [reflexivity|].
    apply (Hdone (select_configure :: select_setLongResetCallback :: calls1)
             (select_configure :: select_setLongResetCallback :: calls2));
      reflexivity.
Qed.

(** X23. After a launch that has ended the menu, the end of
    [emul_start] resets the device and writes no setting; the next start
    reads the mode that the launch has saved, delayed if the delay mode was
    on and direct otherwise, and so takes the emulation branch. *)
Theorem launch_then_reset_emulates (arg : string) (s s1 : Emul) :
  keepActive s = true ->
  resetDeviceAtBoot s = true ->
  cmdLaunch arg s = Some s1 ->
  keepActive s1 = false ->
  fst (emul_start_exit s1) = [sleep_ms SLEEP_LOOP_MS; reset_device]
  /\ aconfig (snd (emul_start_exit s1)) = aconfig s1
  /\ fst (app_mode (rebooted (snd (emul_start_exit s1))))
     = (if delayMode s then ROM_MODE_DELAY else ROM_MODE_DIRECT)
  /\ forall polls s2,
       emul_start_mode polls (rebooted (snd (emul_start_exit s1)))
       <> Some (inr s2).
Proof.
  intros Hon Hreset Hrun Hoff.
  destruct (cmdLaunch_cases arg s) as (s' & Hrun' & Hreset' & Hcases).
  rewrite Hrun in Hrun'. inversion Hrun'; subst s'. clear Hrun'.
  assert (Hcfg :
    aconfig s1
    = settings_save
        (settings_put_integer (aconfig s) ACONFIG_PARAM_ROM_MODE
           (if delayMode s then ROM_MODE_DELAY else ROM_MODE_DIRECT))).
  { destruct (settings_find_entry (aconfig s) ACONFIG_PARAM_ROM_SELECTED).
    - destruct Hcases as (fresult & fs & ops & _ & _ & Herr & Hok).
      destruct (Z.eq_dec fresult FR_OK) as [E|E]; [apply Hok, E|].
      destruct (Herr E) as (_ & Hk & _). congruence.
    - destruct Hcases as (_ & Hk & _). congruence. }
  unfold emul_start_exit, getResetDevice. emul_simpl.
  rewrite Hreset', Hreset. cbn [fst snd]. emul_simpl.
  split; [reflexivity|]. split; [reflexivity|].
  assert (Hmode :
    settings_find_entry
      (aconfig
         (rebooted (set_display (display s1 ++ [DISPLAY_COMMAND_RESET]) s1)))
      ACONFIG_PARAM_ROM_MODE
    = Some (string_of_Z
              (if delayMode s then ROM_MODE_DELAY else ROM_MODE_DIRECT))).
  { unfold rebooted, settings_reload, settings_find_entry. emul_simpl.
    rewrite Hcfg.
    cbn [settings_save settings_put_integer settings_put_string entries saved].
    apply lookup_insert_eq. }
  assert (Hvalue :
    atoi (string_of_Z (if delayMode s then ROM_MODE_DELAY else ROM_MODE_DIRECT))
    = (if delayMode s then ROM_MODE_DELAY else ROM_MODE_DIRECT)).
  { destruct (delayMode s); apply atoi_of_mode. }
  split.
  - rewrite (app_mode_value _ _ Hmode). exact Hvalue.
  - intros polls s2. unfold emul_start_mode, app_mode.
    rewrite Hmode, Hvalue. cbv zeta.
    destruct (delayMode s);
      cbn [Z.eqb ROM_MODE_DIRECT ROM_MODE_DELAY Pos.eqb orb];
      repeat match goal with
             | |- context [wait_select ?p] => destruct (wait_select p) as [[? ?]|]
             end; discriminate.
Qed.

(** X24. After the booster command the end of [emul_start] jumps to
    the booster application, and before that it stores the setup mode,
    clears the selected ROM, when its key is not that of the mode, keeps
    every other value, and saves the settings; the next start reads the
    setup mode. *)
Theorem booster_exit_cleans_the_settings (arg : string) (s : Emul) :
  let s' := snd (emul_start_exit (cmdBooster arg s)) in
  fst (emul_start_exit (cmdBooster arg s))
  = [sleep_ms SLEEP_LOOP_MS; reset_jump_to_booster]
  /\ display s' = display s ++ [DISPLAY_COMMAND_RESET]
  /\ saved (aconfig s') = entries (aconfig s')
  /\ settings_find_entry (aconfig s') ACONFIG_PARAM_ROM_MODE
     = Some (string_of_Z ROM_MODE_SETUP)
  /\ (ACONFIG_PARAM_ROM_SELECTED <> ACONFIG_PARAM_ROM_MODE ->
      settings_find_entry (aconfig s') ACONFIG_PARAM_ROM_SELECTED
      = Some EmptyString)
  /\ (forall key,
        key <> ACONFIG_PARAM_ROM_SELECTED -> key <> ACONFIG_PARAM_ROM_MODE ->
        settings_find_entry (aconfig s') key
        = settings_find_entry (aconfig s) key)
  /\ fst (app_mode (rebooted s')) = ROM_MODE_SETUP.
Proof.
  cbv zeta. unfold emul_start_exit, getResetDevice, cmdBooster. emul_simpl.
  cbn [fst snd]. emul_simpl.
  unfold settings_find_entry.
  cbn [settings_save settings_put_integer settings_put_string entries saved].
  split; [reflexivity|]. split; [reflexivity|]. split; [reflexivity|].
  split; [apply lookup_insert_eq|].
  split; [intros Hkeys; rewrite lookup_insert_ne by congruence;
          apply lookup_insert_eq|].
  split; [intros key H1 H2; rewrite !lookup_insert_ne by congruence;
          reflexivity|].
  erewrite app_mode_value; [apply atoi_of_mode|].
  unfold rebooted, settings_reload, settings_find_entry. emul_simpl.
  cbn [settings_save settings_put_integer settings_put_string entries saved].
  apply lookup_insert_eq.
Qed.

(** ** Properties of the connection to the WiFi network *)

Lemma wifi_attempts_spec (connect : Z -> Z) (maxAttempts : Z) (fuel : nat) :
  forall attempt err,
    0 <= attempt ->
    (Z.to_nat (maxAttempts - attempt) < fuel)%nat ->
    exists attempt' err' log,
      wifi_attempts fuel connect maxAttempts attempt err
      = Some (attempt', err', log)
      /\ (attempt < maxAttempts ->
          err = NETWORK_WIFI_STA_CONN_ERR_TIMEOUT ->
          attempt < attempt' <= maxAttempts
          /\ err' = connect (attempt' - 1)
          /\ (forall n, attempt <= n < attempt' - 1 ->
                        connect n = NETWORK_WIFI_STA_CONN_ERR_TIMEOUT)
          /\ (attempt' < maxAttempts ->
              err' <> NETWORK_WIFI_STA_CONN_ERR_TIMEOUT))
      /\ (~ (attempt < maxAttempts
             /\ err = NETWORK_WIFI_STA_CONN_ERR_TIMEOUT) ->
          attempt' = attempt /\ err' = err)
      /\ Forall (fun entry =>
                   fst entry
                   = "Error connecting to the WiFi network: %i" +:+ nl) log.
Proof.
  induction fuel as [|fuel IH]; intros attempt err Hpos Hfuel; [lia|].
  cbn [wifi_attempts].
  destruct (Z.ltb_spec attempt maxAttempts) as [Hlt|Hge]; cbn [andb].
  2:{ do 3 eexists. split; [reflexivity|]. split; [lia|]. auto. }
  destruct (Z.eqb_spec err NETWORK_WIFI_STA_CONN_ERR_TIMEOUT) as [Herr|Herr].
  2:{ do 3 eexists. split; [reflexivity|]. split; [tauto|]. auto. }
  cbv zeta.
  destruct (IH (attempt + 1) (connect attempt) ltac:(lia) ltac:(lia))
    as (attempt' & err' & log & -> & Hgo & Hstop & Hlog).
  do 3 eexists. split; [reflexivity|].
  split; [|split; [tauto|]].
  2:{ apply Forall_app. split; [|exact Hlog].
      destruct ((0 <? connect attempt)
                && (connect attempt <? NETWORK_WIFI_STA_CONN_ERR_TIMEOUT));
        repeat constructor. }
  intros _ _.
  destruct (Z.ltb_spec (attempt + 1) maxAttempts) as [Hmore|Hlast].
  - destruct (Z.eq_dec (connect attempt) NETWORK_WIFI_STA_CONN_ERR_TIMEOUT)
      as [Hto|Hok].
    + destruct (Hgo Hmore Hto) as (Hrange & Hres & Hbefore & Hafter).
      split; [lia|]. split; [exact Hres|]. split; [|exact Hafter].
      intros n Hn. destruct (Z.eq_dec n attempt) as [->|Hne]; [exact Hto|].
      apply Hbefore. lia.
    + destruct (Hstop ltac:(tauto)) as [-> ->].
      replace (attempt + 1 - 1) with attempt by lia.
      split; [lia|]. split; [reflexivity|]. split; [intros n Hn; lia|].
      intros _. exact Hok.
  - destruct (Hstop ltac:(lia)) as [-> ->].
    replace (attempt + 1 - 1) with attempt by lia.
    split; [lia|]. split; [reflexivity|]. split; [intros n Hn; lia|]. lia.
Qed.

(** X25. The connection loop always ends, after one, two or three
    calls of [network_wifiStaConnect]: every call but the last has timed
    out, the error code that is left is the result of the last call, and a
    loop that ends before the third call has ended on a result that is not
    a timeout. The exhaustion of the attempts is logged exactly when the
    last result is a timeout. *)
Theorem wifi_connect_attempts (connect : Z -> Z) :
  exists attempt err log,
    wifi_connect connect = Some (attempt, err, log)
    /\ 1 <= attempt <= 3
    /\ err = connect (attempt - 1)
    /\ (forall n, 0 <= n < attempt - 1 ->
                  connect n = NETWORK_WIFI_STA_CONN_ERR_TIMEOUT)
    /\ (attempt < 3 -> err <> NETWORK_WIFI_STA_CONN_ERR_TIMEOUT)
    /\ (err = NETWORK_WIFI_STA_CONN_ERR_TIMEOUT
        <-> last log
            = Some ("Timeout connecting to the WiFi network after %d attempts"
                    +:+ nl, [arg_d 3])).
Proof.
  unfold wifi_connect. cbv zeta.
  destruct (wifi_attempts_spec connect 3 (S (Z.to_nat 3)) 0
              NETWORK_WIFI_STA_CONN_ERR_TIMEOUT ltac:(lia) ltac:(lia))
    as (attempt & err & log & -> & Hgo & _ & Hlog).
  destruct (Hgo ltac:(lia) eq_refl) as (Hrange & Hres & Hbefore & Hafter).
  do 3 eexists. split; [reflexivity|].
  split; [lia|]. split; [exact Hres|]. split; [exact Hbefore|].
  split; [exact Hafter|].
  destruct (Z.eqb_spec err NETWORK_WIFI_STA_CONN_ERR_TIMEOUT) as [E|E].
  - rewrite last_snoc. tauto.
  - rewrite app_nil_r. split; [contradiction|].
    intros Hlast. exfalso.
    apply last_Some in Hlast. destruct Hlast as [log' ->].
    apply Forall_app in Hlog. destruct Hlog as [_ Hlog].
    apply Forall_cons in Hlog. destruct Hlog as [Hlog _].
    cbn [fst] in Hlog. discriminate Hlog.
Qed.

(** ** Properties of [blink.c] *)

(** X26. However often and whenever [blink_toogle] is called, the
    LED is written with levels that alternate, starting with the inverse
    of the state, [blinkState] is the level written last, and two writes
    are more than 700 ms apart: [k] writes made at clock readings between
    [lo] and [hi] take [k - 1] gaps of 700 ms out of that interval. *)
Theorem blink_toogle_rate (nows : list Z) :
  forall (b : Blink) (lo hi : Z),
    Forall (fun now => lo <= now <= hi) nows ->
    exists k,
      led (blink_run nows b) = led b ++ alternating (negb (blinkState b)) k
      /\ blinkState (blink_run nows b)
         = (if Nat.even k then blinkState b else negb (blinkState b))
      /\ ((0 < k)%nat ->
          lo + (Z.of_nat k - 1) * (CHARACTER_GAP_MS * 1000) <= hi
          /\ blinkTime b + (Z.of_nat k - 1) * (CHARACTER_GAP_MS * 1000) < hi).
Proof.
  unfold blink_run.
  induction nows as [|now nows IH]; intros b lo hi Hall; cbn [fold_left].
  - exists 0%nat. cbn [alternating Nat.even]. rewrite app_nil_r.
    repeat split; lia.
  - apply Forall_cons in Hall. destruct Hall as [Hnow Hall].
    destruct (Z.ltb_spec (blinkTime b - now) 0) as [Hdue|Hearly].
    + set (b1 := blink_toogle now b).
      assert (Hb1 : led b1 = led b ++ [negb (blinkState b)]
                    /\ blinkState b1 = negb (blinkState b)
                    /\ blinkTime b1 = now + CHARACTER_GAP_MS * 1000).
      { subst b1. unfold blink_toogle, absolute_time_diff_us,
          make_timeout_time_ms.
        destruct (Z.ltb_spec (blinkTime b - now) 0); [|lia].
        cbv zeta. cbn [blinkState blinkTime led].
        destruct (blinkState b); repeat split. }
      destruct Hb1 as (Hled & Hstate & Htime). clearbody b1.
      destruct (IH b1 lo hi Hall) as (k & Hleds & Hst & Hgap).
      exists (S k). rewrite Hleds, Hst, Hled, Hstate. rewrite Htime in Hgap.
      cbn [alternating]. rewrite <- app_assoc. cbn [app].
      rewrite negb_involutive. split; [reflexivity|]. split.
      * rewrite Nat.even_succ, <- Nat.negb_even.
        destruct (Nat.even k); cbn [negb]; reflexivity.
      * intros _. unfold CHARACTER_GAP_MS in *.
        destruct k as [|k]; [lia|].
        specialize (Hgap ltac:(lia)). lia.
    + assert (Hsame : blink_toogle now b = b).
      { unfold blink_toogle, absolute_time_diff_us.
        destruct (Z.ltb_spec (blinkTime b - now) 0); [lia|reflexivity]. }
      rewrite Hsame. exact (IH b lo hi Hall).
Qed.

End Emulator.

(** ** The model on an RP2040 board *)

Abbreviation rp_storeFileToFlash := (storeFileToFlash 4096 256 RP_XIP_BASE).
Abbreviation rp_readRomsSdcard := (readRomsSdcard rp_stray_rom).
Abbreviation rp_readRomsCsv :=
  (readRomsCsv 256 "ROMS_FOLDER" rp_null_entry_value).
Abbreviation rp_cmdNext := (cmdNext 40 rp_stray_rom).
Abbreviation rp_cmdCard := (cmdCard 40 rp_stray_rom).
Abbreviation rp_cmdNetwork :=
  (cmdNetwork 256 "ROMS_FOLDER" 40 rp_stray_rom rp_null_entry_value).
Abbreviation rp_cmdUnknown :=
  (cmdUnknown "ROM_SELECTED" "v1" 40 rp_stray_rom rp_start_outcome).
Abbreviation rp_cmdLaunch :=
  (cmdLaunch 4096 256 RP_XIP_BASE "ROM_SELECTED" "ROM_MODE" RP_ROM_TEMP_START []).
Abbreviation rp_download_step :=
  (download_step "ROM_SELECTED" "v1" rp_stray_rom rp_start_outcome
     rp_keep_status rp_keep_status rp_keep_status).
Abbreviation rp_rom_at := (rom_at rp_stray_rom).
Abbreviation rp_loop_iteration :=
  (loop_iteration 4096 256 RP_XIP_BASE "ROM_SELECTED" "ROMS_FOLDER" "ROM_MODE"
     "v1" 40 RP_ROM_TEMP_START [] rp_stray_rom rp_null_entry_value
     rp_start_outcome rp_keep_status rp_keep_status rp_keep_status rp_term_cmd).
Abbreviation rp_main_loop :=
  (main_loop 4096 256 RP_XIP_BASE "ROM_SELECTED" "ROMS_FOLDER" "ROM_MODE"
     "v1" 40 RP_ROM_TEMP_START [] rp_stray_rom rp_null_entry_value
     rp_start_outcome rp_keep_status rp_keep_status rp_keep_status rp_term_cmd).
Abbreviation rp_emul_start_mode :=
  (emul_start_mode "ROM_MODE" RP_ROM_TEMP_START 65536 2 true).
Abbreviation rp_emul_start_exit := (emul_start_exit "ROM_SELECTED" "ROM_MODE").

Example atoi_row : atoi " 12x" = 12.
Proof. reflexivity. Qed.

Example atoi_saturates : atoi "99999999999" = INT_MAX.
Proof. reflexivity. Qed.

Example hasValidExtension_upper : hasValidExtension "Bare.ROM" = true.
Proof. reflexivity. Qed.

Example hasValidExtension_hidden : hasValidExtension ".rom" = false.
Proof. reflexivity. Qed.

Example urlDecode_AB : urlDecode "%41%42" (MAX_PATH_SIZE * 2) = "AB".
Proof. reflexivity. Qed.

Example urlDecode_not_hex : urlDecode "50%zz" (MAX_PATH_SIZE * 2) = "50%zz".
Proof. reflexivity. Qed.

Example urlDecode_one_byte : urlDecode "AB" 1 = "".
Proof. reflexivity. Qed.

(** With a [destSize] of 0 the bound of the loop wraps to [SIZE_MAX]. *)
Example urlDecode_no_byte : urlDecode "AB" 0 = "AB".
Proof. vm_compute. reflexivity. Qed.

(** A file name of 130 characters in the folder /roms: the path has 133
    characters, the last 5 of them lie in [name]. *)
Example sd_entry_of_a_long_name :
  let long := string_of_list_ascii (replicate 126 "a"%char) +:+ ".rom" in
  let entry := sd_entry "/roms" {| fname := long; fattrib := 32 |} empty_rom in
  filename entry = str_take 35 long
  /\ path entry = "/roms/" +:+ str_take 127 long
  /\ String.length (path entry) = 133%nat
  /\ name entry = "aaaa."
  /\ description entry = "".
Proof. vm_compute. repeat split. Qed.

(** A URL of 130 characters in the folder /roms: [path] holds the first
    128 characters of the full path, and the name follows them. *)
Example csv_entry_of_a_long_url :
  let long := string_of_list_ascii (replicate 126 "a"%char) +:+ ".rom" in
  let entry :=
    csv_entry "ROMS_FOLDER" rp_null_entry_value (aconfig (boot card ""))
      (long, "Long", "A game", "games", "64")%string in
  filename entry = str_take 35 long
  /\ path entry = str_take 128 ("/roms/" +:+ long) +:+ "Long"
  /\ name entry = "Long".
Proof. vm_compute. repeat split. Qed.

Example swap16_words :
  swap16 (list_ascii_of_string "abcde") = list_ascii_of_string "badce".
Proof. reflexivity. Qed.

Example page_indices_second_page : page_indices 25 20 1 = [20; 21; 22; 23; 24].
Proof. reflexivity. Qed.

Example page_indices_beyond : page_indices 25 20 7 = [24].
Proof. reflexivity. Qed.

Example scan_of_the_card :
  let s := rp_readRomsSdcard "/roms" (boot card "") in
  romsCount s = 3
  /\ map filename (take 3 (roms s)) = ["Bare.ROM"; "headed.rom"; "short.rom"]
  /\ maxRomPages s = 1.
Proof. vm_compute. repeat split. Qed.

(** ** Instances *)


(** C2 on a file of one sector behind four zero bytes. *)
Lemma storeFileToFlash_zero_header_on_card :
  exists ops,
    rp_storeFileToFlash card "/roms/headed.rom" RP_ROM_TEMP_START []
    = Some (FR_OK, card, ops)
    /\ rp_storeFileToFlash card "/roms/bare.rom" RP_ROM_TEMP_START
         (list_ascii_of_string "left on the stack")
       = Some (FR_OK, card, ops).
Proof.
  refine (proj1 (storeFileToFlash_zero_header 4096 256 RP_XIP_BASE _ _
                   1 zero_header rom_payload card "/roms/headed.rom"
                   RP_ROM_TEMP_START [] _ _ _ _ _ _)
            eq_refl "/roms/bare.rom" _ _);
    try lia; vm_compute; reflexivity.
Defined.

(** C3, as amended, on the card: its scan and the parse of its catalog
    document; the network command on the catalog of 21 rows, and the card
    command, each followed by next and previous commands. *)
Lemma catalog_invariant_on_card :
  catalog_ok (rp_readRomsSdcard "/roms" (boot card ""))
  /\ catalog_ok (rp_readRomsCsv "/roms/roms.csv" (boot card ""))
  /\ (let s := rp_cmdNetwork "" (boot card_remote_only "") in
      let s' :=
        fold_left (navigate 40 rp_stray_rom)
          [nav_next ""; nav_next ""; nav_prev ""] s in
      catalog_ok s /\ page_in_range s
      /\ page_in_range s' /\ roms s' = roms s
      /\ maxRomPages s' = maxRomPages s /\ romsCount s' = romsCount s)
  /\ (let s := rp_cmdCard "" (boot card "") in
      let s' :=
        fold_left (navigate 40 rp_stray_rom) [nav_prev ""; nav_next ""] s in
      catalog_ok s /\ page_in_range s
      /\ page_in_range s' /\ roms s' = roms s
      /\ maxRomPages s' = maxRomPages s /\ romsCount s' = romsCount s).
Proof.
  destruct (catalog_invariant 256 "ROMS_FOLDER" 40 rp_stray_rom
              rp_null_entry_value) as (Hsd & Hcsv & Hnet & Hcard & Hnav).
  split; [|split; [|split]].
  - apply Hsd. vm_compute. reflexivity.
  - apply Hcsv. vm_compute. repeat split; discriminate.
  - cbv zeta.
    destruct (Hnet "" (boot card_remote_only "")) as (_ & Hpage & Hok).
    split; [apply Hok; vm_compute; repeat split; discriminate|].
    split; [exact Hpage|]. apply Hnav. exact Hpage.
  - cbv zeta.
    destruct (Hcard "" (boot card "")) as (_ & Hpage & Hok).
    split; [apply Hok; vm_compute; reflexivity|].
    assert (Hin : page_in_range (rp_cmdCard "" (boot card "")))
      by (apply Hpage; right; reflexivity).
    split; [exact Hin|]. apply Hnav. exact Hin.
Defined.

(** C3 as stated fails on an empty catalog. A document with a header
    line only is opened and parsed to zero entries and zero pages, and after
    the next command the current page is 0, which is not below the page
    count. And the card command on a folder without ROMs, given after page
    1 of a remote catalog of 21 entries was shown, opens the folder and
    leaves zero entries, zero pages and the current page 1, which the next
    command keeps: it is not below the page count either, nor below 1. *)
Lemma empty_catalog_page_not_below_page_count :
  (let s := rp_readRomsCsv "/roms/roms.csv" (boot card_empty_catalog "") in
   csv_opens 256 "/roms/roms.csv" (boot card_empty_catalog "")
   /\ romsCount s = 0
   /\ maxRomPages s = 0
   /\ currentRomPage (rp_cmdNext "" s) = 0
   /\ ~ (0 <= currentRomPage (rp_cmdNext "" s)
         < maxRomPages (rp_cmdNext "" s)))
  /\ (let s1 := rp_cmdNext "" (rp_cmdNetwork "" (boot card_remote_only "")) in
      let s2 := rp_cmdCard "" s1 in
      let s3 := rp_cmdNext "" s2 in
      (romsCount s1, maxRomPages s1, currentRomPage s1) = (21, 2, 1)
      /\ sd_opens (romsFolder s1) s1
      /\ (romsCount s2, maxRomPages s2, currentRomPage s2) = (0, 0, 1)
      /\ (romsCount s3, maxRomPages s3, currentRomPage s3) = (0, 0, 1)
      /\ ~ (0 <= currentRomPage s3 < maxRomPages s3)
      /\ ~ page_in_range s3).
Proof.
  cbv zeta. split; [split; [|split; [|split; [|split]]]|].
  - vm_compute. repeat split; discriminate.
  - vm_compute. reflexivity.
  - vm_compute. reflexivity.
  - vm_compute. reflexivity.
  - vm_compute. intros [_ H]. discriminate H.
  - split; [vm_compute; reflexivity|]. split; [vm_compute; reflexivity|].
    split; [vm_compute; reflexivity|]. split; [vm_compute; reflexivity|].
    split; unfold page_in_range; vm_compute; intros [_ H]; discriminate H.
Qed.


(** C4 on the board: the remote catalog has been browsed (two entries)
    when the card stops answering; the local scan then fails to open the
    folder, reports it, and leaves a catalog of two entries. *)
Lemma readRomsSdcard_failure_keeps_the_catalog :
  let before := set_fatfs card_failing (rp_cmdNetwork "" (boot card "")) in
  let after := rp_readRomsSdcard "/roms" before in
  fst (fst (f_opendir (fatfs before) "/roms")) = 1
  /\ romsCount before = 2
  /\ romsCount after = 2
  /\ debug after
     = debug before
       ++ [("Error opening directory %s: %d" +:+ nl, [arg_s "/roms"; arg_d 1])].
Proof. vm_compute. repeat split. Qed.

(** C5 on the board: the row whose URL field is [%41%42.rom] is stored
    with that text as its filename, not with its decoding [AB.rom]; its
    path, name and description are decoded. *)
Lemma readRomsCsv_stores_the_encoded_filename :
  let s := rp_readRomsCsv "/roms/roms.csv" (boot card "") in
  romsCount s = 2
  /\ filename (rp_rom_at s 0) = "%41%42.rom"
  /\ urlDecode "%41%42.rom" (MAX_PATH_SIZE * 2) = "AB.rom"
  /\ path (rp_rom_at s 0) = "/roms/AB.rom"
  /\ name (rp_rom_at s 0) = "AB"
  /\ description (rp_rom_at s 0) = "A game".
Proof. vm_compute. repeat split. Qed.

(** C6 on the board: a request observed at clock reading 1000. *)
Lemma download_step_machine_on_board :
  let s :=
    set_engine
      (download_setStatus (engine (boot card "")) DOWNLOAD_STATUS_REQUESTED)
      (boot card "") in
  rp_download_step 1000 0 s
  = (1000 + 3 * 1000 * 1000,
     set_engine (download_setStatus (engine s) DOWNLOAD_STATUS_NOT_STARTED) s).
Proof.
  cbv zeta.
  apply (proj1 (download_step_machine "ROM_SELECTED" "v1" rp_stray_rom
                  rp_start_outcome rp_keep_status rp_keep_status rp_keep_status
                  1000 0 _)).
  reflexivity.
Defined.

(** C8 as stated fails: row 2 of the remote catalog is picked, and the
    index, unset at -1 before, is 1 after the download is confirmed, after
    it is abandoned, and after it has completed. *)
Lemma downloadRomSelected_is_not_cleared :
  let browsing := rp_cmdNetwork "" (boot card "") in
  let detail := rp_cmdUnknown "2" browsing in
  let confirmed := rp_cmdUnknown "" detail in
  let abandoned := rp_cmdUnknown "q" detail in
  let completed :=
    snd (rp_download_step 0 0
           (set_engine
              (download_setStatus (engine confirmed) DOWNLOAD_STATUS_COMPLETED)
              confirmed)) in
  downloadRomSelected browsing = -1
  /\ downloadRomSelected detail = 1
  /\ menuLevel confirmed = TERM_ROMS_MENU_MAIN
  /\ downloadRomSelected confirmed = 1
  /\ menuLevel abandoned = TERM_ROMS_MENU_BROWSE_NETWORK
  /\ downloadRomSelected abandoned = 1
  /\ dl_status (engine completed) = DOWNLOAD_STATUS_IDLE
  /\ downloadRomSelected completed = 1.
Proof. vm_compute. repeat split. Qed.

(** C9 on the board, with a selected ROM that is on the card. *)
Lemma cmdLaunch_outcome_on_card :
  exists s',
    rp_cmdLaunch "" (boot card "short.rom") = Some s'
    /\ exists fresult fs ops,
         rp_storeFileToFlash card "/roms/short.rom" (wrap32 RP_ROM_TEMP_START) []
         = Some (fresult, fs, ops)
         /\ fatfs s' = fs
         /\ flash s' = ops
         /\ (fresult <> FR_OK ->
             aconfig s' = aconfig (boot card "short.rom") /\ keepActive s' = true)
         /\ (fresult = FR_OK ->
             aconfig s'
             = settings_save
                 (settings_put_integer (aconfig (boot card "short.rom"))
                    "ROM_MODE" ROM_MODE_DIRECT)
             /\ keepActive s' = false).
Proof.
  exact (cmdLaunch_outcome 4096 256 RP_XIP_BASE "ROM_SELECTED" "ROM_MODE"
           RP_ROM_TEMP_START [] "" (boot card "short.rom")).
Defined.

(** C9 on the board, with a selected ROM that is not on the card: the
    call fails with [FR_NO_FILE], and the launch changes neither the
    settings nor the keep-running flag nor the flash. *)
Lemma cmdLaunch_of_a_missing_rom :
  exists s',
    rp_cmdLaunch "" (boot card "missing.rom") = Some s'
    /\ rp_storeFileToFlash card "/roms/missing.rom" (wrap32 RP_ROM_TEMP_START) []
       = Some (FR_NO_FILE, card, [])
    /\ aconfig s' = aconfig (boot card "missing.rom")
    /\ keepActive s' = true
    /\ flash s' = [].
Proof.
  eexists. split; [vm_compute; reflexivity|]. vm_compute. repeat split.
Qed.

(** C10 on the board: the remote-browse command on a catalog document
    with no rows renders page 0 of zero entries, and the render reads
    [roms[-1]]: the third string it prints is the line of that entry. *)
Lemma displayRomsPage_of_an_empty_catalog :
  let s := rp_cmdNetwork "" (boot card_empty_catalog "") in
  romsCount s = 0
  /\ currentRomPage s = 0
  /\ page_indices (romsCount s) MAX_ROMS_PER_PAGE (currentRomPage s) = [-1]
  /\ term s !! 2%nat = Some (rom_line 40 (-1) (rp_stray_rom (-1))).
Proof. vm_compute. repeat split. Qed.

(** ** Instances of the further properties *)

Ltac free_of_tac :=
  unfold free_of; cbn [list_ascii_of_string];
  repeat (apply List.Forall_cons; [discriminate|]); apply List.Forall_nil.

(** A name in upper case with a stem. *)
Lemma hasValidExtension_stem_ext_upper_case :
  hasValidExtension ("Bare" +:+ "." +:+ "ROM") = true
  <-> In (lowercase (c_str "ROM")) ["img"; "rom"; "stc"; "bin"]%string.
Proof.
  apply (proj2 (proj2 (hasValidExtension_stem_ext 0 "" rp_stray_rom rp_term_cmd
                         "Bare" "ROM" ltac:(free_of_tac) eq_refl))).
  discriminate.
Defined.

(** An encoded file name and a destination of four bytes. *)
Lemma urlDecode_fits_four_bytes :
  (String.length (urlDecode "%41%42.rom" 4) <= 4 - 1)%nat
  /\ (String.length (urlDecode "%41%42.rom" 4)
      <= String.length "%41%42.rom")%nat.
Proof. apply (urlDecode_fits "%41%42.rom" 4). lia. Defined.

(** A file name of the catalog document. *)
Lemma urlDecode_plain_file_name :
  urlDecode "zeta.rom" (MAX_PATH_SIZE * 2)
  = str_take (MAX_PATH_SIZE * 2 - 1) (c_str "zeta.rom").
Proof.
  apply (urlDecode_plain "zeta.rom" (MAX_PATH_SIZE * 2));
    [free_of_tac|vm_compute; lia|vm_compute; discriminate].
Defined.

(** A name with a space and a percent sign in it. *)
Lemma urlDecode_percent_encode_of_a_name :
  urlDecode (percent_encode "A 100% game") MAX_PATH_SIZE
  = str_take (MAX_PATH_SIZE - 1) (c_str "A 100% game").
Proof.
  apply (urlDecode_percent_encode "A 100% game" MAX_PATH_SIZE);
    [vm_compute; lia|vm_compute; discriminate].
Defined.

(** The first data line of the catalog document of the card. *)
Lemma csv_fields_csv_row_zeta :
  csv_fields (csv_row "zeta.rom" "Zeta" "A tool" "tools" "64")
  = Some ("zeta.rom", "Zeta", "A tool", "tools", "64")%string.
Proof.
  apply (csv_fields_csv_row "zeta.rom" "Zeta" "A tool" "tools" "64");
    [repeat (apply List.Forall_cons; [split; free_of_tac|]);
     apply List.Forall_nil
    |vm_compute; lia..].
Defined.

(** The scan of the card: three of its five entries are kept. *)
Lemma readRomsSdcard_keeps_the_valid_files_on_card :
  let s' := rp_readRomsSdcard "/roms" (boot card "") in
  let kept := take (Z.to_nat MAX_ROMS) (List.filter sd_accepts roms_dir) in
  romsCount s' = Z.of_nat (length kept)
  /\ Permutation (map filename (take (Z.to_nat (romsCount s')) (roms s')))
       (map (fun fno => str_take (MAX_FILENAME_LENGTH - 1) (c_str (fname fno)))
          kept)
  /\ length (roms s') = length (roms (boot card "")).
Proof.
  apply (readRomsSdcard_keeps_the_valid_files rp_stray_rom "/roms" roms_dir
           (boot card ""));
    [reflexivity
    |vm_compute; reflexivity
    |repeat (apply List.Forall_cons; [reflexivity|]); apply List.Forall_nil
    |vm_compute; reflexivity].
Defined.

(** The parse of the catalog document of the card: two data lines, in
    the folder /roms. *)
Lemma readRomsCsv_keeps_the_data_lines_on_card :
  let lines :=
    [ csv_row "zeta.rom" "Zeta" "A tool" "tools" "64";
      csv_row "%41%42.rom" "%41%42" "A%20game" "games" "128" ] in
  let s' := rp_readRomsCsv "/roms/roms.csv" (boot card "") in
  let kept := take (Z.to_nat MAX_ROMS) (omap csv_fields lines) in
  romsCount s' = Z.of_nat (length kept)
  /\ Permutation (take (Z.to_nat (romsCount s')) (roms s'))
       (map (csv_record "/roms") kept)
  /\ length (roms s') = length (roms (boot card "")).
Proof.
  apply (readRomsCsv_keeps_the_data_lines 256 "ROMS_FOLDER"
           rp_null_entry_value "/roms/roms.csv"
           (list_ascii_of_string csv_two_rows) csv_header
           [ csv_row "zeta.rom" "Zeta" "A tool" "tools" "64";
             csv_row "%41%42.rom" "%41%42" "A%20game" "games" "128" ]
           "/roms" (boot card ""));
    [vm_compute; reflexivity..
    |vm_compute; repeat (apply List.Forall_cons; [lia|]);
     apply List.Forall_nil].
Defined.

(** The card command on a folder with a directory, a text file and a
    hidden file. *)
Lemma cmdCard_without_roms_on_card :
  let s := boot card_without_roms "" in
  let s' := rp_cmdCard "" s in
  romsCount s' = 0
  /\ menuLevel s' = TERM_ROMS_MENU_BROWSE_SD
  /\ currentRomPage s' = currentRomPage s
  /\ term s'
     = term s
       ++ [ "No ROMs found in the SD card." +:+ nl;
            "Download ROMs from internet," +:+ nl;
            "or copy them to folder '";
            romsFolder s;
            "'" +:+ nl +:+ nl ].
Proof.
  apply (cmdCard_without_roms 40 rp_stray_rom ""
           [ {| fname := "."; fattrib := 16 |};
             {| fname := "notes.txt"; fattrib := 32 |};
             {| fname := ".hidden.rom"; fattrib := 32 |} ]
           card_without_roms (boot card_without_roms ""));
    vm_compute; reflexivity.
Defined.

(** A call that fails at its second read: the one chunk read before is
    programmed whole, and the call returns the error. *)
Lemma storeFileToFlash_programs_a_prefix_before_a_fault :
  exists chunks,
    Forall (fun c => (0 < length c <= 4096)%nat) chunks
    /\ snd (spec_program 256 (wrap32 (RP_ROM_TEMP_START - RP_XIP_BASE)) chunks)
       = spec_chunk_ops 256 1048576 (list_ascii_of_string "abcdef")
    /\ match files card_failing_later !! "/roms/short.rom" with
       | Some data => concat chunks `prefix_of` payload_of 4096 data
       | None => chunks = [] /\ 1 <> FR_OK
       end.
Proof.
  apply (storeFileToFlash_programs_a_prefix 4096 256 RP_XIP_BASE
           card_failing_later "/roms/short.rom" RP_ROM_TEMP_START [] 1
           {| files := card_files; dirs := card_dirs; faults := [] |});
    [lia|lia|vm_compute; reflexivity].
Defined.

(** A chunk of six bytes in a sector of 4096 bytes and pages of 256. *)
Lemma programSize_of_within_the_sector_six_bytes :
  (6 <= programSize_of 256 6 <= 4096)%nat
  /\ (programSize_of 256 6 mod 256 = 0)%nat
  /\ (programSize_of 256 6 < 6 + 256)%nat
  /\ length (pad_buffer 256 rom_payload 6) = 4096%nat
  /\ length (fst (program_chunk 256 rom_payload 6 0)) = 4096%nat.
Proof.
  apply (programSize_of_within_the_sector 4096 256 rom_payload 6 0);
    [lia|lia|reflexivity|lia|apply length_replicate].
Defined.

(** Row 2 of the list of the card. *)
Lemma cmdUnknown_selects_from_the_card_row_2 :
  let s := rp_cmdCard "" (boot card "") in
  let s' := rp_cmdUnknown "2" s in
  aconfig s'
  = settings_save
      (settings_put_string (aconfig s) "ROM_SELECTED"
         (filename (rp_rom_at s (atoi "2" - 1))))
  /\ settings_find_entry (aconfig s') "ROM_SELECTED"
     = Some (filename (rp_rom_at s (atoi "2" - 1)))
  /\ saved (aconfig s') = entries (aconfig s')
  /\ menuLevel s' = TERM_ROMS_MENU_MAIN.
Proof.
  apply (proj1 (cmdUnknown_selects_from_the_card "ROM_SELECTED" "v1" 40
                  rp_stray_rom rp_start_outcome "2"
                  (rp_cmdCard "" (boot card ""))
                  ltac:(vm_compute; reflexivity)));
    vm_compute; split; [reflexivity|discriminate].
Defined.

(** RETURN at the details of row 2 of the remote catalog. *)
Lemma cmdUnknown_confirms_a_download_of_row_2 :
  let s := rp_cmdUnknown "2" (rp_cmdNetwork "" (boot card "")) in
  let s' := rp_cmdUnknown "" s in
  aconfig s'
  = settings_save (settings_put_string (aconfig s) "ROM_SELECTED" "")
  /\ dl_filepath (engine s')
     = snprintf (MAX_PATH_SIZE * 2)
         (dl_protocol (engine s) +:+ "://" +:+ dl_host (engine s) +:+ "/"
          +:+ filename (rp_rom_at s (downloadRomSelected s)))
  /\ dl_calls (engine s') = dl_calls (engine s) ++ [call_start]
  /\ dl_status (engine s')
     = snd (rp_start_outcome
              (download_setFilepath (engine s) (dl_filepath (engine s'))))
  /\ menuLevel s' = TERM_ROMS_MENU_MAIN.
Proof.
  apply (proj1 (cmdUnknown_confirms_a_download "ROM_SELECTED" "v1" 40
                  rp_stray_rom rp_start_outcome ""
                  (rp_cmdUnknown "2" (rp_cmdNetwork "" (boot card "")))
                  ltac:(vm_compute; reflexivity)));
    reflexivity.
Defined.

(** A selection that is not on the card. *)
Lemma cmdLaunch_of_a_missing_file_on_card :
  exists s' fresult,
    rp_cmdLaunch "" (boot card "missing.rom") = Some s'
    /\ fresult <> FR_OK
    /\ flash s' = flash (boot card "missing.rom")
    /\ aconfig s' = aconfig (boot card "missing.rom")
    /\ keepActive s' = keepActive (boot card "missing.rom")
    /\ last (debug s')
       = Some ("Error loading ROM file into FLASH: %d" +:+ nl, [arg_d fresult]).
Proof.
  apply (cmdLaunch_of_a_missing_file 4096 256 RP_XIP_BASE "ROM_SELECTED"
           "ROM_MODE" RP_ROM_TEMP_START [] "" "missing.rom"
           (boot card "missing.rom"));
    vm_compute; reflexivity.
Defined.

(** A round that serves the booster command. *)
Lemma loop_ends_by_launch_or_booster_on_board :
  (exists arg,
      Some ("x", "")%string = Some ("l"%string, arg)
      /\ resetDeviceAtBoot (cmdBooster "" (boot card ""))
         = resetDeviceAtBoot (boot card ""))
  \/ (exists arg,
         Some ("x", "")%string = Some ("x"%string, arg)
         /\ resetDeviceAtBoot (cmdBooster "" (boot card "")) = false).
Proof.
  apply (loop_ends_by_launch_or_booster 4096 256 RP_XIP_BASE "ROM_SELECTED"
           "ROMS_FOLDER" "ROM_MODE" "v1" 40 RP_ROM_TEMP_START [] rp_stray_rom
           rp_null_entry_value rp_start_outcome rp_keep_status rp_keep_status
           rp_keep_status rp_term_cmd (Some ("x", "")%string) 0 0
           (boot card "") 0
           (cmdBooster "" (boot card "")));
    vm_compute; reflexivity.
Defined.

(** The menu command that follows the booster command is not served. *)
Lemma main_loop_stops_when_not_kept_active_on_board :
  rp_main_loop ([(Some ("x", "")%string, 0)] ++ [(Some ("m", "")%string, 1)]) 0
    (boot card "")
  = Some (0, cmdBooster "" (boot card "")).
Proof.
  apply (main_loop_stops_when_not_kept_active 4096 256 RP_XIP_BASE
           "ROM_SELECTED" "ROMS_FOLDER" "ROM_MODE" "v1" 40 RP_ROM_TEMP_START []
           rp_stray_rom rp_null_entry_value rp_start_outcome rp_keep_status
           rp_keep_status rp_keep_status rp_term_cmd);
    vm_compute; reflexivity.
Defined.

(** The download of row 2 of the remote catalog completes. *)
Lemma completed_download_of_a_later_row_on_board :
  let s :=
    set_engine
      (download_setStatus (engine (boot card "")) DOWNLOAD_STATUS_COMPLETED)
      (rp_cmdUnknown "2" (rp_cmdNetwork "" (boot card ""))) in
  let s' := snd (rp_download_step 0 0 s) in
  dl_status (engine s') = DOWNLOAD_STATUS_IDLE
  /\ dl_calls (engine s') = dl_calls (engine s) ++ [call_finish; call_confirm]
  /\ aconfig s'
     = settings_save
         (settings_put_string (aconfig s) "ROM_SELECTED"
            (filename (rp_rom_at s (downloadRomSelected s))))
  /\ menuLevel s' = TERM_ROMS_MENU_MAIN.
Proof.
  apply (completed_download_of_a_later_row "ROM_SELECTED" "v1" rp_stray_rom
           rp_start_outcome rp_keep_status rp_keep_status rp_keep_status 0 0);
    vm_compute; reflexivity.
Defined.

(** A catalog of 45 entries has three pages. *)
Lemma pages_partition_the_catalog_of_45 :
  let maxRomPages := (45 + MAX_ROMS_PER_PAGE - 1) `quot` MAX_ROMS_PER_PAGE in
  concat (map (page_indices 45 MAX_ROMS_PER_PAGE) (seqZ 0 maxRomPages))
  = seqZ 0 45.
Proof. apply (pages_partition_the_catalog 45). lia. Defined.

(** The line of an entry with a name of 60 characters on a screen of 40
    columns. *)
Lemma rom_line_fits_the_screen_long_name :
  let r :=
    {| filename := "long.rom"; path := "/roms/long.rom";
       name := string_of_list_ascii (replicate 60 "n"%char);
       description := ""; tags := ""; size := 0 |} in
  (String.length (rom_line 40 7 r) <= 40 - 1)%nat
  /\ (free_of LF (name r) -> exists body, rom_line 40 7 r = body +:+ nl).
Proof. apply (rom_line_fits_the_screen 40 7). lia. Defined.

(** A start in the delayed mode, with SELECT pushed at the second and at
    the fourth poll. *)
Lemma emul_start_mode_emulates_once_delayed :
  let s :=
    set_aconfig
      (settings_put_integer (aconfig (boot card "short.rom")) "ROM_MODE"
         ROM_MODE_DELAY)
      (boot card "short.rom") in
  exists calls s',
    rp_emul_start_mode [false; true; false; true] s = Some (inl (calls, s'))
    /\ last calls = Some reset_device
    /\ aconfig s'
       = settings_save
           (settings_put_integer (aconfig s) "ROM_MODE" ROM_MODE_SETUP)
    /\ term s' = term s /\ flash s' = flash s /\ fatfs s' = fatfs s
    /\ forall polls',
         exists s'', rp_emul_start_mode polls' (rebooted s') = Some (inr s'').
Proof.
  apply (proj2 (emul_start_mode_emulates_once "ROM_MODE" RP_ROM_TEMP_START
                  65536 2 true "1" [false; true; false; true]
                  (set_aconfig
                     (settings_put_integer (aconfig (boot card "short.rom"))
                        "ROM_MODE" ROM_MODE_DELAY)
                     (boot card "short.rom"))
                  ltac:(vm_compute; reflexivity)
                  ltac:(right; vm_compute; reflexivity))).
  vm_compute. lia.
Defined.

(** The launch of a ROM of the card, and the start that follows. *)
Lemma launch_then_reset_emulates_on_card :
  let s := boot card "short.rom" in
  let s1 := default s (rp_cmdLaunch "" s) in
  fst (rp_emul_start_exit s1) = [sleep_ms SLEEP_LOOP_MS; reset_device]
  /\ aconfig (snd (rp_emul_start_exit s1)) = aconfig s1
  /\ fst (app_mode "ROM_MODE" (rebooted (snd (rp_emul_start_exit s1))))
     = (if delayMode s then ROM_MODE_DELAY else ROM_MODE_DIRECT)
  /\ forall polls s2,
       rp_emul_start_mode polls (rebooted (snd (rp_emul_start_exit s1)))
       <> Some (inr s2).
Proof.
  apply (launch_then_reset_emulates 4096 256 RP_XIP_BASE "ROM_SELECTED"
           "ROM_MODE" RP_ROM_TEMP_START [] 65536 2 true ""
           (boot card "short.rom"));
    vm_compute; reflexivity.
Defined.

(** Five calls within 1.6 seconds: the LED is written three times. *)
Lemma blink_toogle_rate_of_five_calls :
  let b := {| blinkState := false; blinkTime := 0; led := [] |} in
  let nows := [1; 2; 800000; 800001; 1600000] in
  exists k,
    led (blink_run nows b) = led b ++ alternating (negb (blinkState b)) k
    /\ blinkState (blink_run nows b)
       = (if Nat.even k then blinkState b else negb (blinkState b))
    /\ ((0 < k)%nat ->
        1 + (Z.of_nat k - 1) * (CHARACTER_GAP_MS * 1000) <= 1600000
        /\ blinkTime b + (Z.of_nat k - 1) * (CHARACTER_GAP_MS * 1000) < 1600000).
Proof.
  apply (blink_toogle_rate [1; 2; 800000; 800001; 1600000]
           {| blinkState := false; blinkTime := 0; led := [] |} 1 1600000).
  repeat (apply List.Forall_cons; [lia|]). apply List.Forall_nil.
Defined.

(** The second of three pages. *)
Lemma cmdNext_and_cmdPrev_are_inverse_on_page_1 :
  let s := set_currentRomPage 1 (set_maxRomPages 3 (boot card "")) in
  (currentRomPage s < maxRomPages s - 1 ->
   currentRomPage (cmdPrev 40 rp_stray_rom "" (rp_cmdNext "" s))
   = currentRomPage s)
  /\ (maxRomPages s - 1 <= currentRomPage s ->
      currentRomPage (rp_cmdNext "" s) = currentRomPage s)
  /\ (0 < currentRomPage s ->
      currentRomPage (rp_cmdNext "" (cmdPrev 40 rp_stray_rom "" s))
      = currentRomPage s)
  /\ (currentRomPage s = 0 ->
      currentRomPage (cmdPrev 40 rp_stray_rom "" s) = 0).
Proof.
  apply (cmdNext_and_cmdPrev_are_inverse 40 rp_stray_rom "" ""
           (set_currentRomPage 1 (set_maxRomPages 3 (boot card "")))).
  unfold page_in_range. vm_compute. split; [discriminate|reflexivity].
Defined.
